(** * SchemPy: schematic files, palettes and the varint codec

    A shallow embedding of [schempy/utils.py], [schempy/schematic.py] and
    [schempy/serializer.py].
    Python integers are unbounded, so they are [Z]; a [bytearray] is a
    [list Z] of values in [0, 255]; a [str] is a [string]; a [dict] keeps
    its insertion order, so it is an association list whose keys are
    compared with the key type's [__eq__].  A call either returns, raises
    or loops for ever: [result] has one constructor for each. *)

From Stdlib Require Import ZArith List String Ascii Bool Lia Permutation.
Import ListNotations.
Local Open Scope Z_scope.

(** ** The Python side: exceptions, results, strings, lists, dicts *)

Module py.

(** The exception classes the code raises, or lets the runtime raise. *)
Inductive exn : Type :=
| ValueError (msg : string)
| IndexError
| KeyError (key : string)
| AttributeError (name : string)
| NotImplementedError (msg : string)
| FileNotFoundError
| TypeError.

Inductive result (A : Type) : Type :=
| Ok (a : A)
| Raise (e : exn)
| Diverges.

Arguments Ok {A} a.
Arguments Raise {A} e.
Arguments Diverges {A}.

Definition bind {A B : Type} (r : result A) (k : A -> result B) : result B :=
  match r with
  | Ok a => k a
  | Raise e => Raise e
  | Diverges => Diverges
  end.

(** [len(l)] *)
Definition len {A : Type} (l : list A) : Z := Z.of_nat (List.length l).

(** [l[index]] on a Python list: a negative index counts from the end,
    anything outside [-len(l), len(l)) raises [IndexError]. *)
Definition list_getitem {A : Type} (l : list A) (index : Z) : result A :=
  let i := if index <? 0 then index + len l else index in
  if (0 <=? i) && (i <? len l) then
    match nth_error l (Z.to_nat i) with
    | Some a => Ok a
    | None => Raise IndexError
    end
  else Raise IndexError.

(** [c in s] for a one-character [c]. *)
Fixpoint contains (c : ascii) (s : string) : bool :=
  match s with
  | EmptyString => false
  | String c' rest => Ascii.eqb c' c || contains c rest
  end.

(** [s.split(sep)] for a one-character separator: never an empty list. *)
Fixpoint split (sep : ascii) (s : string) : list string :=
  match s with
  | EmptyString => [EmptyString]
  | String c rest =>
      if Ascii.eqb c sep then EmptyString :: split sep rest
      else match split sep rest with
           | piece :: pieces => String c piece :: pieces
           | [] => [String c EmptyString]
           end
  end.

(** [s[:-1]] *)
Fixpoint drop_last (s : string) : string :=
  match s with
  | EmptyString => EmptyString
  | String c EmptyString => EmptyString
  | String c rest => String c (drop_last rest)
  end.

(** [sep.join(pieces)] *)
Fixpoint join (sep : string) (pieces : list string) : string :=
  match pieces with
  | [] => EmptyString
  | [piece] => piece
  | piece :: rest => String.append piece (String.append sep (join sep rest))
  end.

(** A [dict]: insertion-ordered, at most one entry per key. *)
Section Dict.
Context {K V : Type} (eqb : K -> K -> bool).

Fixpoint dict_get (d : list (K * V)) (k : K) : option V :=
  match d with
  | [] => None
  | (k', v) :: rest => if eqb k' k then Some v else dict_get rest k
  end.

(** [d[k] = v]: an existing key keeps its place, a new one goes last. *)
Fixpoint dict_set (d : list (K * V)) (k : K) (v : V) : list (K * V) :=
  match d with
  | [] => [(k, v)]
  | (k', v') :: rest =>
      if eqb k' k then (k', v) :: rest else (k', v') :: dict_set rest k v
  end.

Definition dict_mem (d : list (K * V)) (k : K) : bool :=
  match dict_get d k with Some _ => true | None => false end.

End Dict.

End py.

Export py.

Declare Scope result_scope.
Delimit Scope result_scope with result.
Notation "x <- e ;; k" := (bind e (fun x => k))
  (at level 61, e at next level, right associativity) : result_scope.
Notation "' pat <- e ;; k" := (bind e (fun x => match x with pat => k end))
  (at level 61, pat pattern, e at next level, right associativity) : result_scope.
Local Open Scope result_scope.

(** ** numpy arrays, as far as the code uses them *)

Module np.

(** An [ndarray] of integers: its shape and its cells in C order (the order
    [ravel] reads them in).  [dtype=int] cells are 64-bit; every cell the
    code writes is a palette index or a decoded length, far below 2^63, so
    the cells are [Z]. *)
Record ndarray : Type := { shape : list Z; data : list Z }.

Definition size_of (shape : list Z) : Z := fold_right Z.mul 1 shape.

(** [np.zeros(shape, dtype=int)] *)
Definition zeros (shape : list Z) : ndarray :=
  {| shape := shape; data := repeat 0 (Z.to_nat (size_of shape)) |}.

(** [np.array(numbers)] for a flat list *)
Definition array (numbers : list Z) : ndarray :=
  {| shape := [len numbers]; data := numbers |}.

(** [a.ravel()] *)
Definition ravel (a : ndarray) : list Z := data a.

(** [a.reshape(shape)]: the sizes must agree. *)
Definition reshape (a : ndarray) (new_shape : list Z) : result ndarray :=
  if size_of new_shape =? len (data a)
  then Ok {| shape := new_shape; data := data a |}
  else Raise (ValueError "cannot reshape array").

(** One index against one axis: negative indices wrap once. *)
Definition axis_index (index size : Z) : result Z :=
  let i := if index <? 0 then index + size else index in
  if (0 <=? i) && (i <? size) then Ok i else Raise IndexError.

(** The flat position of [a[i, j, k]] in a three-dimensional array. *)
Definition position (a : ndarray) (i j k : Z) : result Z :=
  match shape a with
  | [d0; d1; d2] =>
      i' <- axis_index i d0 ;;
      j' <- axis_index j d1 ;;
      k' <- axis_index k d2 ;;
      Ok ((i' * d1 + j') * d2 + k')
  | _ => Raise IndexError
  end.

(** [a[i, j, k]] *)
Definition getitem (a : ndarray) (i j k : Z) : result Z :=
  p <- position a i j k ;;
  list_getitem (data a) p.

Fixpoint replace_nth (n : nat) (l : list Z) (v : Z) : list Z :=
  match l, n with
  | [], _ => []
  | _ :: rest, O => v :: rest
  | x :: rest, S n' => x :: replace_nth n' rest v
  end.

(** [a[i, j, k] = v] *)
Definition setitem (a : ndarray) (i j k : Z) (v : Z) : result ndarray :=
  p <- position a i j k ;;
  Ok {| shape := shape a; data := replace_nth (Z.to_nat p) (data a) v |}.

End np.

(** ** schempy/utils.py *)

Module utils.

(** [to_unsigned_short(value)] *)
Definition to_unsigned_short (value : Z) : result Z :=
  if negb ((0 <=? value) && (value <=? 65535))
  then Raise (ValueError "Value must be between 0 and 65535.")
  else Ok value.

(** [from_unsigned_short(value)]: [value & 0xFFFF] *)
Definition from_unsigned_short (value : Z) : Z := Z.land value 65535.

(** The [while True] loop of [encode_varint], one iteration per unit of
    fuel; [None] when the fuel runs out before the [break]. *)
Fixpoint encode_varint_loop (fuel : nat) (value : Z) (varint : list Z)
  : option (list Z) :=
  match fuel with
  | O => None
  | S fuel' =>
      let byte := Z.land value 127 in
      let value := Z.shiftr value 7 in
      if negb (value =? 0)
      then encode_varint_loop fuel' value (varint ++ [Z.lor byte 128])
      else Some (varint ++ [byte])
  end.

(** [encode_varint(value)].  The loop runs once per 7 bits of a
    non-negative value, so one iteration per bit is enough fuel
    ([encode_varint_loop_total]); on a negative value [value >>= 7] never
    reaches 0 and the loop does not end ([encode_varint_loop_negative]). *)
Definition encode_varint (value : Z) : result (list Z) :=
  match encode_varint_loop (S (Z.to_nat (Z.log2 value))) value [] with
  | Some varint => Ok varint
  | None => Diverges
  end.

(** The [for byte in byte_array] loop of [decode_varint], with its three
    local variables. *)
Fixpoint decode_varint_loop (byte_array : list Z) (numbers : list Z)
  (current bit_offset : Z) : list Z :=
  match byte_array with
  | [] => numbers
  | byte :: rest =>
      let has_next := negb (Z.land byte 128 =? 0) in
      let current := Z.lor current (Z.shiftl (Z.land byte 127) bit_offset) in
      let bit_offset := bit_offset + 7 in
      if negb has_next
      then decode_varint_loop rest (numbers ++ [current]) 0 0
      else decode_varint_loop rest numbers current bit_offset
  end.

(** [decode_varint(byte_array)]: the function has no [raise]; whatever is
    left in [current] when the bytes run out is dropped. *)
Definition decode_varint (byte_array : list Z) : result (list Z) :=
  Ok (decode_varint_loop byte_array [] 0 0).

(** The [for number in flat_array] loop of
    [numpy_array_to_varint_bytearray]. *)
Fixpoint extend_encoded (flat_array : list Z) (varint_encoded : list Z)
  : result (list Z) :=
  match flat_array with
  | [] => Ok varint_encoded
  | number :: rest =>
      varint <- encode_varint number ;;
      extend_encoded rest (varint_encoded ++ varint)
  end.

(** [numpy_array_to_varint_bytearray(array)] *)
Definition numpy_array_to_varint_bytearray (array : np.ndarray)
  : result (list Z) :=
  extend_encoded (np.ravel array) [].

(** [varint_bytearray_to_numpy_array(byte_array, shape)] *)
Definition varint_bytearray_to_numpy_array (byte_array : list Z)
  (shape : list Z) : result np.ndarray :=
  decoded_numbers <- decode_varint byte_array ;;
  np.reshape (np.array decoded_numbers) shape.

End utils.

(** ** Tagged trees: the values the external tree library reads and writes *)

Module nbt.

(** The tag kinds the two layouts use.  Numeric payloads are kept as [Z]
    (the tags' widths are the library's business), a [ByteArray] holds
    byte values in [0, 255] as they were written.  Floating-point tags do
    not occur in either layout and are left out. *)
#[warnings="-register-all"]
Inductive tag : Type :=
| Byte (n : Z)
| Short (n : Z)
| Int (n : Z)
| Long (n : Z)
| String (s : string)
| ByteArray (bytes : list Z)
| IntArray (ints : list Z)
| List (items : list tag)
| Compound (fields : list (string * tag)).

(** A [Compound]'s fields; a loaded [File] is one. *)
Definition compound : Type := list (string * tag).

(** [c.get(key)] on a compound *)
Definition get (c : compound) (key : string) : option tag :=
  dict_get String.eqb c key.

(** [key in c] *)
Definition mem (c : compound) (key : string) : bool :=
  dict_mem String.eqb c key.

(** [c[key]] on a compound *)
Definition getitem (c : compound) (key : string) : result tag :=
  match get c key with
  | Some v => Ok v
  | None => Raise (KeyError key)
  end.

(** [v.get(key)] on any tag: only a compound has the method. *)
Definition tag_get (v : tag) (key : string) : result (option tag) :=
  match v with
  | Compound fields => Ok (get fields key)
  | _ => Raise (AttributeError "get")
  end.

(** The numeric tags are subclasses of [int]. *)
Definition as_int (v : tag) : option Z :=
  match v with
  | Byte n | Short n | Int n | Long n => Some n
  | _ => None
  end.

(** [v == k] for an integer literal [k], as the condition of an [if]:
    numeric tags compare by value; a string, list or compound is not equal
    to an integer; an array compares cell by cell and has a truth value
    only when it has one cell. *)
Definition eq_int (v : tag) (k : Z) : result bool :=
  match v with
  | Byte n | Short n | Int n | Long n => Ok (n =? k)
  | String _ | List _ | Compound _ => Ok false
  | ByteArray [n] | IntArray [n] => Ok (n =? k)
  | ByteArray _ | IntArray _ =>
      Raise (ValueError "The truth value of an array is ambiguous.")
  end.

End nbt.

(** ** schempy/schematic.py: Block, BlockEntity, Palette *)

(** [d1 == d2] for two [Dict[str, str]]: the same keys with the same
    values, in any order. *)
Definition str_dict_eqb (d1 d2 : list (string * string)) : bool :=
  Nat.eqb (List.length d1) (List.length d2)
  && forallb (fun '(k, v) =>
                match dict_get String.eqb d2 k with
                | Some v' => String.eqb v v'
                | None => false
                end) d1.

(** [a <= b] for two items of a [Dict[str, str]], as [sorted] compares
    them: tuples compare component by component, strings by code
    point. *)
Definition item_leb (a b : string * string) : bool :=
  match String.compare (fst a) (fst b) with
  | Lt => true
  | Eq => String.leb (snd a) (snd b)
  | Gt => false
  end.

Fixpoint insert_item (item : string * string) (items : list (string * string))
  : list (string * string) :=
  match items with
  | [] => [item]
  | next :: rest =>
      if item_leb item next then item :: items
      else next :: insert_item item rest
  end.

(** [sorted(d.items())]: the sort is stable, and two items that compare
    equal are the same item. *)
Definition sorted (items : list (string * string)) : list (string * string) :=
  fold_right insert_item [] items.

Module Block.

(** [@dataclass(frozen=True) class Block] *)
Record t : Type := { id : string; properties : option (list (string * string)) }.

(** [__eq__]: [self.id == other.id and self.properties == other.properties] *)
Definition eqb (self other : t) : bool :=
  String.eqb (id self) (id other)
  && match properties self, properties other with
     | None, None => true
     | Some d1, Some d2 => str_dict_eqb d1 d2
     | _, _ => false
     end.

(** [__hash__]: [hash] of the id paired with the sorted items, or with
    [()] when the properties are [None] or empty.  [hash] is the
    interpreter's: a function of the tuple's value. *)
Definition __hash__ (hash : string * list (string * string) -> Z) (self : t)
  : Z :=
  let properties_items :=
    match properties self with
    | Some ((_ :: _) as items) => sorted items
    | _ => []
    end in
  hash (id self, properties_items).

(** [__str__] *)
Definition str (self : t) : string :=
  let properties_str :=
    match properties self with
    | Some ((_ :: _) as items) =>
        join "," (map (fun '(key, value) =>
                         String.append key (String.append "=" value)) items)
    | _ => EmptyString
    end in
  match properties_str with
  | EmptyString => id self
  | _ => String.append (id self)
           (String.append "[" (String.append properties_str "]"))
  end.

End Block.

Module BlockEntity.

(** [@dataclass(frozen=True) class BlockEntity]; [properties] defaults to
    [None]. *)
Record t : Type := {
  id : string;
  x : Z;
  y : Z;
  z : Z;
  properties : option (list (string * string))
}.

End BlockEntity.

Module Palette.

Record t : Type := {
  _block_to_index : list (Block.t * Z);
  _index_to_block : list Block.t
}.

(** [__init__] *)
Definition init : t := {| _block_to_index := []; _index_to_block := [] |}.

(** [a, b = pieces] *)
Definition unpack2 (pieces : list string) : result (string * string) :=
  match pieces with
  | [a; b] => Ok (a, b)
  | [] => Raise (ValueError "not enough values to unpack (expected 2, got 0)")
  | [_] => Raise (ValueError "not enough values to unpack (expected 2, got 1)")
  | _ => Raise (ValueError "too many values to unpack (expected 2)")
  end.

(** The inner loop of [set_palette]:
    [for property_str in properties_str.split(',')]. *)
Fixpoint parse_properties (pieces : list string)
  (properties : list (string * string)) : result (list (string * string)) :=
  match pieces with
  | [] => Ok properties
  | property_str :: rest =>
      '(key, value) <- unpack2 (split "=" property_str) ;;
      parse_properties rest (dict_set String.eqb properties key value)
  end.

(** The body of the outer loop of [set_palette] up to [block = ...]: the
    palette's parser of canonical strings. *)
Definition parse_block (block_str : string) : result Block.t :=
  if contains "[" block_str then
    '(id, properties_str) <- unpack2 (split "[" block_str) ;;
    let properties_str := drop_last properties_str in
    properties <- parse_properties (split "," properties_str) [] ;;
    Ok {| Block.id := id; Block.properties := Some properties |}
  else Ok {| Block.id := block_str; Block.properties := None |}.

(** [set_palette(palette)]: one iteration per item, in the dict's order. *)
Fixpoint set_palette (self : t) (palette : list (string * Z)) : result t :=
  match palette with
  | [] => Ok self
  | (block_str, index) :: rest =>
      block <- parse_block block_str ;;
      set_palette
        {| _block_to_index := dict_set Block.eqb (_block_to_index self) block index;
           _index_to_block := _index_to_block self ++ [block] |}
        rest
  end.

(** [get_palette()]: a dict comprehension over [_block_to_index]. *)
Definition get_palette (self : t) : list (string * Z) :=
  fold_left (fun palette '(block, index) =>
               dict_set String.eqb palette (Block.str block) index)
            (_block_to_index self) [].

(** [get_id(block)]: the index, and the palette as the call leaves it. *)
Definition get_id (self : t) (block : Block.t) : result (Z * t) :=
  let self :=
    if negb (dict_mem Block.eqb (_block_to_index self) block)
    then {| _block_to_index :=
              dict_set Block.eqb (_block_to_index self) block
                       (len (_index_to_block self));
            _index_to_block := _index_to_block self ++ [block] |}
    else self in
  match dict_get Block.eqb (_block_to_index self) block with
  | Some index => Ok (index, self)
  | None => Raise (KeyError (Block.str block))
  end.

(** [get_block(index)] *)
Definition get_block (self : t) (index : Z) : result Block.t :=
  list_getitem (_index_to_block self) index.

End Palette.

Local Open Scope string_scope.
Local Open Scope list_scope.
Local Open Scope Z_scope.
Local Open Scope result_scope.

(** ** What the module imports and the sources do not hold *)

(** [schempy.constants] is not among the sources: its two constants are
    parameters of everything that constructs a schematic. *)
Class constants : Type := {
  DATA_VERSION : Z;
  MINECRAFT_AIR : string
}.

(** What the interpreter and the tree library supply: the clock reading of
    [datetime.now()], as the integer [nbtlib.Long(date.timestamp() * 1000)]
    makes of it, and Python's [str()] of a tag that is no string. *)
Class runtime : Type := {
  now : Z;
  str_of_tag : nbt.tag -> string
}.

(** [nbtlib.String(value)]: a [str] (or a String tag, which is one) keeps
    its text; anything else goes through [str()]. *)
Definition nbtlib_String {rt : runtime} (value : nbt.tag) : nbt.tag :=
  match value with
  | nbt.String s => nbt.String s
  | other => nbt.String (str_of_tag other)
  end.

(** Modelled from the spec: [schempy.schema.v2.SpongeV2] is not among the
    sources.  Section 4.4 makes it the typed view of a tree with the
    top-level fields Version, DataVersion, Metadata, Width, Height, Length,
    Offset, PaletteMax, Palette, BlockData, BlockEntities, Entities,
    BiomePaletteMax, BiomePalette and BiomeData; the view is the tree
    itself, and the conversions below stand for its casts. *)
Definition SpongeV2 (fields : nbt.compound) : nbt.compound := fields.

(** Modelled from the spec: [schempy.schema.v3.SpongeV3] is not among the
    sources.  Section 4.5 makes it the typed view of a tree whose fields
    are nested under the root key Schematic; the view is the tree itself. *)
Definition SpongeV3 (fields : nbt.compound) : nbt.compound := fields.

(** The casts of the typed views: a field of another type than the layout
    gives it is refused by the view ([TypeError] stands for the library's
    cast error). *)
Definition int_of (v : nbt.tag) : result Z :=
  match nbt.as_int v with
  | Some n => Ok n
  | None => Raise TypeError
  end.

Fixpoint all_ints (items : list nbt.tag) : result (list Z) :=
  match items with
  | [] => Ok []
  | v :: rest => n <- int_of v ;; ns <- all_ints rest ;; Ok (n :: ns)
  end.

Definition ints_of (v : nbt.tag) : result (list Z) :=
  match v with
  | nbt.IntArray ns | nbt.ByteArray ns => Ok ns
  | nbt.List items => all_ints items
  | _ => Raise TypeError
  end.

Definition fields_of (v : nbt.tag) : result nbt.compound :=
  match v with
  | nbt.Compound fields => Ok fields
  | _ => Raise TypeError
  end.

Definition items_of (v : nbt.tag) : result (list nbt.tag) :=
  match v with
  | nbt.List items => Ok items
  | _ => Raise TypeError
  end.

Fixpoint palette_of_fields (fields : nbt.compound) : result (list (string * Z)) :=
  match fields with
  | [] => Ok []
  | (key, v) :: rest =>
      index <- int_of v ;;
      palette <- palette_of_fields rest ;;
      Ok ((key, index) :: palette)
  end.

Definition palette_of (v : nbt.tag) : result (list (string * Z)) :=
  fields <- fields_of v ;; palette_of_fields fields.

(** [{key: nbtlib.Int(value) for key, value in palette.items()}] *)
Definition int_fields (palette : list (string * Z)) : nbt.compound :=
  map (fun '(key, value) => (key, nbt.Int value)) palette.

(** [{key: nbtlib.String(value) for key, value in properties.items()}] *)
Definition string_fields (properties : list (string * string)) : nbt.compound :=
  map (fun '(key, value) => (key, nbt.String value)) properties.

(** [pathlib.Path], as far as the code looks at it, and the files the tree
    library has written: [nbtlib.File(data).save(path, gzipped=True)]
    followed by [nbtlib.load(path)] gives back [data]. *)
Record Path : Type := { parent : string; stem : string; suffix : string }.

Definition Path_eqb (p q : Path) : bool :=
  String.eqb (parent p) (parent q)
  && String.eqb (stem p) (stem q)
  && String.eqb (suffix p) (suffix q).

Record filesystem : Type := {
  directories : list string;
  files : list (Path * nbt.compound)
}.

Definition parent_exists (fs : filesystem) (p : Path) : bool :=
  existsb (String.eqb (parent p)) (directories fs).

Definition nbtlib_save (fs : filesystem) (p : Path) (data : nbt.compound)
  : filesystem :=
  {| directories := directories fs;
     files := dict_set Path_eqb (files fs) p data |}.

Definition nbtlib_load (fs : filesystem) (p : Path) : option nbt.compound :=
  dict_get Path_eqb (files fs) p.

(** ** schempy/schematic.py: Schematic *)

Module Schematic.

(** The attributes [__init__] sets, in its order, and then the three that
    [_save_to_file_v2] reads although no method ever assigns them:
    [None] is an attribute the object does not have. *)
Record t : Type := {
  _width : Z;
  _height : Z;
  _length : Z;
  offset : list Z;
  data_version : Z;
  name : string;
  author : string;
  date : Z;
  required_mods : list string;
  metadata : nbt.compound;
  _block_palette : Palette.t;
  _block_data : np.ndarray;
  _block_entities : list BlockEntity.t;
  _biome_palette : Palette.t;
  _biome_data : np.ndarray;
  _entities : list nbt.tag;
  _data_version : option Z;
  _metadata : option nbt.compound;
  _offset : option (list Z)
}.

(** Attribute assignments, [self.attr = value]. *)
Definition set_offset (self : t) (value : list Z) : t :=
  {| _width := _width self; _height := _height self; _length := _length self;
     offset := value; data_version := data_version self;
     name := name self; author := author self; date := date self;
     required_mods := required_mods self; metadata := metadata self;
     _block_palette := _block_palette self; _block_data := _block_data self;
     _block_entities := _block_entities self;
     _biome_palette := _biome_palette self; _biome_data := _biome_data self;
     _entities := _entities self; _data_version := _data_version self;
     _metadata := _metadata self; _offset := _offset self |}.

Definition set_data_version (self : t) (value : Z) : t :=
  {| _width := _width self; _height := _height self; _length := _length self;
     offset := offset self; data_version := value;
     name := name self; author := author self; date := date self;
     required_mods := required_mods self; metadata := metadata self;
     _block_palette := _block_palette self; _block_data := _block_data self;
     _block_entities := _block_entities self;
     _biome_palette := _biome_palette self; _biome_data := _biome_data self;
     _entities := _entities self; _data_version := _data_version self;
     _metadata := _metadata self; _offset := _offset self |}.

Definition set_metadata (self : t) (value : nbt.compound) : t :=
  {| _width := _width self; _height := _height self; _length := _length self;
     offset := offset self; data_version := data_version self;
     name := name self; author := author self; date := date self;
     required_mods := required_mods self; metadata := value;
     _block_palette := _block_palette self; _block_data := _block_data self;
     _block_entities := _block_entities self;
     _biome_palette := _biome_palette self; _biome_data := _biome_data self;
     _entities := _entities self; _data_version := _data_version self;
     _metadata := _metadata self; _offset := _offset self |}.

Definition set__block_palette (self : t) (value : Palette.t) : t :=
  {| _width := _width self; _height := _height self; _length := _length self;
     offset := offset self; data_version := data_version self;
     name := name self; author := author self; date := date self;
     required_mods := required_mods self; metadata := metadata self;
     _block_palette := value; _block_data := _block_data self;
     _block_entities := _block_entities self;
     _biome_palette := _biome_palette self; _biome_data := _biome_data self;
     _entities := _entities self; _data_version := _data_version self;
     _metadata := _metadata self; _offset := _offset self |}.

Definition set__block_data (self : t) (value : np.ndarray) : t :=
  {| _width := _width self; _height := _height self; _length := _length self;
     offset := offset self; data_version := data_version self;
     name := name self; author := author self; date := date self;
     required_mods := required_mods self; metadata := metadata self;
     _block_palette := _block_palette self; _block_data := value;
     _block_entities := _block_entities self;
     _biome_palette := _biome_palette self; _biome_data := _biome_data self;
     _entities := _entities self; _data_version := _data_version self;
     _metadata := _metadata self; _offset := _offset self |}.

Definition set__block_entities (self : t) (value : list BlockEntity.t) : t :=
  {| _width := _width self; _height := _height self; _length := _length self;
     offset := offset self; data_version := data_version self;
     name := name self; author := author self; date := date self;
     required_mods := required_mods self; metadata := metadata self;
     _block_palette := _block_palette self; _block_data := _block_data self;
     _block_entities := value;
     _biome_palette := _biome_palette self; _biome_data := _biome_data self;
     _entities := _entities self; _data_version := _data_version self;
     _metadata := _metadata self; _offset := _offset self |}.

Definition set__biome_data (self : t) (value : np.ndarray) : t :=
  {| _width := _width self; _height := _height self; _length := _length self;
     offset := offset self; data_version := data_version self;
     name := name self; author := author self; date := date self;
     required_mods := required_mods self; metadata := metadata self;
     _block_palette := _block_palette self; _block_data := _block_data self;
     _block_entities := _block_entities self;
     _biome_palette := _biome_palette self; _biome_data := value;
     _entities := _entities self; _data_version := _data_version self;
     _metadata := _metadata self; _offset := _offset self |}.

Definition set__entities (self : t) (value : list nbt.tag) : t :=
  {| _width := _width self; _height := _height self; _length := _length self;
     offset := offset self; data_version := data_version self;
     name := name self; author := author self; date := date self;
     required_mods := required_mods self; metadata := metadata self;
     _block_palette := _block_palette self; _block_data := _block_data self;
     _block_entities := _block_entities self;
     _biome_palette := _biome_palette self; _biome_data := _biome_data self;
     _entities := value; _data_version := _data_version self;
     _metadata := _metadata self; _offset := _offset self |}.

(** [self.attr] for an attribute the object may not have. *)
Definition getattr {A : Type} (attr : string) (value : option A) : result A :=
  match value with
  | Some v => Ok v
  | None => Raise (AttributeError attr)
  end.

Section Methods.
Context {consts : constants} {rt : runtime}.

(** [Schematic(width, height, length)] *)
Definition init (width height length : Z) : result t :=
  width <- utils.to_unsigned_short width ;;
  height <- utils.to_unsigned_short height ;;
  length <- utils.to_unsigned_short length ;;
  '(_, block_palette) <-
    Palette.get_id Palette.init
      {| Block.id := MINECRAFT_AIR; Block.properties := None |} ;;
  Ok {| _width := width; _height := height; _length := length;
        offset := [0; 0; 0];
        data_version := DATA_VERSION;
        name := "My Schematic";
        author := "SchemPy";
        date := now;
        required_mods := [];
        metadata := [];
        _block_palette := block_palette;
        _block_data := np.zeros [length; height; width];
        _block_entities := [];
        _biome_palette := Palette.init;
        _biome_data := np.zeros [length; height; width];
        _entities := [];
        _data_version := None;
        _metadata := None;
        _offset := None |}.

(** [_check_coordinates(x, y, z)] *)
Definition _check_coordinates (self : t) (x y z : Z) : result unit :=
  if negb (((0 <=? x) && (x <? _width self))
           && ((0 <=? y) && (y <? _height self))
           && ((0 <=? z) && (z <? _length self)))
  then Raise (ValueError "Coordinates out of range.")
  else Ok tt.

(** [get_block(x, y, z)] *)
Definition get_block (self : t) (x y z : Z) : result Block.t :=
  _ <- _check_coordinates self x y z ;;
  index <- np.getitem (_block_data self) x y z ;;
  Palette.get_block (_block_palette self) index.

(** [set_block(x, y, z, block)]: the right-hand side [get_id(block)] runs
    before the cell is assigned. *)
Definition set_block (self : t) (x y z : Z) (block : Block.t) : result t :=
  _ <- _check_coordinates self x y z ;;
  '(index, block_palette) <- Palette.get_id (_block_palette self) block ;;
  let self := set__block_palette self block_palette in
  block_data <- np.setitem (_block_data self) x y z index ;;
  Ok (set__block_data self block_data).

(** [add_block_entity(block_entity)] *)
Definition add_block_entity (self : t) (block_entity : BlockEntity.t)
  : result t :=
  _ <- _check_coordinates self (BlockEntity.x block_entity)
         (BlockEntity.y block_entity) (BlockEntity.z block_entity) ;;
  Ok (set__block_entities self (_block_entities self ++ [block_entity])).

(** [_prepare_metadata()]: the comprehension, then [update] with the four
    fixed keys. *)
Definition _prepare_metadata (self : t) : nbt.compound :=
  let metadata :=
    fold_left (fun metadata '(key, value) =>
                 dict_set String.eqb metadata key (nbtlib_String value))
              (metadata self) [] in
  let metadata := dict_set String.eqb metadata "Name" (nbt.String (name self)) in
  let metadata := dict_set String.eqb metadata "Author" (nbt.String (author self)) in
  let metadata := dict_set String.eqb metadata "Date" (nbt.Long (date self)) in
  dict_set String.eqb metadata "RequiredMods"
           (nbt.List (map nbt.String (required_mods self))).

(** [_save_to_file_v1()] *)
Definition _save_to_file_v1 (self : t) : result nbt.compound :=
  Raise (NotImplementedError "Version 1 schematics are not supported.").

(** [_save_to_file_v2()]: the keyword arguments are evaluated in the order
    they are written, before [SpongeV2] is called. *)
Definition _save_to_file_v2 (self : t) : result nbt.compound :=
  let Version := nbt.Int 2 in
  DataVersion <- getattr "_data_version" (_data_version self) ;;
  metadata <- getattr "_metadata" (_metadata self) ;;
  let Metadata :=
    fold_left (fun m '(key, value) =>
                 dict_set String.eqb m key (nbtlib_String value)) metadata [] in
  Offset <- getattr "_offset" (_offset self) ;;
  let PaletteMax := len (Palette.get_palette (_block_palette self)) in
  let Palette := int_fields (Palette.get_palette (_block_palette self)) in
  BlockData <-
    np.reshape (_block_data self)
               [_length self * _height self * _width self; 1] ;;
  let BiomePaletteMax := len (Palette.get_palette (_block_palette self)) in
  let BiomePalette := int_fields (Palette.get_palette (_block_palette self)) in
  BiomeData <-
    np.reshape (_biome_data self)
               [_length self * _height self * _width self; 1] ;;
  Ok (SpongeV2
        [("Version", Version);
         ("DataVersion", nbt.Int DataVersion);
         ("Metadata", nbt.Compound Metadata);
         ("Width", nbt.Short (_width self));
         ("Height", nbt.Short (_height self));
         ("Length", nbt.Short (_length self));
         ("Offset", nbt.IntArray Offset);
         ("PaletteMax", nbt.Int PaletteMax);
         ("Palette", nbt.Compound Palette);
         ("BlockData", nbt.ByteArray (np.ravel BlockData));
         ("BlockEntities", nbt.List []);
         ("Entities", nbt.List []);
         ("BiomePaletteMax", nbt.Int BiomePaletteMax);
         ("BiomePalette", nbt.Compound BiomePalette);
         ("BiomeData", nbt.ByteArray (np.ravel BiomeData))]).

(** The list comprehension over [self._block_entities] in
    [_save_to_file_v3]; [entity.properties.items()] needs a dict. *)
Fixpoint block_entity_tags (entities : list BlockEntity.t)
  : result (list nbt.tag) :=
  match entities with
  | [] => Ok []
  | entity :: rest =>
      properties <- match BlockEntity.properties entity with
                    | Some properties => Ok properties
                    | None => Raise (AttributeError "items")
                    end ;;
      tags <- block_entity_tags rest ;;
      Ok (nbt.Compound
            [("Pos", nbt.IntArray [BlockEntity.x entity; BlockEntity.y entity;
                                   BlockEntity.z entity]);
             ("Id", nbt.String (BlockEntity.id entity));
             ("Data", nbt.Compound (string_fields properties))] :: tags)
  end.

(** [_save_to_file_v3()] *)
Definition _save_to_file_v3 (self : t) : result nbt.compound :=
  let metadata := _prepare_metadata self in
  let block_palette := int_fields (Palette.get_palette (_block_palette self)) in
  block_data <- utils.numpy_array_to_varint_bytearray (_block_data self) ;;
  block_entities <- block_entity_tags (_block_entities self) ;;
  let biome_palette := int_fields (Palette.get_palette (_biome_palette self)) in
  biome_data <- utils.numpy_array_to_varint_bytearray (_biome_data self) ;;
  let entities : list nbt.tag := [] in
  let schematic :=
    [("Version", nbt.Int 3);
     ("DataVersion", nbt.Int (data_version self));
     ("Metadata", nbt.Compound metadata);
     ("Width", nbt.Short (_width self));
     ("Height", nbt.Short (_height self));
     ("Length", nbt.Short (_length self));
     ("Offset", nbt.IntArray (offset self));
     ("Blocks", nbt.Compound
        [("Palette", nbt.Compound block_palette);
         ("Data", nbt.ByteArray block_data);
         ("BlockEntities", nbt.List block_entities)])] in
  let schematic :=
    if 0 <? len biome_palette
    then dict_set String.eqb schematic "Biomes"
           (nbt.Compound [("Palette", nbt.Compound biome_palette);
                          ("Data", nbt.ByteArray biome_data)])
    else schematic in
  let schematic :=
    if 0 <? len entities
    then dict_set String.eqb schematic "Entities" (nbt.List entities)
    else schematic in
  Ok (SpongeV3 [("Schematic", nbt.Compound schematic)]).

(** [save_to_file(file_path, version)], on the files written so far. *)
Definition save_to_file (self : t) (file_path : Path) (version : Z)
  (fs : filesystem) : result filesystem :=
  if negb (parent_exists fs file_path) then Raise FileNotFoundError
  else if negb (String.eqb (suffix file_path) ".schem")
  then Raise (ValueError "Invalid file extension. Please use '.schem' extension.")
  else
    data <- (if version =? 1 then _save_to_file_v1 self
             else if version =? 2 then _save_to_file_v2 self
             else if version =? 3 then _save_to_file_v3 self
             else Raise (ValueError "Invalid schematic version.")) ;;
    Ok (nbtlib_save fs file_path data).

(** [except KeyError: raise ValueError("Invalid schematic file.")] *)
Definition except_KeyError {A : Type} (body : result A) : result A :=
  match body with
  | Raise (KeyError _) => Raise (ValueError "Invalid schematic file.")
  | other => other
  end.

(** [utils.from_unsigned_short(data[key])] *)
Definition dimension (data : nbt.compound) (key : string) : result Z :=
  v <- nbt.getitem data key ;;
  n <- int_of v ;;
  Ok (utils.from_unsigned_short n).

(** The [try] block both parsers share: the required fields. *)
Definition required_fields (data : nbt.compound) : result t :=
  except_KeyError
    (width <- dimension data "Width" ;;
     height <- dimension data "Height" ;;
     length <- dimension data "Length" ;;
     schematic <- init width height length ;;
     offset <- (v <- nbt.getitem data "Offset" ;; ints_of v) ;;
     let schematic := set_offset schematic offset in
     data_version <- (v <- nbt.getitem data "DataVersion" ;; int_of v) ;;
     Ok (set_data_version schematic data_version)).

(** [if 'Metadata' in data: schematic.metadata = data['Metadata']] *)
Definition optional_metadata (data : nbt.compound) (schematic : t) : result t :=
  if nbt.mem data "Metadata"
  then v <- nbt.getitem data "Metadata" ;;
       metadata <- fields_of v ;;
       Ok (set_metadata schematic metadata)
  else Ok schematic.

(** [_parse_file_v1(file)] *)
Definition _parse_file_v1 (file : nbt.compound) : result t :=
  Raise (NotImplementedError "Version 1 schematics are not supported.").

(** [_parse_file_v2(file)] *)
Definition _parse_file_v2 (file : nbt.compound) : result t :=
  let data := SpongeV2 file in
  schematic <- required_fields data ;;
  schematic <- optional_metadata data schematic ;;
  let shape := [_length schematic; _height schematic; _width schematic] in
  schematic <-
    (if nbt.mem data "Palette"
     then palette <- (v <- nbt.getitem data "Palette" ;; palette_of v) ;;
          block_palette <- Palette.set_palette (_block_palette schematic) palette ;;
          Ok (set__block_palette schematic block_palette)
     else Ok schematic) ;;
  schematic <-
    (if nbt.mem data "BlockData"
     then bytes <- (v <- nbt.getitem data "BlockData" ;; ints_of v) ;;
          block_data <- utils.varint_bytearray_to_numpy_array bytes shape ;;
          Ok (set__block_data schematic block_data)
     else Ok schematic) ;;
  (if nbt.mem data "BiomeData"
   then bytes <- (v <- nbt.getitem data "BiomeData" ;; ints_of v) ;;
        biome_data <- utils.varint_bytearray_to_numpy_array bytes shape ;;
        Ok (set__biome_data schematic biome_data)
   else Ok schematic).

(** [_parse_file_v3(file)].  The [Biomes] branch loads its palette into
    [_block_palette], as the source has it; no branch reads
    [BlockEntities]. *)
Definition _parse_file_v3 (file : nbt.compound) : result t :=
  data <- (v <- nbt.getitem (SpongeV3 file) "Schematic" ;; fields_of v) ;;
  schematic <- required_fields data ;;
  schematic <- optional_metadata data schematic ;;
  let shape := [_length schematic; _height schematic; _width schematic] in
  schematic <-
    (if nbt.mem data "Blocks"
     then blocks <- (v <- nbt.getitem data "Blocks" ;; fields_of v) ;;
          palette <- (v <- nbt.getitem blocks "Palette" ;; palette_of v) ;;
          block_palette <- Palette.set_palette (_block_palette schematic) palette ;;
          let schematic := set__block_palette schematic block_palette in
          bytes <- (v <- nbt.getitem blocks "Data" ;; ints_of v) ;;
          block_data <- utils.varint_bytearray_to_numpy_array bytes shape ;;
          Ok (set__block_data schematic block_data)
     else Ok schematic) ;;
  schematic <-
    (if nbt.mem data "Biomes"
     then biomes <- (v <- nbt.getitem data "Biomes" ;; fields_of v) ;;
          palette <- (v <- nbt.getitem biomes "Palette" ;; palette_of v) ;;
          block_palette <- Palette.set_palette (_block_palette schematic) palette ;;
          let schematic := set__block_palette schematic block_palette in
          bytes <- (v <- nbt.getitem biomes "Data" ;; ints_of v) ;;
          biome_data <- utils.varint_bytearray_to_numpy_array bytes shape ;;
          Ok (set__biome_data schematic biome_data)
     else Ok schematic) ;;
  (if nbt.mem data "Entities"
   then entities <- (v <- nbt.getitem data "Entities" ;; items_of v) ;;
        Ok (set__entities schematic entities)
   else Ok schematic).

(** The version sniff of [_parse_file]: the top-level [Version], else the
    one under [Schematic]. *)
Definition find_version (file : nbt.compound) : result (option nbt.tag) :=
  match nbt.get file "Version" with
  | Some version => Ok (Some version)
  | None =>
      match nbt.get file "Schematic" with
      | Some schematic_data => nbt.tag_get schematic_data "Version"
      | None => Ok None
      end
  end.

(** [_parse_file(file)] *)
Definition _parse_file (file : nbt.compound) : result t :=
  version <- find_version file ;;
  match version with
  | None => Raise (ValueError "Invalid schematic file: Version not found.")
  | Some version =>
      is_1 <- nbt.eq_int version 1 ;;
      if is_1 then _parse_file_v1 file else
      is_2 <- nbt.eq_int version 2 ;;
      if is_2 then _parse_file_v2 file else
      is_3 <- nbt.eq_int version 3 ;;
      if is_3 then _parse_file_v3 file else
      Raise (ValueError "Invalid schematic version.")
  end.

(** [from_file(file_path)], on the files written so far. *)
Definition from_file (file_path : Path) (fs : filesystem) : result t :=
  match nbtlib_load fs file_path with
  | None => Raise FileNotFoundError
  | Some file =>
      if negb (String.eqb (suffix file_path) ".schem")
      then Raise (ValueError "Invalid file extension. Please use '.schem' extension.")
      else _parse_file file
  end.

End Methods.

End Schematic.

(** ** schempy/serializer.py *)

Module serializer.

(** The four saver classes; an instance holds the schematic it was made
    for. *)
Inductive saver_class : Type :=
| SchematicSaver
| Version1Saver
| Version2Saver
| Version3Saver.

Record saver : Type := { class_of : saver_class; schematic : Schematic.t }.

(** [saver.save(file_path)], on the files written so far: the method of
    the instance's class.  [Version3Saver.save] is [pass]. *)
Definition save (self : saver) (file_path : Path) (fs : filesystem)
  : result filesystem :=
  match class_of self with
  | SchematicSaver =>
      Raise (NotImplementedError
               "This method should be implemented by subclasses.")
  | Version1Saver =>
      Raise (NotImplementedError
               "Saving for Version 1 schematics is not supported.")
  | Version2Saver =>
      Raise (NotImplementedError
               "Saving for Version 2 schematics is not supported.")
  | Version3Saver => Ok fs
  end.

Module SchematicSaverFactory.

(** [get_saver(schematic, version)] *)
Definition get_saver (schematic : Schematic.t) (version : Z) : saver :=
  let savers :=
    [(1, Version1Saver); (2, Version2Saver); (3, Version3Saver)] in
  let saver_class :=
    match dict_get Z.eqb savers version with
    | Some saver_class => saver_class
    | None => SchematicSaver
    end in
  {| class_of := saver_class; schematic := schematic |}.

End SchematicSaverFactory.

End serializer.

(** The spec's names for the failures the code signals. *)
Definition OutOfBounds : exn := ValueError "Coordinates out of range.".
Definition VersionNotFound : exn :=
  ValueError "Invalid schematic file: Version not found.".
Definition IndexOutOfRange : exn := IndexError.

(** * Properties *)

(** ** One varint byte, bit by bit *)

Section VarintBits.

Lemma testbit_127 (n : Z) : 0 <= n -> Z.testbit 127 n = (n <? 7).
Proof.
  intros Hn. change 127 with (Z.ones 7).
  apply Z.testbit_ones_nonneg; lia.
Qed.

Lemma testbit_128 (n : Z) : Z.testbit 128 n = (7 =? n).
Proof. change 128 with (2 ^ 7). apply Z.pow2_bits_eqb. lia. Qed.

(** The byte that ends a number has its high bit clear. *)
Lemma final_byte_flag (v : Z) : Z.land (Z.land v 127) 128 = 0.
Proof.
  apply Z.bits_inj'. intros n Hn.
  rewrite !Z.land_spec, testbit_127, testbit_128, Z.bits_0 by assumption.
  destruct (Z.ltb_spec n 7), (Z.eqb_spec 7 n); try lia;
    now rewrite ?andb_false_r.
Qed.

Lemma final_byte_low (v : Z) : Z.land (Z.land v 127) 127 = Z.land v 127.
Proof. now rewrite <- Z.land_assoc, Z.land_diag. Qed.

(** A byte that continues a number has its high bit set, and the same
    low seven bits. *)
Lemma continuation_byte_flag (v : Z) :
  Z.land (Z.lor (Z.land v 127) 128) 128 = 128.
Proof.
  apply Z.bits_inj'. intros n Hn.
  rewrite Z.land_spec, Z.lor_spec, testbit_128.
  destruct (Z.eqb_spec 7 n); [now rewrite orb_true_r | now rewrite andb_false_r].
Qed.

Lemma continuation_byte_low (v : Z) :
  Z.land (Z.lor (Z.land v 127) 128) 127 = Z.land v 127.
Proof.
  apply Z.bits_inj'. intros n Hn.
  rewrite !Z.land_spec, Z.lor_spec, Z.land_spec, testbit_127, testbit_128
    by assumption.
  destruct (Z.ltb_spec n 7), (Z.eqb_spec 7 n); try lia;
    now rewrite ?andb_false_r, ?orb_false_r, ?andb_true_r.
Qed.

(** Seven low bits at [off] and the rest seven places higher make up the
    whole value at [off]. *)
Lemma split_low7 (v off : Z) :
  0 <= off ->
  Z.lor (Z.shiftl (Z.land v 127) off) (Z.shiftl (Z.shiftr v 7) (off + 7))
  = Z.shiftl v off.
Proof.
  intros Hoff. apply Z.bits_inj'. intros n Hn.
  rewrite Z.lor_spec, !Z.shiftl_spec by assumption.
  destruct (Z.lt_ge_cases (n - off) 0) as [Hlt | Hge].
  - rewrite !(Z.testbit_neg_r _ (n - off)) by assumption.
    rewrite Z.testbit_neg_r by lia. reflexivity.
  - rewrite Z.land_spec, testbit_127 by assumption.
    destruct (Z.ltb_spec (n - off) 7).
    + rewrite (Z.testbit_neg_r _ (n - (off + 7))) by lia.
      now rewrite andb_true_r, orb_false_r.
    + rewrite Z.shiftr_spec by lia.
      replace (n - (off + 7) + 7) with (n - off) by lia.
      now rewrite andb_false_r.
Qed.

(** [value >> 7] is zero exactly on the one-byte values. *)
Lemma shiftr7_zero (v : Z) : Z.shiftr v 7 = 0 <-> 0 <= v < 128.
Proof.
  rewrite Z.shiftr_div_pow2 by lia. change (2 ^ 7) with 128.
  split; intros Hv.
  - pose proof (Z.div_mod v 128 ltac:(lia)) as E.
    pose proof (Z.mod_pos_bound v 128 ltac:(lia)). lia.
  - apply Z.div_small; assumption.
Qed.

Lemma low7_small (v : Z) : 0 <= v < 128 -> Z.land v 127 = v.
Proof.
  intros Hv. change 127 with (Z.ones 7).
  rewrite Z.land_ones by lia. apply Z.mod_small. assumption.
Qed.

End VarintBits.

(** ** The varint codec *)

(** A byte whose high bit says that the number goes on. *)
Definition continues (byte : Z) : Prop := Z.land byte 128 <> 0.

Section VarintCodec.

(** Bytes that all continue a number complete none: the loop only moves
    its accumulator. *)
Lemma decode_continuation_bytes (init rest numbers : list Z) :
  Forall continues init ->
  forall current bit_offset,
  exists current' bit_offset',
    utils.decode_varint_loop (init ++ rest) numbers current bit_offset
    = utils.decode_varint_loop rest numbers current' bit_offset'.
Proof.
  induction 1 as [| byte init Hbyte _ IH]; intros current bit_offset.
  - now exists current, bit_offset.
  - cbn [app utils.decode_varint_loop].
    unfold continues in Hbyte. apply Z.eqb_neq in Hbyte. rewrite Hbyte.
    cbn [negb]. apply IH.
Qed.

Lemma decode_dangling_bytes (init numbers : list Z) (current bit_offset : Z) :
  Forall continues init ->
  utils.decode_varint_loop init numbers current bit_offset = numbers.
Proof.
  intros Hinit.
  destruct (decode_continuation_bytes init [] numbers Hinit current bit_offset)
    as (c & o & E).
  rewrite app_nil_r in E. rewrite E. reflexivity.
Qed.

(** What the encoding loop appends: continuation bytes and one final
    byte, which the decoding loop folds back into the value. *)
Lemma encode_varint_loop_spec (fuel : nat) :
  forall value varint bytes,
  utils.encode_varint_loop fuel value varint = Some bytes ->
  exists init final,
    bytes = varint ++ init ++ [final]
    /\ Forall continues init
    /\ Z.land final 128 = 0
    /\ (128 <= value -> init <> [])
    /\ forall rest numbers current bit_offset,
         0 <= bit_offset ->
         utils.decode_varint_loop (init ++ [final] ++ rest) numbers
                                  current bit_offset
         = utils.decode_varint_loop rest
             (numbers ++ [Z.lor current (Z.shiftl value bit_offset)]) 0 0.
Proof.
  induction fuel as [| fuel IH]; intros value varint bytes Hloop;
    [discriminate |].
  cbn [utils.encode_varint_loop] in Hloop.
  destruct (Z.eqb_spec (Z.shiftr value 7) 0) as [Hlast | Hmore];
    cbn [negb] in Hloop.
  - injection Hloop as <-.
    apply shiftr7_zero in Hlast.
    exists [], (Z.land value 127). repeat split.
    + constructor.
    + apply final_byte_flag.
    + lia.
    + intros rest numbers current bit_offset _.
      cbn [app utils.decode_varint_loop].
      rewrite final_byte_flag, final_byte_low, low7_small by assumption.
      reflexivity.
  - destruct (IH _ _ _ Hloop) as (init & final & -> & Hinit & Hfinal & _ & Hdec).
    exists (Z.lor (Z.land value 127) 128 :: init), final. repeat split.
    + now rewrite <- app_assoc.
    + constructor; [| assumption].
      unfold continues. rewrite continuation_byte_flag. discriminate.
    + assumption.
    + discriminate.
    + intros rest numbers current bit_offset Hoff.
      cbn [app utils.decode_varint_loop].
      rewrite continuation_byte_flag, continuation_byte_low. cbn [Z.eqb negb].
      change (init ++ final :: rest) with (init ++ [final] ++ rest).
      rewrite Hdec by lia.
      now rewrite <- Z.lor_assoc, split_low7.
Qed.

(** Seven bits per iteration: the loop ends within the fuel. *)
Lemma encode_varint_loop_total (fuel : nat) :
  forall value varint,
  0 <= value < 2 ^ (7 * Z.of_nat (S fuel)) ->
  exists bytes, utils.encode_varint_loop (S fuel) value varint = Some bytes.
Proof.
  induction fuel as [| fuel IH]; intros value varint Hvalue.
  - cbn [utils.encode_varint_loop].
    replace (Z.shiftr value 7 =? 0) with true; [cbn; eauto |].
    symmetry. apply Z.eqb_eq, shiftr7_zero. exact Hvalue.
  - remember (S fuel) as fuel'. cbn [utils.encode_varint_loop].
    destruct (Z.eqb_spec (Z.shiftr value 7) 0); cbn [negb]; [eauto |].
    subst fuel'. apply IH.
    rewrite Z.shiftr_div_pow2 by lia. split.
    + apply Z.div_pos; lia.
    + apply Z.div_lt_upper_bound; [lia |].
      rewrite <- Z.pow_add_r by lia.
      replace (7 + 7 * Z.of_nat (S fuel)) with (7 * Z.of_nat (S (S fuel))) by lia.
      apply Hvalue.
Qed.

(** More fuel changes nothing once the loop has ended. *)
Lemma encode_varint_loop_more_fuel (fuel : nat) :
  forall value varint bytes,
  utils.encode_varint_loop fuel value varint = Some bytes ->
  utils.encode_varint_loop (S fuel) value varint = Some bytes.
Proof.
  induction fuel as [| fuel IH]; intros value varint bytes Hloop;
    [discriminate |].
  remember (S fuel) as fuel'. cbn [utils.encode_varint_loop].
  subst fuel'. cbn [utils.encode_varint_loop] in Hloop.
  destruct (negb (Z.shiftr value 7 =? 0)); [| assumption].
  apply IH, Hloop.
Qed.

(** On a negative value [value >>= 7] stays negative: no amount of fuel
    reaches the [break]. *)
Lemma encode_varint_loop_negative (fuel : nat) :
  forall value varint,
  value < 0 -> utils.encode_varint_loop fuel value varint = None.
Proof.
  induction fuel as [| fuel IH]; intros value varint Hneg; [reflexivity |].
  cbn [utils.encode_varint_loop].
  assert (Z.shiftr value 7 < 0) as Hshift by now apply Z.shiftr_neg.
  destruct (Z.eqb_spec (Z.shiftr value 7) 0); [lia |].
  cbn [negb]. now apply IH.
Qed.

Lemma encode_varint_returns (value : Z) :
  0 <= value -> exists bytes, utils.encode_varint value = Ok bytes.
Proof.
  intros Hvalue. unfold utils.encode_varint.
  destruct (encode_varint_loop_total (Z.to_nat (Z.log2 value)) value []) as [bytes ->];
    [| eauto].
  split; [assumption |].
  pose proof (Z.log2_nonneg value) as Hlog.
  rewrite Nat2Z.inj_succ, Z2Nat.id by assumption.
  apply Z.lt_le_trans with (2 ^ Z.succ (Z.log2 value)).
  - destruct (Z.eq_dec value 0) as [-> | Hnz]; [reflexivity |].
    apply Z.log2_spec. lia.
  - apply Z.pow_le_mono_r; lia.
Qed.

(** One encoded number in front of a stream decodes to that number in
    front of what the rest decodes to. *)
Lemma encode_varint_spec (value : Z) (bytes : list Z) :
  utils.encode_varint value = Ok bytes ->
  exists init final,
    bytes = init ++ [final]
    /\ Forall continues init
    /\ Z.land final 128 = 0
    /\ (128 <= value -> init <> [])
    /\ forall rest numbers,
         utils.decode_varint_loop (bytes ++ rest) numbers 0 0
         = utils.decode_varint_loop rest (numbers ++ [value]) 0 0.
Proof.
  unfold utils.encode_varint.
  destruct (utils.encode_varint_loop _ value []) as [bs |] eqn:Hloop;
    [| discriminate].
  intros [= <-].
  destruct (encode_varint_loop_spec _ _ _ _ Hloop)
    as (init & final & -> & Hinit & Hfinal & Hlong & Hdec).
  exists init, final. cbn [app]. repeat split; try assumption.
  intros rest numbers. rewrite <- app_assoc.
  rewrite Hdec by lia. now rewrite Z.shiftl_0_r.
Qed.

Lemma extend_encoded_app (front back : list Z) :
  forall varint_encoded,
  utils.extend_encoded (front ++ back) varint_encoded
  = bind (utils.extend_encoded front varint_encoded)
         (utils.extend_encoded back).
Proof.
  induction front as [| number front IH]; intros varint_encoded;
    [reflexivity |].
  cbn [app utils.extend_encoded].
  destruct (utils.encode_varint number); cbn [bind]; auto.
Qed.

(** The encoding of a flat sequence, and what the decoder makes of it. *)
Lemma extend_encoded_spec (flat_array : list Z) :
  Forall (fun number => 0 <= number) flat_array ->
  forall varint_encoded,
  exists tail,
    utils.extend_encoded flat_array varint_encoded = Ok (varint_encoded ++ tail)
    /\ forall rest numbers,
         utils.decode_varint_loop (tail ++ rest) numbers 0 0
         = utils.decode_varint_loop rest (numbers ++ flat_array) 0 0.
Proof.
  induction 1 as [| number flat_array Hnumber _ IH]; intros varint_encoded.
  - exists []. split; [now rewrite app_nil_r |].
    intros rest numbers. now rewrite app_nil_r.
  - cbn [utils.extend_encoded].
    destruct (encode_varint_returns number Hnumber) as [bytes Hbytes].
    rewrite Hbytes. cbn [bind].
    destruct (encode_varint_spec _ _ Hbytes) as (_ & _ & _ & _ & _ & _ & Hdec).
    destruct (IH (varint_encoded ++ bytes)) as (tail & -> & Htail).
    exists (bytes ++ tail). split; [now rewrite app_assoc |].
    intros rest numbers.
    rewrite <- app_assoc, Hdec, Htail, <- app_assoc. reflexivity.
Qed.

End VarintCodec.

(** C9.  Varint round trip: for every non-negative integer [value],
    [encode_varint] returns and [decode_varint] of its bytes is the
    one-element list [value]; and for every array of non-negative cells
    (any number of them, equal or not), [numpy_array_to_varint_bytearray]
    returns and [decode_varint] of its bytes is the flat sequence of the
    cells. *)
Theorem varint_round_trip :
  (forall value : Z,
     0 <= value ->
     exists bytes,
       utils.encode_varint value = Ok bytes
       /\ utils.decode_varint bytes = Ok [value])
  /\ (forall array : np.ndarray,
        Forall (fun number => 0 <= number) (np.ravel array) ->
        exists bytes,
          utils.numpy_array_to_varint_bytearray array = Ok bytes
          /\ utils.decode_varint bytes = Ok (np.ravel array)).
Proof.
  split.
  - intros value Hvalue.
    destruct (encode_varint_returns value Hvalue) as [bytes Hbytes].
    exists bytes. split; [assumption |].
    destruct (encode_varint_spec _ _ Hbytes) as (_ & _ & _ & _ & _ & _ & Hdec).
    unfold utils.decode_varint.
    specialize (Hdec [] []). rewrite app_nil_r in Hdec. now rewrite Hdec.
  - intros array Hcells.
    unfold utils.numpy_array_to_varint_bytearray.
    destruct (extend_encoded_spec _ Hcells []) as (tail & -> & Hdec).
    exists tail. split; [reflexivity |].
    unfold utils.decode_varint.
    specialize (Hdec [] []). rewrite app_nil_r in Hdec. now rewrite Hdec.
Qed.

(** The values and array shapes the spec lists, through the theorem. *)
Lemma varint_round_trip_witness :
  Forall (fun value =>
            bind (utils.encode_varint value) utils.decode_varint = Ok [value])
         [0; 1; 127; 128; 300; 65535; 2147483647]
  /\ Forall (fun cells =>
               bind (utils.numpy_array_to_varint_bytearray (np.array cells))
                    utils.decode_varint = Ok cells)
            [[]; [7]; [3; 3; 300; 0; 128; 3]].
Proof.
  destruct varint_round_trip as [Hone Hmany].
  split.
  - repeat constructor;
      match goal with
      | |- bind (utils.encode_varint ?v) _ = _ =>
          destruct (Hone v ltac:(lia)) as (bytes & -> & Hdec); exact Hdec
      end.
  - repeat constructor;
      match goal with
      | |- bind (utils.numpy_array_to_varint_bytearray (np.array ?cells)) _ = _ =>
          destruct (Hmany (np.array cells)
                          ltac:(cbn; repeat constructor; lia))
            as (bytes & -> & Hdec); exact Hdec
      end.
Defined.

(** C3, as the claim states it, fails: 300 encodes to the two bytes 172
    and 2; with the last one dropped the stream ends on a byte whose
    continuation bit is set, and [decode_varint] returns the empty list. *)
Lemma truncated_varint_not_signalled :
  utils.encode_varint 300 = Ok [172; 2]
  /\ removelast [172; 2] = [172]
  /\ Z.land 172 128 = 128
  /\ utils.decode_varint [172] = Ok [].
Proof. repeat split. Qed.

(** C3, amended.  Decoding a stream that ends inside a number does not
    fail: when the encoding of non-negative [numbers] followed by a
    [value] of two bytes or more loses its last byte, the stream ends on a
    continuation byte and [decode_varint] returns [numbers], dropping the
    unfinished number without a sign. *)
Theorem truncated_varint_decodes_silently (numbers : list Z) (value : Z) :
  Forall (fun number => 0 <= number) numbers ->
  128 <= value ->
  exists bytes,
    utils.numpy_array_to_varint_bytearray (np.array (numbers ++ [value]))
    = Ok bytes
    /\ (exists front byte,
          removelast bytes = front ++ [byte] /\ continues byte)
    /\ utils.decode_varint (removelast bytes) = Ok numbers.
Proof.
  intros Hnumbers Hvalue.
  unfold utils.numpy_array_to_varint_bytearray, np.ravel, np.array.
  cbn [np.data]. rewrite extend_encoded_app.
  destruct (extend_encoded_spec _ Hnumbers []) as (tail & -> & Hdec).
  cbn [bind app utils.extend_encoded].
  destruct (encode_varint_returns value ltac:(lia)) as [bytes Hbytes].
  rewrite Hbytes. cbn [bind].
  destruct (encode_varint_spec _ _ Hbytes)
    as (init & final & -> & Hinit & _ & Hlong & _).
  exists (tail ++ init ++ [final]). split; [reflexivity |].
  rewrite !app_assoc, removelast_last. split.
  - destruct (exists_last (Hlong Hvalue)) as (front & byte & ->).
    exists (tail ++ front), byte. split; [now rewrite app_assoc |].
    apply Forall_app in Hinit as [_ Hbyte]. now inversion Hbyte.
  - unfold utils.decode_varint. rewrite Hdec. cbn [app].
    now rewrite decode_dangling_bytes.
Qed.

Lemma truncated_varint_decodes_silently_witness :
  exists bytes,
    utils.numpy_array_to_varint_bytearray (np.array ([5; 0] ++ [300]))
    = Ok bytes
    /\ (exists front byte,
          removelast bytes = front ++ [byte] /\ continues byte)
    /\ utils.decode_varint (removelast bytes) = Ok [5; 0].
Proof.
  apply (truncated_varint_decodes_silently [5; 0] 300).
  - repeat constructor; lia.
  - lia.
Defined.

(** ** Dimensions: construction and the parse path *)

(** The schematic [Schematic(width, height, length)] builds when the three
    arguments are in range. *)
Definition fresh_schematic {consts : constants} {rt : runtime} (width height length : Z)
  : Schematic.t :=
  let air := {| Block.id := MINECRAFT_AIR; Block.properties := None |} in
  {| Schematic._width := width;
     Schematic._height := height;
     Schematic._length := length;
     Schematic.offset := [0; 0; 0];
     Schematic.data_version := DATA_VERSION;
     Schematic.name := "My Schematic";
     Schematic.author := "SchemPy";
     Schematic.date := now;
     Schematic.required_mods := [];
     Schematic.metadata := [];
     Schematic._block_palette :=
       {| Palette._block_to_index := [(air, 0)];
          Palette._index_to_block := [air] |};
     Schematic._block_data := np.zeros [length; height; width];
     Schematic._block_entities := [];
     Schematic._biome_palette := Palette.init;
     Schematic._biome_data := np.zeros [length; height; width];
     Schematic._entities := [];
     Schematic._data_version := None;
     Schematic._metadata := None;
     Schematic._offset := None |}.

Section Dimensions.
Context {consts : constants} {rt : runtime}.

Lemma from_unsigned_short_mod (value : Z) :
  utils.from_unsigned_short value = value mod 65536.
Proof.
  unfold utils.from_unsigned_short. change 65535 with (Z.ones 16).
  now rewrite Z.land_ones by lia.
Qed.

Lemma to_unsigned_short_in_range (value : Z) :
  0 <= value <= 65535 -> utils.to_unsigned_short value = Ok value.
Proof.
  intros Hvalue. unfold utils.to_unsigned_short.
  replace (0 <=? value) with true by (symmetry; apply Z.leb_le; lia).
  replace (value <=? 65535) with true by (symmetry; apply Z.leb_le; lia).
  reflexivity.
Qed.

Lemma to_unsigned_short_out_of_range (value : Z) :
  ~ 0 <= value <= 65535 ->
  utils.to_unsigned_short value
  = Raise (ValueError "Value must be between 0 and 65535.").
Proof.
  intros Hvalue. unfold utils.to_unsigned_short.
  destruct (Z.leb_spec 0 value), (Z.leb_spec value 65535);
    try reflexivity; lia.
Qed.

Lemma init_in_range (width height length : Z) :
  0 <= width <= 65535 -> 0 <= height <= 65535 -> 0 <= length <= 65535 ->
  Schematic.init width height length
  = Ok (fresh_schematic width height length).
Proof.
  intros Hw Hh Hl. unfold Schematic.init.
  rewrite !to_unsigned_short_in_range by assumption. cbn [bind].
  unfold Palette.get_id, dict_mem.
  cbn [Palette.init Palette._block_to_index Palette._index_to_block
       dict_get dict_set negb app len List.length].
  unfold Block.eqb. cbn [Block.id Block.properties].
  rewrite String.eqb_refl. reflexivity.
Qed.

Lemma init_out_of_range (width height length : Z) :
  ~ (0 <= width <= 65535 /\ 0 <= height <= 65535 /\ 0 <= length <= 65535) ->
  Schematic.init width height length
  = Raise (ValueError "Value must be between 0 and 65535.").
Proof.
  intros Hout. unfold Schematic.init.
  destruct (Z.le_gt_cases 0 width), (Z.le_gt_cases width 65535);
    try (rewrite (to_unsigned_short_out_of_range width) by lia; reflexivity).
  rewrite (to_unsigned_short_in_range width) by lia. cbn [bind].
  destruct (Z.le_gt_cases 0 height), (Z.le_gt_cases height 65535);
    try (rewrite (to_unsigned_short_out_of_range height) by lia; reflexivity).
  rewrite (to_unsigned_short_in_range height) by lia. cbn [bind].
  rewrite (to_unsigned_short_out_of_range length) by lia. reflexivity.
Qed.

Lemma dimension_stored (data : nbt.compound) (key : string) (v : nbt.tag) (n : Z) :
  nbt.get data key = Some v -> nbt.as_int v = Some n ->
  Schematic.dimension data key = Ok (n mod 65536).
Proof.
  intros Hget Hint. unfold Schematic.dimension, nbt.getitem, int_of.
  rewrite Hget. cbn [bind]. rewrite Hint. cbn [bind].
  now rewrite from_unsigned_short_mod.
Qed.

(** The shared [try] block on a tree that holds the five required
    fields: whatever integers the dimensions are stored as, they are
    reduced modulo 65536 and the constructor accepts them. *)
Lemma required_fields_stored (data : nbt.compound)
  (width height length data_version : Z) (offset : list Z) :
  nbt.get data "Width" = Some (nbt.Short width) ->
  nbt.get data "Height" = Some (nbt.Short height) ->
  nbt.get data "Length" = Some (nbt.Short length) ->
  nbt.get data "Offset" = Some (nbt.IntArray offset) ->
  nbt.get data "DataVersion" = Some (nbt.Int data_version) ->
  Schematic.required_fields data
  = Ok (Schematic.set_data_version
          (Schematic.set_offset
             (fresh_schematic (width mod 65536) (height mod 65536)
                              (length mod 65536))
             offset)
          data_version).
Proof.
  intros Hw Hh Hl Ho Hd. unfold Schematic.required_fields.
  rewrite (dimension_stored _ _ _ _ Hw eq_refl),
          (dimension_stored _ _ _ _ Hh eq_refl),
          (dimension_stored _ _ _ _ Hl eq_refl).
  cbn [bind].
  rewrite init_in_range
    by (pose proof (Z.mod_pos_bound width 65536);
        pose proof (Z.mod_pos_bound height 65536);
        pose proof (Z.mod_pos_bound length 65536); lia).
  cbn [bind]. unfold nbt.getitem. rewrite Ho, Hd. reflexivity.
Qed.

End Dimensions.

(** Instances of the two parameter classes, for closed examples. *)
Definition sample_constants : constants :=
  {| DATA_VERSION := 3700; MINECRAFT_AIR := "minecraft:air" |}.

Definition sample_runtime : runtime :=
  {| now := 1700000000000; str_of_tag := fun _ => "" |}.

(** A tree with the required fields of either layout and nothing else. *)
Definition required_only (width height length data_version : Z)
  (offset : list Z) : nbt.compound :=
  [("Width", nbt.Short width);
   ("Height", nbt.Short height);
   ("Length", nbt.Short length);
   ("Offset", nbt.IntArray offset);
   ("DataVersion", nbt.Int data_version)].

(** C10.  On the parse path a stored dimension is reduced modulo 65536
    ([value & 0xFFFF]) for every integer, so a tree whose Width, Height or
    Length is negative (or too large) still loads, under either layout,
    with the reduced dimensions; the constructor itself rejects every
    dimension outside [0, 65535]. *)
Theorem parse_path_reduces_dimensions {consts : constants} {rt : runtime} :
  (forall value : Z,
     utils.from_unsigned_short value = value mod 65536
     /\ 0 <= utils.from_unsigned_short value <= 65535)
  /\ (forall (width height length data_version : Z) (offset : list Z),
        let data := required_only width height length data_version offset in
        let loaded :=
          Schematic.set_data_version
            (Schematic.set_offset
               (fresh_schematic (width mod 65536) (height mod 65536)
                                (length mod 65536))
               offset)
            data_version in
        Schematic._parse_file_v3 [("Schematic", nbt.Compound data)] = Ok loaded
        /\ Schematic._parse_file_v2 data = Ok loaded)
  /\ (forall width height length : Z,
        ~ (0 <= width <= 65535 /\ 0 <= height <= 65535
           /\ 0 <= length <= 65535) ->
        Schematic.init width height length
        = Raise (ValueError "Value must be between 0 and 65535.")).
Proof.
  split; [| split].
  - intros value. rewrite from_unsigned_short_mod.
    pose proof (Z.mod_pos_bound value 65536). split; [reflexivity | lia].
  - intros width height length data_version offset data loaded.
    pose proof (required_fields_stored data width height length data_version
                  offset eq_refl eq_refl eq_refl eq_refl eq_refl) as Hreq.
    fold loaded in Hreq. split.
    + unfold Schematic._parse_file_v3, SpongeV3.
      change (nbt.getitem [("Schematic", nbt.Compound data)] "Schematic")
        with (Ok (A := nbt.tag) (nbt.Compound data)).
      cbn [bind fields_of]. rewrite Hreq. reflexivity.
    + unfold Schematic._parse_file_v2, SpongeV2.
      rewrite Hreq. reflexivity.
  - apply init_out_of_range.
Qed.

(** A stored Width of -1 loads as 65535; the constructor refuses -1. *)
Lemma parse_path_reduces_dimensions_witness :
  (exists loaded,
     Schematic._parse_file_v3 (consts := sample_constants) (rt := sample_runtime)
       [("Schematic", nbt.Compound (required_only (-1) 1 1 3700 [0; 0; 0]))]
     = Ok loaded
     /\ Schematic._width loaded = 65535)
  /\ Schematic.init (consts := sample_constants) (rt := sample_runtime) (-1) 1 1
     = Raise (ValueError "Value must be between 0 and 65535.").
Proof.
  destruct (parse_path_reduces_dimensions
              (consts := sample_constants) (rt := sample_runtime))
    as (_ & Hparse & Hinit).
  split.
  - destruct (Hparse (-1) 1 1 3700 [0; 0; 0]) as [Hv3 _].
    eexists. split; [exact Hv3 | reflexivity].
  - apply Hinit. lia.
Defined.

(** ** Palette: lookup by index *)

Section PaletteIndex.

Lemma list_getitem_nth {A : Type} (l : list A) (index : Z) :
  0 <= index < len l ->
  exists a, nth_error l (Z.to_nat index) = Some a
            /\ list_getitem l index = Ok a.
Proof.
  intros Hindex. unfold list_getitem.
  destruct (Z.ltb_spec index 0); [lia |].
  destruct (Z.leb_spec 0 index), (Z.ltb_spec index (len l)); try lia.
  cbn [andb].
  destruct (nth_error l (Z.to_nat index)) as [a |] eqn:Hnth; [eauto |].
  apply nth_error_None in Hnth. unfold len in Hindex. lia.
Qed.

Lemma list_getitem_wraps {A : Type} (l : list A) (index : Z) :
  index < 0 -> list_getitem l index = list_getitem l (index + len l)
               \/ index < - len l.
Proof.
  intros Hneg.
  destruct (Z.lt_ge_cases index (- len l)); [now right | left].
  unfold list_getitem.
  destruct (Z.ltb_spec index 0); [| lia].
  destruct (Z.ltb_spec (index + len l) 0); [lia | reflexivity].
Qed.

Lemma list_getitem_error {A : Type} (l : list A) (index : Z) :
  list_getitem l index = Raise IndexError
  <-> index < - len l \/ len l <= index.
Proof.
  split.
  - intros Herr.
    destruct (Z.lt_ge_cases index (- len l)); [now left |].
    destruct (Z.lt_ge_cases index (len l)); [| now right].
    exfalso.
    destruct (Z.lt_ge_cases index 0) as [Hneg | Hpos].
    + destruct (list_getitem_wraps l index Hneg) as [E | ?]; [| lia].
      destruct (list_getitem_nth l (index + len l)) as (a & _ & Hok); [lia |].
      congruence.
    + destruct (list_getitem_nth l index) as (a & _ & Hok); [lia |].
      congruence.
  - intros Hout. unfold list_getitem.
    destruct (Z.ltb_spec index 0);
      match goal with
      | |- (if ?c then _ else _) = _ =>
          replace c with false; [reflexivity |]
      end;
      symmetry; apply andb_false_iff;
      rewrite Z.leb_gt, Z.ltb_ge; lia.
Qed.

End PaletteIndex.

(** The block of the examples. *)
Definition stone : Block.t :=
  {| Block.id := "minecraft:stone"; Block.properties := None |}.

(** C5, as the claim states it, fails on a negative index: after one
    [get_id] the palette has the single index 0, yet [get_block(-1)]
    returns the block stored there. *)
Lemma negative_index_wraps_around :
  bind (Palette.get_id Palette.init stone)
       (fun '(index, palette) => Palette.get_block palette (-1))
  = Ok stone.
Proof. reflexivity. Qed.

(** C5, amended.  With [n] values in the palette's index-to-value
    sequence, [get_block(index)] fails with IndexOutOfRange (Python's
    [IndexError]) exactly when [index >= n] or [index < -n]; an index in
    [[-n, 0)] does not fail: it wraps around and gives what [index + n]
    gives. *)
Theorem get_block_index_error (palette : Palette.t) (index : Z) :
  let n := len (Palette._index_to_block palette) in
  (Palette.get_block palette index = Raise IndexOutOfRange
   <-> index < - n \/ n <= index)
  /\ (- n <= index < 0 ->
      Palette.get_block palette index = Palette.get_block palette (index + n)
      /\ exists block, Palette.get_block palette index = Ok block).
Proof.
  intros n. unfold Palette.get_block, IndexOutOfRange. split.
  - apply list_getitem_error.
  - intros Hwrap.
    destruct (list_getitem_wraps (Palette._index_to_block palette) index)
      as [E | ?]; [lia | | lia].
    split; [exact E |]. rewrite E.
    destruct (list_getitem_nth (Palette._index_to_block palette) (index + n))
      as (block & _ & Hok); [fold n; lia |].
    eauto.
Qed.

Lemma get_block_index_error_witness :
  let palette :=
    {| Palette._block_to_index := [(stone, 0)];
       Palette._index_to_block := [stone] |} in
  Palette.get_block palette 1 = Raise IndexOutOfRange
  /\ Palette.get_block palette (-2) = Raise IndexOutOfRange
  /\ Palette.get_block palette (-1) = Palette.get_block palette 0.
Proof.
  intros palette.
  destruct (get_block_index_error palette 1) as [[_ Hhigh] _].
  destruct (get_block_index_error palette (-2)) as [[_ Hlow] _].
  destruct (get_block_index_error palette (-1)) as [_ Hwrap].
  split; [| split].
  - apply Hhigh. right. cbn. lia.
  - apply Hlow. left. cbn. lia.
  - apply Hwrap. cbn. lia.
Defined.

(** ** Palette: loading a mapping *)

Section PaletteLoad.

(** [set_palette] never looks at the index when it stores a block in the
    index-to-value sequence: it appends, one block per entry, in the
    order of the entries. *)
Lemma set_palette_appends (palette : list (string * Z)) :
  forall self loaded,
  Palette.set_palette self palette = Ok loaded ->
  exists blocks,
    Palette._index_to_block loaded = Palette._index_to_block self ++ blocks
    /\ List.length blocks = List.length palette.
Proof.
  induction palette as [| [block_str index] palette IH]; intros self loaded.
  - intros [= <-]. exists []. now rewrite app_nil_r.
  - cbn [Palette.set_palette].
    destruct (Palette.parse_block block_str) as [block | |]; cbn [bind];
      try discriminate.
    intros Hrest. destruct (IH _ _ Hrest) as (blocks & -> & Hlen).
    cbn [Palette._index_to_block].
    exists (block :: blocks). split; [now rewrite <- app_assoc |].
    cbn [List.length]. now rewrite Hlen.
Qed.

End PaletteLoad.

(** C4, the failing input.  Loading [{X: 5, Y: 2}] into a new palette
    records both indices in the value-to-index table and puts the two
    blocks at positions 0 and 1 of the sequence: [get_block] fails at the
    supplied indices 5 and 2, answers at 0 and 1, which were never
    supplied, and the two tables disagree. *)
Theorem set_palette_ignores_supplied_index :
  let X := {| Block.id := "X"; Block.properties := None |} in
  let Y := {| Block.id := "Y"; Block.properties := None |} in
  exists loaded,
    Palette.set_palette Palette.init [("X", 5); ("Y", 2)] = Ok loaded
    /\ Palette._block_to_index loaded = [(X, 5); (Y, 2)]
    /\ Palette._index_to_block loaded = [X; Y]
    /\ Palette.get_block loaded 5 = Raise IndexOutOfRange
    /\ Palette.get_block loaded 2 = Raise IndexOutOfRange
    /\ Palette.get_block loaded 0 = Ok X
    /\ Palette.get_block loaded 1 = Ok Y
    /\ Palette.get_palette loaded = [("X", 5); ("Y", 2)].
Proof. eexists. repeat split. Qed.

(** ** Canonical strings *)

(** [f"{key}={value}"] *)
Definition render_property (item : string * string) : string :=
  String.append (fst item) (String.append "=" (snd item)).

(** A string the palette's parser reads back whole: none of the three
    delimiters occurs in it. *)
Definition delimiter_free (s : string) : Prop :=
  contains "[" s = false /\ contains "," s = false /\ contains "=" s = false.

(** The blocks whose rendering the parser can read back: no ['['] in the
    id, and properties that are absent, or a dict (its keys distinct) with
    at least one entry and delimiter-free keys and values. *)
Definition parses_back (block : Block.t) : Prop :=
  contains "[" (Block.id block) = false
  /\ match Block.properties block with
     | None => True
     | Some items =>
         items <> []
         /\ NoDup (map fst items)
         /\ Forall (fun item => delimiter_free (fst item)
                                /\ delimiter_free (snd item)) items
     end.

Section CanonicalStrings.

Lemma contains_append (c : ascii) (a b : string) :
  contains c (String.append a b) = contains c a || contains c b.
Proof.
  induction a as [| c' a IH]; [reflexivity |].
  cbn [String.append contains]. now rewrite IH, orb_assoc.
Qed.

Lemma split_free (sep : ascii) (s : string) :
  contains sep s = false -> split sep s = [s].
Proof.
  induction s as [| c s IH]; [reflexivity |].
  cbn [contains split]. intros Hfree.
  apply orb_false_iff in Hfree as [-> Hs]. now rewrite (IH Hs).
Qed.

Lemma split_append (sep : ascii) (a b : string) :
  contains sep a = false ->
  split sep (String.append a (String sep b)) = a :: split sep b.
Proof.
  induction a as [| c a IH]; cbn [String.append contains split].
  - intros _. now rewrite Ascii.eqb_refl.
  - intros Hfree. apply orb_false_iff in Hfree as [-> Ha].
    now rewrite (IH Ha).
Qed.

Lemma drop_last_append (s : string) (c : ascii) :
  drop_last (String.append s (String c EmptyString)) = s.
Proof.
  induction s as [| c' s IH]; [reflexivity |].
  cbn [String.append drop_last]. rewrite IH.
  destruct s; reflexivity.
Qed.

Lemma join_cons (sep : ascii) (piece next : string) (rest : list string) :
  join (String sep EmptyString) (piece :: next :: rest)
  = String.append piece
      (String sep (join (String sep EmptyString) (next :: rest))).
Proof. reflexivity. Qed.

Lemma split_join (sep : ascii) (pieces : list string) :
  pieces <> [] ->
  Forall (fun piece => contains sep piece = false) pieces ->
  split sep (join (String sep EmptyString) pieces) = pieces.
Proof.
  intros Hne Hfree. induction Hfree as [| piece rest Hpiece Hrest IH];
    [contradiction |].
  destruct rest as [| next rest].
  - now apply split_free.
  - rewrite join_cons, split_append by assumption.
    now rewrite IH by discriminate.
Qed.

Lemma contains_join (c sep : ascii) (pieces : list string) :
  Ascii.eqb sep c = false ->
  Forall (fun piece => contains c piece = false) pieces ->
  contains c (join (String sep EmptyString) pieces) = false.
Proof.
  intros Hsep Hfree. induction Hfree as [| piece rest Hpiece Hrest IH];
    [reflexivity |].
  destruct rest as [| next rest]; [assumption |].
  rewrite join_cons, contains_append, Hpiece.
  cbn [contains orb]. now rewrite Hsep, IH.
Qed.

Lemma contains_render (c : ascii) (item : string * string) :
  Ascii.eqb "=" c = false ->
  contains c (fst item) = false -> contains c (snd item) = false ->
  contains c (render_property item) = false.
Proof.
  intros Hc Hkey Hvalue. unfold render_property.
  rewrite contains_append, Hkey. cbn [String.append contains orb].
  now rewrite Hc, Hvalue.
Qed.

Lemma split_render (item : string * string) :
  contains "=" (fst item) = false -> contains "=" (snd item) = false ->
  split "=" (render_property item) = [fst item; snd item].
Proof.
  intros Hkey Hvalue. unfold render_property.
  cbn [String.append]. rewrite split_append by assumption.
  now rewrite split_free.
Qed.

Lemma render_not_empty (item : string * string) (rest : list (string * string)) :
  exists c s, join "," (map render_property (item :: rest)) = String c s.
Proof.
  cbn [map]. assert (exists c s, render_property item = String c s) as (c & s & E).
  { unfold render_property. destruct (fst item); cbn; eauto. }
  destruct rest as [| next rest]; [exists c, s; exact E |].
  cbn [map]. rewrite join_cons, E. cbn [String.append]. eauto.
Qed.

Lemma dict_set_fresh (d : list (string * string)) (key value : string) :
  ~ In key (map fst d) ->
  dict_set String.eqb d key value = d ++ [(key, value)].
Proof.
  induction d as [| [k v] d IH]; [reflexivity |].
  cbn [map fst In dict_set app]. intros Hfresh.
  destruct (String.eqb_spec k key) as [-> | _]; [tauto |].
  rewrite IH by tauto. reflexivity.
Qed.

(** The inner loop rebuilds a dict from its rendered items, entry by
    entry. *)
Lemma parse_properties_render (items : list (string * string)) :
  forall properties,
  NoDup (map fst (properties ++ items)) ->
  Forall (fun item => delimiter_free (fst item)
                      /\ delimiter_free (snd item)) items ->
  Palette.parse_properties (map render_property items) properties
  = Ok (properties ++ items).
Proof.
  induction items as [| [key value] items IH]; intros properties Hkeys Hfree.
  - now rewrite app_nil_r.
  - inversion Hfree as [| ? ? [(_ & _ & Hkey) (_ & _ & Hvalue)] Hrest]; subst.
    cbn [map Palette.parse_properties].
    rewrite split_render by assumption.
    cbn [Palette.unpack2 bind fst snd].
    rewrite map_app in Hkeys. cbn [map fst] in Hkeys.
    rewrite dict_set_fresh.
    + rewrite IH; [now rewrite <- app_assoc | | assumption].
      now rewrite <- app_assoc, map_app.
    + apply NoDup_remove_2 in Hkeys. intros Hin. apply Hkeys.
      apply in_or_app. now left.
Qed.

Lemma dict_get_own_entry (d : list (string * string)) (key value : string) :
  NoDup (map fst d) -> In (key, value) d ->
  dict_get String.eqb d key = Some value.
Proof.
  induction d as [| [k v] d IH]; [contradiction |].
  cbn [map fst dict_get]. intros Hkeys [[= -> ->] | Hin].
  - now rewrite String.eqb_refl.
  - inversion Hkeys as [| ? ? Hk Hd]; subst.
    destruct (String.eqb_spec k key) as [-> | _]; [| now apply IH].
    exfalso. apply Hk. now apply (in_map fst) in Hin.
Qed.

Lemma str_dict_eqb_refl (d : list (string * string)) :
  NoDup (map fst d) -> str_dict_eqb d d = true.
Proof.
  intros Hkeys. unfold str_dict_eqb. rewrite Nat.eqb_refl. cbn [andb].
  apply forallb_forall. intros [key value] Hin.
  rewrite (dict_get_own_entry d key value Hkeys Hin).
  apply String.eqb_refl.
Qed.

(** The rendering of a block that has properties. *)
Lemma str_with_properties (id : string) (item : string * string)
  (items : list (string * string)) :
  Block.str {| Block.id := id; Block.properties := Some (item :: items) |}
  = String.append id
      (String "["
         (String.append (join "," (map render_property (item :: items))) "]")).
Proof.
  unfold Block.str. cbn [Block.id Block.properties].
  assert (map (fun '(key, value) =>
                 String.append key (String.append "=" value)) (item :: items)
          = map render_property (item :: items)) as ->
    by (apply map_ext; now intros []).
  destruct (render_not_empty item items) as (c & s & ->). reflexivity.
Qed.

End CanonicalStrings.

(** C6, as the claim states it, fails twice over.  An id with ['['] in it
    renders to a string the parser takes for an id with properties, and
    the parse raises; a block whose properties are the empty dict renders
    as its bare id, which parses to a block without properties, and
    [__eq__] tells the two apart. *)
Lemma canonical_string_not_read_back :
  let bracket := {| Block.id := "a[b"; Block.properties := None |} in
  let empty := {| Block.id := "a"; Block.properties := Some [] |} in
  let bare := {| Block.id := "a"; Block.properties := None |} in
  Block.str bracket = "a[b"
  /\ Palette.parse_block (Block.str bracket)
     = Raise (ValueError "not enough values to unpack (expected 2, got 1)")
  /\ Block.str empty = "a"
  /\ Palette.parse_block (Block.str empty) = Ok bare
  /\ Block.eqb bare empty = false.
Proof. repeat split. Qed.

(** C6, amended.  For every block whose id holds no ['['] and whose
    properties are absent, or a non-empty dict whose keys and values hold
    none of ['['], [','] and ['='], the palette's parser applied to the
    block's canonical string returns that very block, and the block is
    [__eq__]-equal to it. *)
Theorem canonical_string_round_trip (block : Block.t) :
  parses_back block ->
  exists parsed,
    Palette.parse_block (Block.str block) = Ok parsed
    /\ parsed = block
    /\ Block.eqb parsed block = true.
Proof.
  destruct block as [id properties]. unfold parses_back.
  cbn [Block.id Block.properties]. intros [Hid Hproperties].
  destruct properties as [items |].
  - destruct Hproperties as (Hne & Hkeys & Hfree).
    eexists. split; [| split; [reflexivity |]].
    + destruct items as [| item items]; [contradiction |].
      rewrite str_with_properties.
      set (rendered := join "," (map render_property (item :: items))).
      assert (contains "[" rendered = false) as Hbracket.
      { apply contains_join; [reflexivity |].
        apply Forall_map. eapply Forall_impl; [| exact Hfree].
        intros kv [(Hk & _ & _) (Hv & _ & _)].
        now apply contains_render. }
      assert (Forall (fun piece => contains "," piece = false)
                     (map render_property (item :: items))) as Hcomma.
      { apply Forall_map. eapply Forall_impl; [| exact Hfree].
        intros kv [(_ & Hk & _) (_ & Hv & _)].
        now apply contains_render. }
      unfold Palette.parse_block.
      rewrite contains_append. cbn [contains].
      rewrite Ascii.eqb_refl, orb_true_r.
      rewrite split_append by assumption.
      rewrite split_free
        by (rewrite contains_append, Hbracket; reflexivity).
      cbn [Palette.unpack2 bind].
      rewrite drop_last_append.
      unfold rendered. rewrite split_join by (assumption || discriminate).
      rewrite parse_properties_render by assumption.
      reflexivity.
    + unfold Block.eqb. cbn [Block.id Block.properties].
      now rewrite String.eqb_refl, str_dict_eqb_refl.
  - exists {| Block.id := id; Block.properties := None |}.
    unfold Block.str, Palette.parse_block, Block.eqb.
    cbn [Block.id Block.properties]. rewrite Hid, String.eqb_refl.
    repeat split.
Qed.

Lemma canonical_string_round_trip_witness :
  let block :=
    {| Block.id := "minecraft:oak_stairs";
       Block.properties := Some [("facing", "east"); ("half", "top")] |} in
  Block.str block = "minecraft:oak_stairs[facing=east,half=top]"
  /\ exists parsed,
       Palette.parse_block (Block.str block) = Ok parsed
       /\ parsed = block
       /\ Block.eqb parsed block = true.
Proof.
  intros block. split; [reflexivity |].
  apply (canonical_string_round_trip block).
  split; [reflexivity |]. cbn [Block.properties block].
  split; [discriminate |]. split.
  - repeat constructor; cbn; intuition discriminate.
  - repeat constructor.
Defined.

(** ** Version detection *)

(** C8.  [_parse_file] reads the top-level [Version] first and the one
    under [Schematic] only when the top-level one is absent: a tree whose
    top-level [Version] is 3, and a tree without it whose [Schematic]
    root holds [Version] 3, are both handed to [_parse_file_v3]; a tree
    with neither field, whether it has no [Schematic] root or one without
    a [Version], fails with VersionNotFound. *)
Theorem version_sniff {consts : constants} {rt : runtime}
  (file : nbt.compound) :
  (forall version,
     nbt.get file "Version" = Some version ->
     nbt.as_int version = Some 3 ->
     Schematic._parse_file file = Schematic._parse_file_v3 file)
  /\ (forall root version,
        nbt.get file "Version" = None ->
        nbt.get file "Schematic" = Some (nbt.Compound root) ->
        nbt.get root "Version" = Some version ->
        nbt.as_int version = Some 3 ->
        Schematic._parse_file file = Schematic._parse_file_v3 file)
  /\ (nbt.get file "Version" = None ->
      nbt.get file "Schematic" = None
      \/ (exists root,
            nbt.get file "Schematic" = Some (nbt.Compound root)
            /\ nbt.get root "Version" = None) ->
      Schematic._parse_file file = Raise VersionNotFound).
Proof.
  assert (forall version,
            nbt.as_int version = Some 3 ->
            nbt.eq_int version 1 = Ok false
            /\ nbt.eq_int version 2 = Ok false
            /\ nbt.eq_int version 3 = Ok true) as Hthree.
  { intros version Hint.
    destruct version; try discriminate; injection Hint as ->; repeat split. }
  unfold Schematic._parse_file, Schematic.find_version.
  split; [| split].
  - intros version -> Hint. cbn [bind].
    destruct (Hthree version Hint) as (-> & -> & ->). reflexivity.
  - intros root version -> -> Hversion Hint. cbn [nbt.tag_get bind].
    rewrite Hversion.
    destruct (Hthree version Hint) as (-> & -> & ->). reflexivity.
  - intros -> [-> | (root & -> & Hversion)]; [reflexivity |].
    cbn [nbt.tag_get bind]. rewrite Hversion. reflexivity.
Qed.

(** Three trees: [Version] 3 at the top, [Version] 3 only under
    [Schematic] (a tree that then loads), and neither. *)
Lemma version_sniff_witness :
  let top := [("Version", nbt.Int 3)] in
  let root := ("Version", nbt.Int 3) :: required_only 2 2 2 3700 [0; 0; 0] in
  let nested := [("Schematic", nbt.Compound root)] in
  let parse := Schematic._parse_file (consts := sample_constants)
                                     (rt := sample_runtime) in
  let parse_v3 := Schematic._parse_file_v3 (consts := sample_constants)
                                           (rt := sample_runtime) in
  parse top = parse_v3 top
  /\ parse nested = parse_v3 nested
  /\ (exists loaded, parse nested = Ok loaded)
  /\ parse [] = Raise VersionNotFound
  /\ parse [("Schematic", nbt.Compound [])] = Raise VersionNotFound.
Proof.
  intros top root nested parse parse_v3.
  split; [| split; [| split; [| split]]].
  - destruct (version_sniff (consts := sample_constants)
                (rt := sample_runtime) top) as (Htop & _ & _).
    exact (Htop (nbt.Int 3) eq_refl eq_refl).
  - destruct (version_sniff (consts := sample_constants)
                (rt := sample_runtime) nested) as (_ & Hnested & _).
    exact (Hnested root (nbt.Int 3) eq_refl eq_refl eq_refl eq_refl).
  - eexists. reflexivity.
  - destruct (version_sniff (consts := sample_constants)
                (rt := sample_runtime) []) as (_ & _ & Hnone).
    apply Hnone; [reflexivity | now left].
  - destruct (version_sniff (consts := sample_constants)
                (rt := sample_runtime) [("Schematic", nbt.Compound [])])
      as (_ & _ & Hnone).
    apply Hnone; [reflexivity | right; exists []; split; reflexivity].
Defined.

(** ** Blocks by coordinate *)

Section Coordinates.
Context {consts : constants} {rt : runtime}.

Definition in_bounds (self : Schematic.t) (x y z : Z) : Prop :=
  0 <= x < Schematic._width self
  /\ 0 <= y < Schematic._height self
  /\ 0 <= z < Schematic._length self.

Lemma check_coordinates_spec (self : Schematic.t) (x y z : Z) :
  (in_bounds self x y z -> Schematic._check_coordinates self x y z = Ok tt)
  /\ (~ in_bounds self x y z ->
      Schematic._check_coordinates self x y z = Raise OutOfBounds).
Proof.
  unfold in_bounds, Schematic._check_coordinates, OutOfBounds.
  destruct (Z.leb_spec 0 x), (Z.ltb_spec x (Schematic._width self)),
           (Z.leb_spec 0 y), (Z.ltb_spec y (Schematic._height self)),
           (Z.leb_spec 0 z), (Z.ltb_spec z (Schematic._length self));
    cbn [andb negb]; split; intros; (reflexivity || lia).
Qed.

(** The second half of C2 holds on the code: outside the bounds the
    three accessors fail with OutOfBounds before they touch anything. *)
Lemma out_of_bounds_is_refused (self : Schematic.t) (x y z : Z) :
  ~ in_bounds self x y z ->
  Schematic.get_block self x y z = Raise OutOfBounds
  /\ (forall block, Schematic.set_block self x y z block = Raise OutOfBounds)
  /\ (forall id properties,
        Schematic.add_block_entity self
          {| BlockEntity.id := id; BlockEntity.x := x; BlockEntity.y := y;
             BlockEntity.z := z; BlockEntity.properties := properties |}
        = Raise OutOfBounds).
Proof.
  intros Hout. destruct (check_coordinates_spec self x y z) as [_ Hcheck].
  specialize (Hcheck Hout).
  unfold Schematic.get_block, Schematic.set_block, Schematic.add_block_entity.
  cbn [BlockEntity.x BlockEntity.y BlockEntity.z].
  rewrite Hcheck. repeat split.
Qed.

(** C2, the failing input.  In a schematic of width 2, height 1 and
    length 1 the coordinate (1, 0, 0) is within the bounds, and
    [_check_coordinates] accepts it; the grid is shaped
    (length, height, width) = (1, 1, 2) and indexed [[x, y, z]], so its
    first axis has one cell only: [set_block] and [get_block] raise
    [IndexError] there. *)
Theorem in_bounds_cell_raises_IndexError :
  bind (Schematic.init 2 1 1)
       (fun self => Schematic._check_coordinates self 1 0 0) = Ok tt
  /\ bind (Schematic.init 2 1 1)
          (fun self => Schematic.set_block self 1 0 0 stone)
     = Raise IndexError
  /\ bind (Schematic.init 2 1 1)
          (fun self => Schematic.get_block self 1 0 0)
     = Raise IndexError.
Proof.
  rewrite init_in_range by lia. cbn [bind].
  split; [reflexivity | split; [| reflexivity]].
  unfold Schematic.set_block, Palette.get_id, dict_mem.
  cbn [Schematic._check_coordinates fresh_schematic Schematic._width
       Schematic._height Schematic._length Z.leb Z.ltb Z.compare Pos.compare
       Pos.compare_cont andb negb bind Schematic._block_palette
       Palette._block_to_index Palette._index_to_block dict_get dict_set].
  destruct (Block.eqb {| Block.id := MINECRAFT_AIR; Block.properties := None |}
                      stone) eqn:Hair;
    cbn [negb Palette._block_to_index dict_get]; rewrite ?Hair; reflexivity.
Qed.

End Coordinates.

(** ** Saving under version 2 *)

(** A directory and a path in it, for the closed examples. *)
Definition sample_files : filesystem :=
  {| directories := ["/tmp"]; files := [] |}.

Definition sample_path : Path :=
  {| parent := "/tmp"; stem := "house"; suffix := ".schem" |}.

Section SaveV2.
Context {consts : constants} {rt : runtime}.

(** Without the attribute [_data_version] the version-2 builder stops at
    its second keyword argument. *)
Lemma save_v2_needs_data_version (self : Schematic.t) :
  Schematic._data_version self = None ->
  Schematic._save_to_file_v2 self = Raise (AttributeError "_data_version").
Proof.
  intros Hmissing. unfold Schematic._save_to_file_v2.
  now rewrite Hmissing.
Qed.

(** No accessor gives a schematic the attribute. *)
Lemma accessors_keep_data_version (self changed : Schematic.t) :
  (exists x y z block, Schematic.set_block self x y z block = Ok changed)
  \/ (exists block_entity,
        Schematic.add_block_entity self block_entity = Ok changed) ->
  Schematic._data_version changed = Schematic._data_version self.
Proof.
  intros [(x & y & z & block & Hset) | (block_entity & Hadd)].
  - unfold Schematic.set_block in Hset.
    destruct (Schematic._check_coordinates self x y z); try discriminate.
    cbn [bind] in Hset.
    destruct (Palette.get_id _ block) as [[index palette] | |];
      try discriminate.
    cbn [bind] in Hset.
    destruct (np.setitem _ x y z index); try discriminate.
    now injection Hset as <-.
  - unfold Schematic.add_block_entity in Hadd.
    destruct (Schematic._check_coordinates self _ _ _); try discriminate.
    now injection Hadd as <-.
Qed.

(** What the claim says of the tree does hold of every tree the builder
    returns: the biome fields are computed from the block palette. *)
Lemma save_v2_biome_fields (self : Schematic.t) (tree : nbt.compound) :
  Schematic._save_to_file_v2 self = Ok tree ->
  nbt.get tree "BiomePalette" = nbt.get tree "Palette"
  /\ nbt.get tree "BiomePaletteMax" = nbt.get tree "PaletteMax"
  /\ nbt.get tree "Palette"
     = Some (nbt.Compound
               (int_fields (Palette.get_palette (Schematic._block_palette self)))).
Proof.
  unfold Schematic._save_to_file_v2, SpongeV2.
  destruct (Schematic.getattr "_data_version" _); try discriminate.
  cbn [bind].
  destruct (Schematic.getattr "_metadata" _); try discriminate.
  cbn [bind].
  destruct (Schematic.getattr "_offset" _); try discriminate.
  cbn [bind].
  destruct (np.reshape (Schematic._block_data self) _); try discriminate.
  cbn [bind].
  destruct (np.reshape (Schematic._biome_data self) _); try discriminate.
  cbn [bind]. intros [= <-]. repeat split.
Qed.

(** C7, the failing input.  For a schematic as the constructor makes it,
    [_save_to_file_v2] reads [self._data_version], an attribute that no
    method assigns ([__init__] sets [data_version]): the call raises
    [AttributeError] and [save_to_file] with version 2 writes no tree;
    version 3, on the same schematic and path, does. *)
Theorem save_v2_raises_AttributeError :
  bind (Schematic.init 2 2 2) Schematic._save_to_file_v2
  = Raise (AttributeError "_data_version")
  /\ bind (Schematic.init 2 2 2)
          (fun self => Schematic.save_to_file self sample_path 2 sample_files)
     = Raise (AttributeError "_data_version")
  /\ exists written,
       bind (Schematic.init 2 2 2)
            (fun self => Schematic.save_to_file self sample_path 3 sample_files)
       = Ok written.
Proof.
  rewrite init_in_range by lia. cbn [bind].
  split; [| split].
  - now apply save_v2_needs_data_version.
  - unfold Schematic.save_to_file.
    change (parent_exists sample_files sample_path) with true.
    change (String.eqb (suffix sample_path) ".schem") with true.
    cbn [negb Z.eqb]. now rewrite save_v2_needs_data_version.
  - eexists. reflexivity.
Qed.

End SaveV2.

(** ** Saving under version 3 and loading again *)

(** The spec's end-to-end example: a 2 x 2 x 2 schematic, a different
    block in each of its eight cells, one block entity at (0, 0, 0). *)
Definition plain (id : string) : Block.t :=
  {| Block.id := id; Block.properties := None |}.

Definition example_cells : list (Z * Z * Z * Block.t) :=
  [(0, 0, 0, stone);
   (0, 0, 1, plain "minecraft:dirt");
   (0, 1, 0, plain "minecraft:sand");
   (0, 1, 1, plain "minecraft:glass");
   (1, 0, 0, {| Block.id := "minecraft:oak_stairs";
                Block.properties := Some [("facing", "east"); ("half", "top")] |});
   (1, 0, 1, {| Block.id := "minecraft:oak_log";
                Block.properties := Some [("axis", "y")] |});
   (1, 1, 0, plain "minecraft:gravel");
   (1, 1, 1, plain "minecraft:cobblestone")].

Definition example_chest : BlockEntity.t :=
  {| BlockEntity.id := "minecraft:chest";
     BlockEntity.x := 0; BlockEntity.y := 0; BlockEntity.z := 0;
     BlockEntity.properties := Some [("CustomName", "loot")] |}.

Section EndToEnd.
Context {consts : constants} {rt : runtime}.

Fixpoint set_blocks (self : Schematic.t) (cells : list (Z * Z * Z * Block.t))
  : result Schematic.t :=
  match cells with
  | [] => Ok self
  | (x, y, z, block) :: rest =>
      self <- Schematic.set_block self x y z block ;;
      set_blocks self rest
  end.

Definition build_example : result Schematic.t :=
  self <- Schematic.init 2 2 2 ;;
  self <- set_blocks self example_cells ;;
  Schematic.add_block_entity self example_chest.

(** [save_to_file(path, 3)] followed by [from_file(path)]. *)
Definition save_and_load (self : Schematic.t) : result Schematic.t :=
  fs <- Schematic.save_to_file self sample_path 3 sample_files ;;
  Schematic.from_file sample_path fs.

End EndToEnd.

(** [f(r)] for a field or method [f] read off a result. *)
Definition then_read {A B : Type} (r : result A) (f : A -> B) : result B :=
  bind r (fun a => Ok (f a)).

(** C1, the failing input.  On the spec's own example the load returns a
    schematic whose offset, index grid and palette strings are those of
    the original, and whose block-entity list is empty: [_parse_file_v3]
    never reads [BlockEntities], which [_save_to_file_v3] wrote.  The
    loaded palette is off by one besides ([set_palette] appends after the
    air block the constructor put in), so [get_block] gives air where
    stone was set. *)
Theorem v3_round_trip_loses_block_entities :
  let original := build_example (consts := sample_constants)
                                (rt := sample_runtime) in
  let loaded := bind original (save_and_load (consts := sample_constants)
                                             (rt := sample_runtime)) in
  then_read original Schematic._block_entities = Ok [example_chest]
  /\ then_read loaded Schematic._block_entities = Ok []
  /\ bind original (fun self => Schematic.get_block self 0 0 0) = Ok stone
  /\ bind loaded (fun self => Schematic.get_block self 0 0 0)
     = Ok (plain "minecraft:air")
  /\ then_read loaded Schematic.offset = Ok [0; 0; 0]
  /\ then_read original Schematic.offset = Ok [0; 0; 0]
  /\ then_read loaded Schematic._block_data
     = then_read original Schematic._block_data
  /\ then_read loaded (fun self =>
                         Palette.get_palette (Schematic._block_palette self))
     = then_read original (fun self =>
                             Palette.get_palette (Schematic._block_palette self)).
Proof.
  intros original loaded.
  repeat match goal with |- _ /\ _ => split end; vm_compute; reflexivity.
Qed.

(** * Further properties of the code *)

(** ** The varint codec, byte by byte *)

Section VarintBytes.

Lemma low7_range (v : Z) : 0 <= Z.land v 127 < 128.
Proof.
  change 127 with (Z.ones 7). rewrite Z.land_ones by lia.
  change (2 ^ 7) with 128. apply Z.mod_pos_bound. lia.
Qed.

Lemma continuation_byte_value (v : Z) :
  Z.lor (Z.land v 127) 128 = Z.land v 127 + 128.
Proof.
  rewrite <- (Z.add_lor_land (Z.land v 127) 128), final_byte_flag. lia.
Qed.

(** What one run of the encoding loop appends: bytes from 128 to 255,
    then one byte below 128. *)
Lemma encode_varint_loop_bytes (fuel : nat) :
  forall value varint bytes,
  utils.encode_varint_loop fuel value varint = Some bytes ->
  exists init final,
    bytes = varint ++ init ++ [final]
    /\ Forall (fun byte => 128 <= byte <= 255) init
    /\ 0 <= final < 128
    /\ (0 <= value -> Z.of_nat (List.length init) = Z.log2 value / 7).
Proof.
  induction fuel as [| fuel IH]; intros value varint bytes; [discriminate |].
  cbn [utils.encode_varint_loop].
  destruct (Z.eqb_spec (Z.shiftr value 7) 0) as [Hz | Hnz]; cbn [negb].
  - intros [= <-]. exists [], (Z.land value 127).
    split; [reflexivity |]. split; [constructor |].
    split; [apply low7_range |].
    intros _. apply shiftr7_zero in Hz.
    cbn [List.length Z.of_nat]. symmetry. apply Z.div_small.
    destruct (Z.eq_dec value 0) as [-> | Hv]; [cbn; lia |].
    split; [apply Z.log2_nonneg |].
    apply Z.log2_lt_pow2; [lia |]. change (2 ^ 7) with 128. lia.
  - intros Hloop. apply IH in Hloop as (init & final & -> & Hinit & Hfinal & Hlen).
    exists (Z.lor (Z.land value 127) 128 :: init), final.
    split; [now rewrite <- app_assoc |].
    split.
    { constructor; [| assumption].
      rewrite continuation_byte_value.
      pose proof (low7_range value). lia. }
    split; [assumption |].
    intros Hvalue.
    assert (128 <= value) as Hbig.
    { destruct (Z.lt_ge_cases value 128); [| assumption].
      exfalso. apply Hnz. apply shiftr7_zero. lia. }
    cbn [List.length]. rewrite Nat2Z.inj_succ, Hlen
      by (apply Z.shiftr_nonneg; assumption).
    rewrite Z.log2_shiftr by lia.
    assert (7 <= Z.log2 value) as Hlog.
    { change 7 with (Z.log2 128). apply Z.log2_le_mono. assumption. }
    rewrite Z.max_r by lia.
    replace (Z.log2 value) with ((Z.log2 value - 7) + 1 * 7) at 2 by lia.
    rewrite Z.div_add by lia. lia.
Qed.

(** The decoding loop only ever adds to the numbers it was given. *)
Lemma decode_varint_loop_numbers (byte_array : list Z) :
  forall numbers current bit_offset,
  utils.decode_varint_loop byte_array numbers current bit_offset
  = numbers ++ utils.decode_varint_loop byte_array [] current bit_offset.
Proof.
  induction byte_array as [| byte rest IH]; intros numbers current bit_offset;
    cbn [utils.decode_varint_loop].
  - now rewrite app_nil_r.
  - destruct (negb (negb (Z.land byte 128 =? 0))).
    + cbn [app]. rewrite IH, (IH [_]), app_assoc. reflexivity.
    + apply IH.
Qed.

(** After a byte that ends a number the loop starts afresh. *)
Lemma decode_varint_loop_restart (init : list Z) (final : Z) (rest : list Z) :
  Z.land final 128 = 0 ->
  forall numbers current bit_offset,
  utils.decode_varint_loop (init ++ [final] ++ rest) numbers current bit_offset
  = utils.decode_varint_loop rest
      (utils.decode_varint_loop (init ++ [final]) numbers current bit_offset)
      0 0.
Proof.
  intros Hfinal.
  induction init as [| byte init IH]; intros numbers current bit_offset.
  - cbn [app utils.decode_varint_loop]. rewrite Hfinal. reflexivity.
  - cbn [app utils.decode_varint_loop].
    destruct (negb (negb (Z.land byte 128 =? 0))); apply IH.
Qed.

End VarintBytes.

(** X1.  On a negative value the loop of [encode_varint] never reaches its
    [break], however many iterations it is given: the call does not
    return, and neither does the encoding of an array whose first
    negative cell comes after non-negative ones. *)
Theorem encode_varint_negative_never_returns (value : Z) :
  value < 0 ->
  (forall fuel varint, utils.encode_varint_loop fuel value varint = None)
  /\ utils.encode_varint value = Diverges
  /\ (forall shape front back,
        Forall (fun number => 0 <= number) front ->
        utils.numpy_array_to_varint_bytearray
          {| np.shape := shape; np.data := front ++ value :: back |}
        = Diverges).
Proof.
  intros Hvalue.
  assert (utils.encode_varint value = Diverges) as Hdiverges.
  { unfold utils.encode_varint.
    now rewrite encode_varint_loop_negative. }
  split; [intros; now apply encode_varint_loop_negative |].
  split; [assumption |].
  intros shape front back Hfront.
  unfold utils.numpy_array_to_varint_bytearray, np.ravel. cbn [np.data].
  rewrite extend_encoded_app.
  destruct (extend_encoded_spec front Hfront []) as (tail & -> & _).
  cbn [bind utils.extend_encoded]. now rewrite Hdiverges.
Qed.

Lemma encode_varint_negative_never_returns_witness :
  utils.encode_varint (-1) = Diverges
  /\ utils.numpy_array_to_varint_bytearray (np.array [3; -1; 4]) = Diverges.
Proof.
  destruct (encode_varint_negative_never_returns (-1) ltac:(lia))
    as (_ & Hone & Harray).
  split; [exact Hone |].
  apply (Harray [3] [3] [4]). repeat constructor. lia.
Defined.

Lemma encode_varint_small (value : Z) :
  0 <= value < 128 -> utils.encode_varint value = Ok [value].
Proof.
  intros Hvalue. unfold utils.encode_varint.
  cbn [utils.encode_varint_loop].
  replace (Z.shiftr value 7) with 0 by (symmetry; now apply shiftr7_zero).
  cbn [Z.eqb negb app]. now rewrite low7_small.
Qed.

(** X2.  Whatever [encode_varint] returns is a well-formed varint of a
    non-negative value: every byte but the last lies in 128..255, the
    last one below 128 (so all fit a [bytearray]), and there is one byte
    per started group of seven bits; a value below 128 is its own single
    byte. *)
Theorem encode_varint_layout (value : Z) (bytes : list Z) :
  utils.encode_varint value = Ok bytes ->
  0 <= value
  /\ (exists init final,
        bytes = init ++ [final]
        /\ Forall (fun byte => 128 <= byte <= 255) init
        /\ 0 <= final < 128)
  /\ len bytes = Z.log2 value / 7 + 1
  /\ (value < 128 -> bytes = [value]).
Proof.
  unfold utils.encode_varint. intros Hbytes.
  destruct (utils.encode_varint_loop _ value []) as [bytes' |] eqn:Hloop;
    [| discriminate].
  injection Hbytes as ->.
  assert (0 <= value) as Hvalue.
  { destruct (Z.lt_ge_cases value 0) as [Hneg | ]; [| assumption].
    rewrite encode_varint_loop_negative in Hloop by assumption.
    discriminate. }
  pose proof Hloop as Hbytes.
  apply encode_varint_loop_bytes in Hbytes
    as (init & final & Hbytes & Hinit & Hfinal & Hlen).
  specialize (Hlen Hvalue). cbn [app] in Hbytes.
  split; [assumption |].
  split; [now exists init, final |].
  split.
  { unfold len. rewrite Hbytes, length_app, Nat2Z.inj_add, Hlen. reflexivity. }
  intros Hsmall.
  pose proof (encode_varint_small value ltac:(lia)) as Hone.
  unfold utils.encode_varint in Hone. rewrite Hloop in Hone.
  now injection Hone.
Qed.

Lemma encode_varint_layout_witness :
  exists init final,
    [172; 2] = init ++ [final]
    /\ Forall (fun byte => 128 <= byte <= 255) init
    /\ 0 <= final < 128.
Proof.
  exact (proj1 (proj2 (encode_varint_layout 300 [172; 2] eq_refl))).
Defined.

(** A byte that ends a number: its high bit is clear. *)
Definition ends_number (byte : Z) : bool := Z.land byte 128 =? 0.

Lemma decode_varint_loop_count (byte_array : list Z) :
  forall current bit_offset,
  List.length (utils.decode_varint_loop byte_array [] current bit_offset)
  = List.length (filter ends_number byte_array).
Proof.
  induction byte_array as [| byte rest IH]; intros current bit_offset;
    [reflexivity |].
  cbn [utils.decode_varint_loop filter]. unfold ends_number at 1.
  destruct (Z.land byte 128 =? 0); cbn [negb].
  - rewrite decode_varint_loop_numbers, length_app. cbn [app List.length].
    now rewrite IH.
  - apply IH.
Qed.

(** X3.  [decode_varint] returns on every byte sequence, whatever the
    bytes are, and gives one number per byte whose high bit is clear. *)
Theorem decode_varint_counts_final_bytes (byte_array : list Z) :
  exists numbers,
    utils.decode_varint byte_array = Ok numbers
    /\ List.length numbers = List.length (filter ends_number byte_array).
Proof.
  unfold utils.decode_varint. eexists. split; [reflexivity |].
  apply decode_varint_loop_count.
Qed.

(** X4.  Decoding distributes over concatenation at a number boundary:
    when the first part is empty or ends on a byte with its high bit
    clear, the whole decodes to what the parts decode to, one after the
    other. *)
Theorem decode_varint_concat (front back : list Z) :
  front = [] \/ (exists init final,
                   front = init ++ [final] /\ ends_number final = true) ->
  utils.decode_varint (front ++ back)
  = (numbers <- utils.decode_varint front ;;
     more <- utils.decode_varint back ;;
     Ok (numbers ++ more)).
Proof.
  unfold utils.decode_varint. cbn [bind].
  intros [-> | (init & final & -> & Hfinal)]; [reflexivity |].
  apply Z.eqb_eq in Hfinal. f_equal.
  rewrite <- app_assoc, decode_varint_loop_restart by assumption.
  apply decode_varint_loop_numbers.
Qed.

Lemma decode_varint_concat_witness :
  utils.decode_varint ([172; 2] ++ [5])
  = (numbers <- utils.decode_varint [172; 2] ;;
     more <- utils.decode_varint [5] ;;
     Ok (numbers ++ more)).
Proof.
  apply decode_varint_concat.
  right. exists [172], 2. split; reflexivity.
Defined.

(** X5.  An array of non-negative cells whose shape fits its cells comes
    back from its varint bytes as it was; against a shape of another
    size the conversion raises [ValueError].  Shapes are lists of
    non-negative axis lengths ([reshape] reads -1 as a wildcard). *)
Theorem array_round_trip (array : np.ndarray) :
  Forall (fun number => 0 <= number) (np.ravel array) ->
  Forall (fun axis => 0 <= axis) (np.shape array) ->
  np.size_of (np.shape array) = len (np.data array) ->
  exists bytes,
    utils.numpy_array_to_varint_bytearray array = Ok bytes
    /\ utils.varint_bytearray_to_numpy_array bytes (np.shape array) = Ok array
    /\ forall shape,
         Forall (fun axis => 0 <= axis) shape ->
         np.size_of shape <> len (np.data array) ->
         exists msg,
           utils.varint_bytearray_to_numpy_array bytes shape
           = Raise (ValueError msg).
Proof.
  intros Hcells _ Hshape.
  unfold utils.numpy_array_to_varint_bytearray.
  destruct (extend_encoded_spec _ Hcells []) as (bytes & -> & Hdecode).
  cbn [app]. exists bytes. split; [reflexivity |].
  assert (utils.decode_varint bytes = Ok (np.ravel array)) as Hnumbers.
  { unfold utils.decode_varint.
    rewrite <- (app_nil_r bytes), Hdecode. reflexivity. }
  unfold utils.varint_bytearray_to_numpy_array. rewrite Hnumbers.
  unfold np.reshape, np.array, np.ravel.
  cbn [bind np.data]. split.
  - rewrite Hshape, Z.eqb_refl. now destruct array.
  - intros shape _ Hsize. apply Z.eqb_neq in Hsize. rewrite Hsize.
    eexists. reflexivity.
Qed.

Lemma array_round_trip_witness :
  let array := {| np.shape := [1; 2; 2]; np.data := [0; 300; 1; 128] |} in
  exists bytes,
    utils.numpy_array_to_varint_bytearray array = Ok bytes
    /\ utils.varint_bytearray_to_numpy_array bytes [1; 2; 2] = Ok array.
Proof.
  intros array.
  destruct (array_round_trip array) as (bytes & Hencode & Hdecode & _).
  - repeat constructor; lia.
  - repeat constructor; lia.
  - reflexivity.
  - exists bytes. split; assumption.
Defined.

(** ** Palette: the two tables *)

(** [bind] returns only when both of its parts do. *)
Lemma bind_Ok {A B : Type} (r : result A) (k : A -> result B) (b : B) :
  bind r k = Ok b -> exists a, r = Ok a /\ k a = Ok b.
Proof. destruct r as [a | e |]; [| discriminate ..]. intros H. now exists a. Qed.

Section DictLemmas.
Context {K V : Type} (eqb : K -> K -> bool).

Lemma dict_get_In (d : list (K * V)) (k : K) (v : V) :
  dict_get eqb d k = Some v -> exists k', In (k', v) d /\ eqb k' k = true.
Proof.
  induction d as [| [k' v'] d IH]; [discriminate |].
  cbn [dict_get]. destruct (eqb k' k) eqn:Hk.
  - intros [= ->]. exists k'. split; [now left | assumption].
  - intros Hd. destruct (IH Hd) as (k'' & Hin & Heq).
    exists k''. split; [now right | assumption].
Qed.

(** [d[k] = v] for a key that [d] does not hold puts the entry last. *)
Lemma dict_set_absent (d : list (K * V)) (k : K) (v : V) :
  dict_get eqb d k = None -> dict_set eqb d k v = d ++ [(k, v)].
Proof.
  induction d as [| [k' v'] d IH]; [reflexivity |].
  cbn [dict_get dict_set app]. destruct (eqb k' k); [discriminate |].
  intros Hd. now rewrite IH.
Qed.

Lemma dict_get_app (d d' : list (K * V)) (k : K) :
  dict_get eqb (d ++ d') k
  = match dict_get eqb d k with
    | Some v => Some v
    | None => dict_get eqb d' k
    end.
Proof.
  induction d as [| [k' v'] d IH]; [reflexivity |].
  cbn [dict_get app]. now destruct (eqb k' k).
Qed.

Lemma dict_set_not_empty (d : list (K * V)) (k : K) (v : V) :
  dict_set eqb d k v <> [].
Proof. destruct d as [| [k' v'] d]; cbn [dict_set]; [| destruct (eqb k' k)]; discriminate. Qed.

End DictLemmas.

(** The indices [0, 1, ..., n - 1]. *)
Definition indices (n : nat) : list Z := map Z.of_nat (seq 0 n).

(** The two tables of a palette as [get_id] builds them: the blocks of
    the sequence, each against its position. *)
Definition dense (self : Palette.t) : Prop :=
  Palette._block_to_index self
  = combine (Palette._index_to_block self)
            (indices (List.length (Palette._index_to_block self))).

(** A block whose properties, when it has any, are a dict: no key
    twice. *)
Definition distinct_keys (block : Block.t) : Prop :=
  match Block.properties block with
  | Some items => NoDup (map fst items)
  | None => True
  end.

Section PaletteTables.

Lemma Block_eqb_refl (block : Block.t) :
  distinct_keys block -> Block.eqb block block = true.
Proof.
  destruct block as [id [items |]]; unfold distinct_keys, Block.eqb;
    cbn [Block.id Block.properties]; intros Hkeys;
    rewrite String.eqb_refl; [now apply str_dict_eqb_refl | reflexivity].
Qed.

Lemma indices_succ (n : nat) : indices (S n) = indices n ++ [Z.of_nat n].
Proof. unfold indices. now rewrite seq_S, map_app. Qed.

Lemma length_indices (n : nat) : List.length (indices n) = n.
Proof. unfold indices. now rewrite length_map, length_seq. Qed.

Lemma combine_app {A B : Type} (l m : list A) (l' m' : list B) :
  List.length l = List.length l' ->
  combine (l ++ m) (l' ++ m') = combine l l' ++ combine m m'.
Proof.
  revert l'. induction l as [| a l IH]; intros [| b l']; try discriminate;
    [reflexivity |].
  cbn [List.length app combine]. intros [= Hlen]. now rewrite IH.
Qed.

Lemma combine_snoc {A : Type} (l : list A) (a : A) :
  combine (l ++ [a]) (indices (List.length (l ++ [a])))
  = combine l (indices (List.length l)) ++ [(a, len l)].
Proof.
  rewrite length_app. cbn [List.length]. rewrite Nat.add_1_r, indices_succ.
  rewrite combine_app by now rewrite length_indices.
  reflexivity.
Qed.

Lemma combine_seq_In {A : Type} (l : list A) (a : A) (i : Z) :
  forall start,
  In (a, i) (combine l (map Z.of_nat (seq start (List.length l)))) ->
  exists n, i = Z.of_nat (start + n) /\ nth_error l n = Some a.
Proof.
  induction l as [| a' l IH]; intros start; [contradiction |].
  cbn [List.length seq map combine In]. intros [[= <- <-] | Hin].
  - exists O. split; [f_equal; lia | reflexivity].
  - destruct (IH _ Hin) as (n & -> & Hn).
    exists (S n). split; [f_equal; lia | assumption].
Qed.

(** In a dense palette an index found in the table leads back to its
    block. *)
Lemma dense_lookup (self : Palette.t) (block : Block.t) (index : Z) :
  dense self ->
  dict_get Block.eqb (Palette._block_to_index self) block = Some index ->
  exists stored,
    Palette.get_block self index = Ok stored
    /\ Block.eqb stored block = true
    /\ 0 <= index < len (Palette._index_to_block self).
Proof.
  intros Hdense Hget.
  apply dict_get_In in Hget as (stored & Hin & Heq).
  rewrite Hdense in Hin. apply combine_seq_In in Hin as (n & -> & Hn).
  cbn [Nat.add].
  assert (n < List.length (Palette._index_to_block self))%nat as Hlt
    by (apply nth_error_Some; congruence).
  exists stored. split; [| split; [assumption | unfold len; lia]].
  unfold Palette.get_block.
  destruct (list_getitem_nth (Palette._index_to_block self) (Z.of_nat n))
    as (a & Ha & ->); [unfold len; lia |].
  rewrite Nat2Z.id in Ha. congruence.
Qed.

(** What [get_id] does on a dense palette. *)
Lemma get_id_dense (self : Palette.t) (block : Block.t) :
  dense self -> distinct_keys block ->
  exists index self' stored,
    Palette.get_id self block = Ok (index, self')
    /\ dense self'
    /\ 0 <= index < len (Palette._index_to_block self')
    /\ Palette.get_block self' index = Ok stored
    /\ Block.eqb stored block = true
    /\ Palette.get_id self' block = Ok (index, self')
    /\ exists added,
         Palette._index_to_block self' = Palette._index_to_block self ++ added
         /\ (List.length added <= 1)%nat.
Proof.
  intros Hdense Hkeys. unfold Palette.get_id at 1, dict_mem.
  destruct (dict_get Block.eqb (Palette._block_to_index self) block)
    as [index |] eqn:Hget; cbn [negb].
  - rewrite Hget.
    destruct (dense_lookup _ _ _ Hdense Hget) as (stored & Hblock & Heq & Hrange).
    exists index, self, stored.
    split; [reflexivity |]. split; [assumption |].
    split; [exact Hrange |]. split; [assumption |]. split; [assumption |].
    split.
    + unfold Palette.get_id, dict_mem. rewrite Hget. cbn [negb].
      now rewrite Hget.
    + exists []. split; [now rewrite app_nil_r | cbn; lia].
  - cbn [Palette._block_to_index Palette._index_to_block].
    set (blocks := Palette._index_to_block self).
    rewrite (dict_set_absent _ _ _ _ Hget), dict_get_app, Hget.
    cbn [dict_get]. rewrite (Block_eqb_refl _ Hkeys).
    set (self' := {| Palette._block_to_index := _;
                     Palette._index_to_block := blocks ++ [block] |}).
    assert (dense self') as Hdense'.
    { unfold dense, self'. cbn [Palette._block_to_index Palette._index_to_block].
      rewrite combine_snoc. now rewrite Hdense. }
    assert (dict_get Block.eqb (Palette._block_to_index self') block
            = Some (len blocks)) as Hget'.
    { unfold self'. cbn [Palette._block_to_index].
      rewrite dict_get_app, Hget. cbn [dict_get].
      now rewrite (Block_eqb_refl _ Hkeys). }
    exists (len blocks), self', block.
    split; [reflexivity |]. split; [assumption |].
    assert (0 <= len blocks < len (blocks ++ [block])) as Hrange.
    { unfold len. rewrite length_app. cbn [List.length]. lia. }
    split; [exact Hrange |].
    split.
    { unfold Palette.get_block, self'. cbn [Palette._index_to_block].
      destruct (list_getitem_nth (blocks ++ [block]) (len blocks) Hrange)
        as (a & Ha & ->).
      unfold len in Ha. rewrite Nat2Z.id, nth_error_app2, Nat.sub_diag in Ha
        by lia.
      now injection Ha as ->. }
    split; [now apply Block_eqb_refl |].
    split.
    { unfold Palette.get_id, dict_mem. rewrite Hget'. cbn [negb].
      now rewrite Hget'. }
    exists [block]. split; [reflexivity | cbn; lia].
Qed.

End PaletteTables.

(** X6.  On a dense palette [get_id] returns for every block, leaves the
    palette dense, and the index it gives leads back to an equal block;
    asking again gives the same index and changes nothing; the sequence
    only ever grows at its end, by at most one block, so no index is
    reused or moved. *)
Theorem get_id_keeps_palette_dense (self : Palette.t) (block : Block.t) :
  dense self -> distinct_keys block ->
  exists index self' stored,
    Palette.get_id self block = Ok (index, self')
    /\ dense self'
    /\ 0 <= index < len (Palette._index_to_block self')
    /\ Palette.get_block self' index = Ok stored
    /\ Block.eqb stored block = true
    /\ Palette.get_id self' block = Ok (index, self')
    /\ exists added,
         Palette._index_to_block self' = Palette._index_to_block self ++ added
         /\ (List.length added <= 1)%nat.
Proof. exact (get_id_dense self block). Qed.

Lemma get_id_keeps_palette_dense_witness :
  exists index self' stored,
    Palette.get_id Palette.init stone = Ok (index, self')
    /\ dense self'
    /\ 0 <= index < len (Palette._index_to_block self')
    /\ Palette.get_block self' index = Ok stored
    /\ Block.eqb stored stone = true
    /\ Palette.get_id self' stone = Ok (index, self')
    /\ exists added,
         Palette._index_to_block self'
         = Palette._index_to_block Palette.init ++ added
         /\ (List.length added <= 1)%nat.
Proof.
  apply (get_id_keeps_palette_dense Palette.init stone); reflexivity.
Defined.

(** ** Palette: what the parser of canonical strings can give *)

Section ParsedBlocks.

Lemma split_not_empty (sep : ascii) (s : string) : split sep s <> [].
Proof.
  induction s as [| c s IH]; cbn [split]; [discriminate |].
  destruct (Ascii.eqb c sep); [discriminate |].
  destruct (split sep s); discriminate.
Qed.

Lemma dict_set_keys (d : list (string * string)) (key value k : string) :
  In k (map fst (dict_set String.eqb d key value)) ->
  k = key \/ In k (map fst d).
Proof.
  induction d as [| [k' v'] d IH]; cbn [dict_set map fst In].
  - intros [<- | []]. now left.
  - destruct (String.eqb_spec k' key) as [-> | Hne]; cbn [map fst In].
    + intros [<- | Hin]; [now left | right; now right].
    + intros [<- | Hin]; [right; now left |].
      destruct (IH Hin) as [-> | Hin']; [now left | right; now right].
Qed.

Lemma dict_set_distinct (d : list (string * string)) (key value : string) :
  NoDup (map fst d) -> NoDup (map fst (dict_set String.eqb d key value)).
Proof.
  induction d as [| [k' v'] d IH]; cbn [dict_set map fst]; intros Hd.
  - repeat constructor. intros [].
  - inversion Hd as [| ? ? Hnotin Hrest]; subst.
    destruct (String.eqb_spec k' key) as [-> | Hne]; cbn [map fst].
    + now constructor.
    + constructor; [| now apply IH].
      intros Hin. apply dict_set_keys in Hin as [-> | Hin]; contradiction.
Qed.

Lemma parse_properties_distinct (pieces : list string) :
  forall properties parsed,
  Palette.parse_properties pieces properties = Ok parsed ->
  NoDup (map fst properties) ->
  NoDup (map fst parsed)
  /\ (pieces <> [] \/ properties <> [] -> parsed <> []).
Proof.
  induction pieces as [| piece pieces IH]; intros properties parsed;
    cbn [Palette.parse_properties].
  - intros [= <-] Hkeys. split; [assumption |]. now intros [[] |].
  - intros Hparse Hkeys.
    apply bind_Ok in Hparse as ([key value] & _ & Hparse).
    apply IH in Hparse as [Hdistinct Hfilled]; [| now apply dict_set_distinct].
    split; [assumption |]. intros _. apply Hfilled. right.
    apply dict_set_not_empty.
Qed.

End ParsedBlocks.

(** X7.  What [set_palette] can make of a canonical string: a string
    without ['['] is taken whole as the id of a block without properties;
    from a string with ['['] the parser gives, when it returns, a block
    whose properties are a dict with at least one entry and no key
    twice.  No string parses to a block with the empty dict. *)
Theorem parse_block_properties (block_str : string) (block : Block.t) :
  Palette.parse_block block_str = Ok block ->
  distinct_keys block
  /\ Block.properties block <> Some []
  /\ (contains "[" block_str = false ->
      block = {| Block.id := block_str; Block.properties := None |})
  /\ (contains "[" block_str = true -> Block.properties block <> None).
Proof.
  unfold Palette.parse_block.
  destruct (contains "[" block_str).
  - intros Hparse.
    apply bind_Ok in Hparse as ([id properties_str] & _ & Hparse).
    apply bind_Ok in Hparse as (properties & Hparse & [= <-]).
    apply parse_properties_distinct in Hparse as [Hdistinct Hfilled];
      [| constructor].
    unfold distinct_keys. cbn [Block.properties].
    split; [assumption |].
    split; [intros [= ->]; apply Hfilled; [left; apply split_not_empty
                                          | reflexivity] |].
    split; [discriminate | discriminate].
  - intros [= <-]. unfold distinct_keys. cbn [Block.properties].
    split; [exact I |]. split; [discriminate |].
    split; [reflexivity | discriminate].
Qed.

Lemma parse_block_properties_witness :
  let block := {| Block.id := "minecraft:oak_log";
                  Block.properties := Some [("axis", "y")] |} in
  Palette.parse_block "minecraft:oak_log[axis=y]" = Ok block
  /\ distinct_keys block
  /\ Block.properties block <> Some [].
Proof.
  intros block.
  assert (Palette.parse_block "minecraft:oak_log[axis=y]" = Ok block)
    as Hparse by reflexivity.
  split; [exact Hparse |].
  destruct (parse_block_properties _ _ Hparse) as (Hkeys & Hfilled & _).
  split; assumption.
Defined.

(** ** The grid behind the coordinates *)

(** A schematic as the constructor and the accessors keep it: a dense
    block palette, a grid shaped (length, height, width) with a cell for
    every position, and in every cell an index of the palette. *)
Definition well_formed (self : Schematic.t) : Prop :=
  dense (Schematic._block_palette self)
  /\ np.shape (Schematic._block_data self)
     = [Schematic._length self; Schematic._height self; Schematic._width self]
  /\ len (np.data (Schematic._block_data self))
     = Schematic._length self * Schematic._height self * Schematic._width self
  /\ Forall (fun index =>
               0 <= index
               < len (Palette._index_to_block (Schematic._block_palette self)))
            (np.data (Schematic._block_data self)).

Section Grid.
Context {consts : constants} {rt : runtime}.

Lemma axis_index_in (index size : Z) :
  0 <= index < size -> np.axis_index index size = Ok index.
Proof.
  intros H. unfold np.axis_index.
  destruct (Z.ltb_spec index 0); [lia |].
  destruct (Z.leb_spec 0 index); [| lia].
  destruct (Z.ltb_spec index size); [reflexivity | lia].
Qed.

Lemma axis_index_out (index size : Z) :
  0 <= index -> size <= index -> np.axis_index index size = Raise IndexError.
Proof.
  intros H0 H. unfold np.axis_index.
  destruct (Z.ltb_spec index 0); [lia |].
  destruct (Z.ltb_spec index size); [lia |].
  now rewrite andb_false_r.
Qed.

Lemma position_in (a : np.ndarray) (d0 d1 d2 i j k : Z) :
  np.shape a = [d0; d1; d2] ->
  0 <= i < d0 -> 0 <= j < d1 -> 0 <= k < d2 ->
  np.position a i j k = Ok ((i * d1 + j) * d2 + k).
Proof.
  intros Hshape Hi Hj Hk. unfold np.position. rewrite Hshape.
  now rewrite !axis_index_in by assumption.
Qed.

Lemma position_out (a : np.ndarray) (d0 d1 d2 i j k : Z) :
  np.shape a = [d0; d1; d2] ->
  0 <= i -> 0 <= j -> 0 <= k ->
  d0 <= i \/ d1 <= j \/ d2 <= k ->
  np.position a i j k = Raise IndexError.
Proof.
  intros Hshape Hi Hj Hk Hout. unfold np.position. rewrite Hshape.
  destruct (Z.lt_ge_cases i d0);
    [rewrite (axis_index_in i) by lia
    | now rewrite (axis_index_out i) by lia].
  destruct (Z.lt_ge_cases j d1);
    [rewrite (axis_index_in j) by lia
    | now rewrite (axis_index_out j) by lia].
  cbn [bind]. now rewrite (axis_index_out k) by lia.
Qed.

Lemma flat_range (d0 d1 d2 i j k : Z) :
  0 <= i < d0 -> 0 <= j < d1 -> 0 <= k < d2 ->
  0 <= (i * d1 + j) * d2 + k < d0 * d1 * d2.
Proof.
  intros Hi Hj Hk.
  assert (0 <= i * d1) by nia.
  assert (i * d1 + j <= d0 * d1 - 1) by nia.
  assert ((i * d1 + j) * d2 <= (d0 * d1 - 1) * d2) by nia.
  nia.
Qed.


Lemma replace_nth_length (n : nat) (l : list Z) (v : Z) :
  List.length (np.replace_nth n l v) = List.length l.
Proof.
  revert n. induction l as [| x l IH]; intros [| n]; cbn; congruence.
Qed.

Lemma replace_nth_same (n : nat) (l : list Z) (v : Z) :
  (n < List.length l)%nat -> nth_error (np.replace_nth n l v) n = Some v.
Proof.
  revert n. induction l as [| x l IH]; intros [| n]; cbn; intros Hn;
    try lia; [reflexivity | apply IH; lia].
Qed.


Lemma replace_nth_Forall (P : Z -> Prop) (n : nat) (l : list Z) (v : Z) :
  Forall P l -> P v -> Forall P (np.replace_nth n l v).
Proof.
  intros Hl Hv. revert n.
  induction Hl as [| x l Hx Hl IH]; intros [| n]; cbn; constructor;
    auto.
Qed.

Lemma list_getitem_nth_error {A : Type} (l : list A) (index : Z) (a : A) :
  0 <= index -> nth_error l (Z.to_nat index) = Some a ->
  list_getitem l index = Ok a.
Proof.
  intros Hindex Hnth.
  assert (Z.to_nat index < List.length l)%nat
    by (apply nth_error_Some; congruence).
  destruct (list_getitem_nth l index) as (a' & Ha' & ->);
    [unfold len; lia | congruence].
Qed.


(** Reading a cell that the grid has: the cell, through the palette. *)
Lemma get_block_cell (self : Schematic.t) (x y z : Z) :
  np.shape (Schematic._block_data self)
  = [Schematic._length self; Schematic._height self; Schematic._width self] ->
  in_bounds self x y z ->
  x < Schematic._length self -> z < Schematic._width self ->
  forall index,
  nth_error (np.data (Schematic._block_data self))
            (Z.to_nat ((x * Schematic._height self + y) * Schematic._width self + z))
  = Some index ->
  Schematic.get_block self x y z
  = Palette.get_block (Schematic._block_palette self) index.
Proof.
  intros Hshape Hbounds Hx Hz index Hcell.
  unfold Schematic.get_block.
  rewrite (proj1 (check_coordinates_spec self x y z) Hbounds).
  destruct Hbounds as (Hx' & Hy' & Hz').
  cbn [bind]. unfold np.getitem.
  rewrite (position_in _ _ _ _ x y z Hshape) by lia.
  cbn [bind]. rewrite (list_getitem_nth_error _ _ index); [reflexivity | | assumption].
  apply flat_range with (d0 := Schematic._length self); lia.
Qed.

(** Within the bounds but past an axis of the grid, whose first axis is
    the length and whose last is the width. *)
Lemma past_the_grid (self : Schematic.t) (x y z : Z) :
  np.shape (Schematic._block_data self)
  = [Schematic._length self; Schematic._height self; Schematic._width self] ->
  in_bounds self x y z ->
  Schematic._length self <= x \/ Schematic._width self <= z ->
  np.position (Schematic._block_data self) x y z = Raise IndexError.
Proof.
  intros Hshape (Hx & Hy & Hz) Hpast.
  apply (position_out _ _ _ _ x y z Hshape); lia.
Qed.

(** [set_block] on a cell that the grid has. *)
Lemma set_block_cell (self : Schematic.t) (x y z : Z) (block : Block.t) :
  well_formed self -> distinct_keys block ->
  in_bounds self x y z ->
  x < Schematic._length self -> z < Schematic._width self ->
  exists index block_palette stored added,
    Schematic.set_block self x y z block
    = Ok (Schematic.set__block_data
            (Schematic.set__block_palette self block_palette)
            {| np.shape := np.shape (Schematic._block_data self);
               np.data :=
                 np.replace_nth
                   (Z.to_nat ((x * Schematic._height self + y)
                              * Schematic._width self + z))
                   (np.data (Schematic._block_data self)) index |})
    /\ dense block_palette
    /\ 0 <= index < len (Palette._index_to_block block_palette)
    /\ Palette.get_block block_palette index = Ok stored
    /\ Block.eqb stored block = true
    /\ Palette._index_to_block block_palette
       = Palette._index_to_block (Schematic._block_palette self) ++ added.
Proof.
  intros (Hdense & Hshape & Hcells & Hvalid) Hkeys Hbounds Hx Hz.
  destruct (get_id_dense _ block Hdense Hkeys)
    as (index & block_palette & stored & Hid & Hdense' & Hrange & Hstored
        & Heq & _ & added & Hadded & _).
  exists index, block_palette, stored, added.
  split; [| tauto].
  unfold Schematic.set_block.
  rewrite (proj1 (check_coordinates_spec self x y z) Hbounds).
  destruct Hbounds as (Hx' & Hy' & Hz').
  cbn [bind]. rewrite Hid. cbn [bind].
  unfold np.setitem. cbn [Schematic.set__block_palette Schematic._block_data].
  rewrite (position_in _ _ _ _ x y z Hshape) by lia.
  reflexivity.
Qed.

End Grid.

Lemma fresh_schematic_well_formed {consts : constants} {rt : runtime}
  (width height length : Z) :
  0 <= width -> 0 <= height -> 0 <= length ->
  well_formed (fresh_schematic width height length).
Proof.
  intros Hwidth Hheight Hlength.
  unfold well_formed, fresh_schematic, np.zeros.
  cbn [Schematic._block_palette Schematic._block_data Schematic._length
       Schematic._height Schematic._width np.shape np.data
       Palette._index_to_block].
  split; [reflexivity |]. split; [reflexivity |].
  split.
  { unfold len, np.size_of. cbn [fold_right]. rewrite repeat_length. nia. }
  apply Forall_forall. intros index Hin.
  apply repeat_spec in Hin as ->. cbn. lia.
Qed.

(** X8.  A schematic fresh from the constructor is well formed, keeps the
    three dimensions it was given, and reads as air at every coordinate
    within the bounds that its grid has a cell for (the grid's first axis
    is the length, its last the width). *)
Theorem new_schematic_reads_air {consts : constants} {rt : runtime}
  (width height length : Z) :
  0 <= width <= 65535 -> 0 <= height <= 65535 -> 0 <= length <= 65535 ->
  exists self,
    Schematic.init width height length = Ok self
    /\ well_formed self
    /\ Schematic._width self = width
    /\ Schematic._height self = height
    /\ Schematic._length self = length
    /\ forall x y z,
         in_bounds self x y z -> x < length -> z < width ->
         Schematic.get_block self x y z
         = Ok {| Block.id := MINECRAFT_AIR; Block.properties := None |}.
Proof.
  intros Hwidth Hheight Hlength.
  exists (fresh_schematic width height length).
  split; [now apply init_in_range |].
  pose proof (fresh_schematic_well_formed width height length
                ltac:(lia) ltac:(lia) ltac:(lia)) as Hwf.
  split; [exact Hwf |].
  repeat (split; [reflexivity |]).
  intros x y z Hbounds Hx Hz.
  destruct Hwf as (_ & Hshape & Hcells & _).
  rewrite (get_block_cell (fresh_schematic width height length) x y z
             Hshape Hbounds Hx Hz 0); [reflexivity |].
  destruct Hbounds as (Hx' & Hy' & Hz').
  cbn [fresh_schematic Schematic._block_data Schematic._width
       Schematic._height Schematic._length np.zeros np.data] in *.
  apply nth_error_repeat.
  pose proof (flat_range length height width x y z
                ltac:(lia) ltac:(lia) ltac:(lia)).
  unfold len in Hcells. rewrite repeat_length in Hcells. lia.
Qed.

Lemma new_schematic_reads_air_witness :
  exists self,
    Schematic.init (consts := sample_constants) (rt := sample_runtime) 3 2 4
    = Ok self
    /\ Schematic.get_block self 2 1 2
       = Ok (plain "minecraft:air").
Proof.
  destruct (new_schematic_reads_air (consts := sample_constants)
              (rt := sample_runtime) 3 2 4
              ltac:(lia) ltac:(lia) ltac:(lia))
    as (self & Hinit & _ & Hwidth & Hheight & Hlength & Hair).
  exists self. split; [exact Hinit |].
  apply Hair; [| lia | lia].
  unfold in_bounds. rewrite Hwidth, Hheight, Hlength. lia.
Defined.

(** X9.  The bounds are checked as (width, height, length) but the grid
    is indexed with its axes in the order (length, height, width): at a
    coordinate within the bounds whose x is not below the length, or
    whose z is not below the width, [get_block] and [set_block] raise
    [IndexError]. *)
Theorem grid_axes_are_swapped (self : Schematic.t) (x y z : Z) :
  well_formed self -> in_bounds self x y z ->
  Schematic._length self <= x \/ Schematic._width self <= z ->
  Schematic.get_block self x y z = Raise IndexError
  /\ forall block, distinct_keys block ->
       Schematic.set_block self x y z block = Raise IndexError.
Proof.
  intros (Hdense & Hshape & _) Hbounds Hpast.
  pose proof (past_the_grid self x y z Hshape Hbounds Hpast) as Hposition.
  pose proof (proj1 (check_coordinates_spec self x y z) Hbounds) as Hcheck.
  split.
  - unfold Schematic.get_block, np.getitem.
    now rewrite Hcheck, Hposition.
  - intros block Hkeys.
    destruct (get_id_dense _ block Hdense Hkeys)
      as (index & block_palette & _ & Hid & _).
    unfold Schematic.set_block, np.setitem. rewrite Hcheck, Hid.
    cbn [bind Schematic.set__block_palette Schematic._block_data].
    now rewrite Hposition.
Qed.

Lemma grid_axes_are_swapped_witness :
  exists self,
    Schematic.init (consts := sample_constants) (rt := sample_runtime) 2 1 1
    = Ok self
    /\ in_bounds self 1 0 0
    /\ Schematic.get_block self 1 0 0
       = Raise IndexError
    /\ Schematic.set_block self 1 0 0 stone = Raise IndexError.
Proof.
  set (self := fresh_schematic (consts := sample_constants)
                 (rt := sample_runtime) 2 1 1).
  assert (Schematic.init (consts := sample_constants) (rt := sample_runtime)
            2 1 1 = Ok self) as Hinit by (apply init_in_range; lia).
  assert (well_formed self) as Hwf
    by (apply fresh_schematic_well_formed; lia).
  assert (in_bounds self 1 0 0) as Hbounds by (cbv; intuition congruence).
  destruct (grid_axes_are_swapped self 1 0 0 Hwf Hbounds)
    as [Hget Hset]; [left; cbn; lia |].
  exists self. split; [exact Hinit |]. split; [exact Hbounds |].
  split; [exact Hget |]. apply Hset. exact I.
Defined.

(** X10.  On a well-formed schematic, at a coordinate within the bounds
    that the grid has a cell for, [set_block] returns, the schematic
    stays well formed with the dimensions it had, and [get_block] at the
    same coordinate then gives a block equal to the one set. *)
Theorem set_block_then_get_block (self : Schematic.t) (x y z : Z)
  (block : Block.t) :
  well_formed self -> distinct_keys block ->
  in_bounds self x y z ->
  x < Schematic._length self -> z < Schematic._width self ->
  exists changed stored,
    Schematic.set_block self x y z block = Ok changed
    /\ well_formed changed
    /\ Schematic._width changed = Schematic._width self
    /\ Schematic._height changed = Schematic._height self
    /\ Schematic._length changed = Schematic._length self
    /\ Schematic.get_block changed x y z = Ok stored
    /\ Block.eqb stored block = true.
Proof.
  intros Hwf Hkeys Hbounds Hx Hz.
  destruct (set_block_cell self x y z block Hwf Hkeys Hbounds Hx Hz)
    as (index & block_palette & stored & added & Hset & Hdense & Hindex
        & Hstored & Heq & Hadded).
  destruct Hwf as (_ & Hshape & Hcells & Hvalid).
  set (p := (x * Schematic._height self + y) * Schematic._width self + z) in *.
  assert (0 <= p < len (np.data (Schematic._block_data self))) as Hp.
  { rewrite Hcells. destruct Hbounds as (? & ? & ?).
    apply flat_range; lia. }
  match type of Hset with _ = Ok ?s => set (changed := s) in * end.
  assert (well_formed changed) as Hwf'.
  { unfold well_formed, changed.
    cbn [Schematic.set__block_data Schematic.set__block_palette
         Schematic._block_palette Schematic._block_data Schematic._length
         Schematic._height Schematic._width np.shape np.data].
    split; [assumption |]. split; [assumption |].
    split; [unfold len; rewrite replace_nth_length; exact Hcells |].
    apply replace_nth_Forall; [| assumption].
    eapply Forall_impl; [| exact Hvalid].
    intros c Hc. rewrite Hadded. unfold len in *. rewrite length_app. lia. }
  exists changed, stored. split; [exact Hset |]. split; [exact Hwf' |].
  repeat (split; [reflexivity |]).
  split; [| assumption].
  rewrite (get_block_cell changed x y z (proj1 (proj2 Hwf')) Hbounds Hx Hz
             index);
    [exact Hstored |].
  unfold changed.
  cbn [Schematic.set__block_data Schematic.set__block_palette
       Schematic._block_data Schematic._height Schematic._width np.data].
  apply replace_nth_same. unfold len in Hp. fold p. lia.
Qed.

Lemma set_block_then_get_block_witness :
  exists self changed,
    Schematic.init (consts := sample_constants) (rt := sample_runtime) 3 2 4
    = Ok self
    /\ Schematic.set_block self 2 1 2 stone = Ok changed
    /\ Schematic.get_block changed 2 1 2 = Ok stone.
Proof.
  set (self := fresh_schematic (consts := sample_constants)
                 (rt := sample_runtime) 3 2 4).
  assert (Schematic.init (consts := sample_constants) (rt := sample_runtime)
            3 2 4 = Ok self) as Hinit by (apply init_in_range; lia).
  assert (well_formed self) as Hwf
    by (apply fresh_schematic_well_formed; lia).
  assert (in_bounds self 2 1 2) as Hbounds by (cbv; intuition congruence).
  destruct (set_block_then_get_block self 2 1 2 stone Hwf I Hbounds
              ltac:(cbn; lia) ltac:(cbn; lia))
    as (changed & stored & Hset & _ & _ & _ & _ & Hget & Heq).
  exists self, changed. split; [exact Hinit |]. split; [exact Hset |].
  rewrite Hget. f_equal.
  destruct stored as [id [items |]]; unfold Block.eqb, stone in Heq;
    cbn [Block.id Block.properties] in Heq;
    apply andb_true_iff in Heq as [Hid Hitems]; [discriminate Hitems |].
  apply String.eqb_eq in Hid. now subst.
Defined.



(** ** The bounds check, seen from outside *)

Section Guards.

Lemma list_getitem_raises {A : Type} (l : list A) (index : Z) (e : exn) :
  list_getitem l index = Raise e -> e = IndexError.
Proof.
  unfold list_getitem.
  destruct (_ && _); [destruct (nth_error l _) |]; congruence.
Qed.

Lemma position_raises (a : np.ndarray) (i j k : Z) (e : exn) :
  np.position a i j k = Raise e -> e = IndexError.
Proof.
  unfold np.position, np.axis_index.
  destruct (np.shape a) as [| d0 [| d1 [| d2 [| d3 rest]]]]; try congruence.
  repeat match goal with
         | |- context [if ?c then _ else _] => destruct c; cbn [bind]
         end; congruence.
Qed.

(** Past the bounds check, reading a cell can only fail with
    [IndexError]. *)
Lemma read_cell_raises (self : Schematic.t) (x y z : Z) (e : exn) :
  (index <- np.getitem (Schematic._block_data self) x y z ;;
   Palette.get_block (Schematic._block_palette self) index) = Raise e ->
  e = IndexError.
Proof.
  unfold np.getitem, Palette.get_block.
  destruct (np.position _ x y z) as [p | e' |] eqn:Hposition; cbn [bind];
    [| intros [= <-]; now apply position_raises in Hposition | discriminate].
  destruct (list_getitem (np.data _) p) as [index | e' |] eqn:Hcell;
    cbn [bind];
    [| intros [= <-]; now apply list_getitem_raises in Hcell | discriminate].
  apply list_getitem_raises.
Qed.

(** Past the bounds check, writing a cell can fail with [IndexError], or
    with the [KeyError] of a block that is not equal to itself. *)
Lemma write_cell_raises (self : Schematic.t) (x y z : Z) (block : Block.t)
  (e : exn) :
  ('(index, block_palette) <-
     Palette.get_id (Schematic._block_palette self) block ;;
   block_data <-
     np.setitem
       (Schematic._block_data (Schematic.set__block_palette self block_palette))
       x y z index ;;
   Ok (Schematic.set__block_data
         (Schematic.set__block_palette self block_palette) block_data))
  = Raise e ->
  e = IndexError \/ exists key, e = KeyError key.
Proof.
  unfold Palette.get_id.
  destruct (dict_get Block.eqb _ block) as [index |]; cbn [bind];
    [| intros [= <-]; right; now eexists].
  unfold np.setitem.
  destruct (np.position _ x y z) as [p | e' |] eqn:Hposition; cbn [bind];
    [discriminate | | discriminate].
  intros [= <-]. left. now apply position_raises in Hposition.
Qed.

End Guards.

(** X12.  The three accessors fail with OutOfBounds exactly at the
    coordinates outside the bounds (a negative coordinate never wraps
    around), and [add_block_entity] returns exactly within them, with the
    entity put last in the list: it does not look at the entities
    already there. *)
Theorem accessors_check_bounds (self : Schematic.t) (x y z : Z) :
  (Schematic.get_block self x y z = Raise OutOfBounds
   <-> ~ in_bounds self x y z)
  /\ (forall block,
        Schematic.set_block self x y z block = Raise OutOfBounds
        <-> ~ in_bounds self x y z)
  /\ (forall id properties,
        let block_entity :=
          {| BlockEntity.id := id; BlockEntity.x := x; BlockEntity.y := y;
             BlockEntity.z := z; BlockEntity.properties := properties |} in
        (Schematic.add_block_entity self block_entity = Raise OutOfBounds
         <-> ~ in_bounds self x y z)
        /\ (Schematic.add_block_entity self block_entity
            = Ok (Schematic.set__block_entities self
                    (Schematic._block_entities self ++ [block_entity]))
            <-> in_bounds self x y z)).
Proof.
  destruct (check_coordinates_spec self x y z) as [Hin Hout].
  assert (in_bounds self x y z \/ ~ in_bounds self x y z) as [Hbounds | Hbounds].
  { unfold in_bounds. lia. }
  - specialize (Hin Hbounds).
    split; [| split; [intros block | intros id properties block_entity; split]].
    + split; [| contradiction].
      unfold Schematic.get_block. rewrite Hin. cbn [bind].
      intros Hraise. now apply read_cell_raises in Hraise.
    + split; [| contradiction].
      unfold Schematic.set_block. rewrite Hin. cbn [bind].
      intros Hraise.
      apply write_cell_raises in Hraise as [Hraise | [key Hraise]];
        discriminate Hraise.
    + split; [| contradiction].
      unfold Schematic.add_block_entity, block_entity.
      cbn [BlockEntity.x BlockEntity.y BlockEntity.z].
      now rewrite Hin.
    + split; [intros _; exact Hbounds | intros _].
      unfold Schematic.add_block_entity, block_entity.
      cbn [BlockEntity.x BlockEntity.y BlockEntity.z].
      now rewrite Hin.
  - specialize (Hout Hbounds).
    split; [| split; [intros block | intros id properties block_entity; split]].
    + split; [intros _; exact Hbounds | intros _].
      unfold Schematic.get_block. now rewrite Hout.
    + split; [intros _; exact Hbounds | intros _].
      unfold Schematic.set_block. now rewrite Hout.
    + split; [intros _; exact Hbounds | intros _].
      unfold Schematic.add_block_entity, block_entity.
      cbn [BlockEntity.x BlockEntity.y BlockEntity.z].
      now rewrite Hout.
    + split; [| contradiction].
      unfold Schematic.add_block_entity, block_entity.
      cbn [BlockEntity.x BlockEntity.y BlockEntity.z].
      rewrite Hout. discriminate.
Qed.

(** ** Saving: the metadata and the version-3 tree *)

Section StringDicts.
Context {V : Type}.

Lemma dict_get_set (d : list (string * V)) (key key' : string) (v : V) :
  dict_get String.eqb (dict_set String.eqb d key v) key'
  = if String.eqb key key' then Some v else dict_get String.eqb d key'.
Proof.
  induction d as [| [k v'] d IH]; cbn [dict_set dict_get]; [reflexivity |].
  destruct (String.eqb_spec k key) as [-> | Hne]; cbn [dict_get].
  - now destruct (String.eqb key key').
  - rewrite IH. destruct (String.eqb_spec k key') as [-> | Hne'];
      [| reflexivity].
    destruct (String.eqb_spec key key'); [congruence | reflexivity].
Qed.

Lemma dict_get_absent (d : list (string * V)) (key : string) :
  ~ In key (map fst d) -> dict_get String.eqb d key = None.
Proof.
  induction d as [| [k v] d IH]; [reflexivity |].
  cbn [map fst In dict_get]. intros Hnotin.
  destruct (String.eqb_spec k key) as [-> | Hne]; [tauto |].
  apply IH. tauto.
Qed.

End StringDicts.

(** A dict comprehension [{key: f(value) for key, value in d.items()}],
    looked up. *)
Lemma comprehension_get {V W : Type} (f : V -> W) (d : list (string * V))
  (key : string) :
  NoDup (map fst d) ->
  forall acc,
  dict_get String.eqb
    (fold_left (fun acc '(k, v) => dict_set String.eqb acc k (f v)) d acc) key
  = match dict_get String.eqb d key with
    | Some v => Some (f v)
    | None => dict_get String.eqb acc key
    end.
Proof.
  induction d as [| [k v] d IH]; intros Hkeys acc; [reflexivity |].
  inversion Hkeys as [| ? ? Hnotin Hrest]; subst.
  cbn [fold_left dict_get]. rewrite IH by assumption.
  rewrite dict_get_set.
  destruct (String.eqb_spec k key) as [-> | Hne]; [| reflexivity].
  now rewrite dict_get_absent.
Qed.

(** X13.  In the metadata that is saved, the keys Name, Author, Date and
    RequiredMods always carry the schematic's own attributes, whatever
    the user's [metadata] dict holds under those names; every other key
    of that dict is saved with its value turned into a string tag, and
    no further key appears. *)
Theorem prepare_metadata_keys {rt : runtime} (self : Schematic.t) :
  let saved := Schematic._prepare_metadata self in
  nbt.get saved "Name" = Some (nbt.String (Schematic.name self))
  /\ nbt.get saved "Author" = Some (nbt.String (Schematic.author self))
  /\ nbt.get saved "Date" = Some (nbt.Long (Schematic.date self))
  /\ nbt.get saved "RequiredMods"
     = Some (nbt.List (map nbt.String (Schematic.required_mods self)))
  /\ (NoDup (map fst (Schematic.metadata self)) ->
      forall key,
        ~ In key ["Name"; "Author"; "Date"; "RequiredMods"] ->
        nbt.get saved key
        = option_map nbtlib_String (nbt.get (Schematic.metadata self) key)).
Proof.
  intros saved. unfold saved, Schematic._prepare_metadata, nbt.get.
  rewrite !dict_get_set. cbn [String.eqb Ascii.eqb Bool.eqb].
  repeat (split; [reflexivity |]).
  intros Hkeys key Hkey. rewrite !dict_get_set.
  cbn [In] in Hkey.
  repeat match goal with
         | |- context [String.eqb ?k key] =>
             destruct (String.eqb_spec k key) as [<- | _]; [tauto |]
         end.
  rewrite (comprehension_get nbtlib_String) by assumption.
  now destruct (dict_get String.eqb (Schematic.metadata self) key).
Qed.

Lemma prepare_metadata_keys_witness :
  let self :=
    Schematic.set_metadata
      (fresh_schematic (consts := sample_constants) (rt := sample_runtime) 1 1 1)
      [("Name", nbt.String "mine"); ("Note", nbt.String "first draft")] in
  let saved := Schematic._prepare_metadata (rt := sample_runtime) self in
  nbt.get saved "Name" = Some (nbt.String "My Schematic")
  /\ nbt.get saved "Note" = Some (nbt.String "first draft").
Proof.
  intros self saved.
  destruct (prepare_metadata_keys (rt := sample_runtime) self)
    as (Hname & _ & _ & _ & Hother).
  split; [exact Hname |].
  apply (Hother ltac:(repeat constructor; cbn; intuition discriminate) "Note").
  cbn. intuition discriminate.
Defined.

(** X14.  [save_to_file] checks the directory first, then the extension,
    then the version: a missing directory is reported whatever the
    extension and version are, and so on.  It writes only under version
    2 or 3: when it returns, the directory existed before, the path ends
    in [.schem], the version is 2 or 3, the directories are as they were
    and the path holds a tree. *)
Theorem save_to_file_guards {consts : constants} {rt : runtime}
  (self : Schematic.t) (file_path : Path) (version : Z) (fs : filesystem) :
  (parent_exists fs file_path = false ->
   Schematic.save_to_file self file_path version fs = Raise FileNotFoundError)
  /\ (parent_exists fs file_path = true -> suffix file_path <> ".schem" ->
      Schematic.save_to_file self file_path version fs
      = Raise (ValueError
                 "Invalid file extension. Please use '.schem' extension."))
  /\ (parent_exists fs file_path = true -> suffix file_path = ".schem" ->
      (version = 1 ->
       Schematic.save_to_file self file_path version fs
       = Raise (NotImplementedError "Version 1 schematics are not supported."))
      /\ (version <> 1 -> version <> 2 -> version <> 3 ->
          Schematic.save_to_file self file_path version fs
          = Raise (ValueError "Invalid schematic version.")))
  /\ (forall written,
        Schematic.save_to_file self file_path version fs = Ok written ->
        parent_exists fs file_path = true
        /\ suffix file_path = ".schem"
        /\ (version = 2 \/ version = 3)
        /\ directories written = directories fs
        /\ exists data, nbtlib_load written file_path = Some data).
Proof.
  unfold Schematic.save_to_file.
  destruct (parent_exists fs file_path);
    [| repeat split; try discriminate; reflexivity].
  destruct (String.eqb_spec (suffix file_path) ".schem") as [Hsuffix | Hsuffix];
    cbn [negb];
    [| repeat split; try discriminate; try contradiction; reflexivity].
  split; [discriminate |]. split; [contradiction |].
  split.
  - intros _ _. split.
    + intros ->. reflexivity.
    + intros H1 H2 H3.
      apply Z.eqb_neq in H1, H2, H3. now rewrite H1, H2, H3.
  - intros written Hsave.
    apply bind_Ok in Hsave as (data & Hdata & [= <-]).
    split; [reflexivity |]. split; [assumption |].
    split.
    { destruct (Z.eqb_spec version 1); [discriminate Hdata |].
      destruct (Z.eqb_spec version 2); [now left |].
      destruct (Z.eqb_spec version 3); [now right | discriminate Hdata]. }
    split; [reflexivity |].
    exists data. unfold nbtlib_load, nbtlib_save. cbn [files].
    generalize (files fs). intros saved.
    induction saved as [| [p d] saved IH]; cbn [dict_set dict_get].
    + unfold Path_eqb. now rewrite !String.eqb_refl.
    + destruct (Path_eqb p file_path) eqn:Hp; cbn [dict_get]; rewrite Hp;
        [reflexivity | exact IH].
Qed.

Section SaveV3.
Context {rt : runtime}.


Lemma block_entity_tags_raises (entities : list BlockEntity.t) :
  Exists (fun entity => BlockEntity.properties entity = None) entities ->
  Schematic.block_entity_tags entities = Raise (AttributeError "items").
Proof.
  induction 1 as [entity entities Hentity | entity entities _ IH];
    cbn [Schematic.block_entity_tags].
  - now rewrite Hentity.
  - rewrite IH. now destruct (BlockEntity.properties entity).
Qed.

Lemma encode_cells_returns (array : np.ndarray) :
  Forall (fun cell => 0 <= cell) (np.data array) ->
  exists bytes,
    utils.numpy_array_to_varint_bytearray array = Ok bytes
    /\ utils.decode_varint bytes = Ok (np.data array).
Proof.
  intros Hcells. unfold utils.numpy_array_to_varint_bytearray, np.ravel.
  destruct (extend_encoded_spec _ Hcells []) as (bytes & -> & Hdecode).
  exists bytes. split; [reflexivity |].
  unfold utils.decode_varint.
  rewrite <- (app_nil_r bytes), Hdecode. reflexivity.
Qed.

End SaveV3.



(** X16.  A block entity without a properties dict (the default of
    [BlockEntity]) is accepted by [add_block_entity] at any coordinate
    within the bounds, and from then on [_save_to_file_v3] raises
    [AttributeError]: it calls [items()] on the properties. *)
Theorem save_v3_needs_entity_properties {rt : runtime}
  (self changed : Schematic.t) (block_entity : BlockEntity.t) :
  Forall (fun cell => 0 <= cell) (np.data (Schematic._block_data self)) ->
  BlockEntity.properties block_entity = None ->
  Schematic.add_block_entity self block_entity = Ok changed ->
  Schematic._save_to_file_v3 changed = Raise (AttributeError "items").
Proof.
  intros Hcells Hproperties Hadd.
  apply bind_Ok in Hadd as ([] & _ & [= <-]).
  unfold Schematic._save_to_file_v3.
  cbn [Schematic.set__block_entities Schematic._block_data
       Schematic._block_entities].
  destruct (encode_cells_returns _ Hcells) as (bytes & -> & _).
  cbn [bind]. rewrite block_entity_tags_raises; [reflexivity |].
  apply Exists_app. right. now constructor.
Qed.

Lemma save_v3_needs_entity_properties_witness :
  let self :=
    fresh_schematic (consts := sample_constants) (rt := sample_runtime) 1 1 1 in
  let sign :=
    {| BlockEntity.id := "minecraft:sign"; BlockEntity.x := 0;
       BlockEntity.y := 0; BlockEntity.z := 0;
       BlockEntity.properties := None |} in
  exists changed,
    Schematic.add_block_entity self sign = Ok changed
    /\ Schematic._save_to_file_v3 (rt := sample_runtime) changed
       = Raise (AttributeError "items").
Proof.
  intros self sign. eexists. split; [reflexivity |].
  apply (save_v3_needs_entity_properties (rt := sample_runtime) self _ sign);
    [repeat constructor; lia | reflexivity | reflexivity].
Defined.

(** ** Loading: what the parsers leave as the constructor made it *)

(** The attributes that no parser assigns, with the values the
    constructor gives them (it gives [_data_version] none), and the block
    palette's first entry. *)
Definition as_constructed {consts : constants} {rt : runtime}
  (self : Schematic.t) : Prop :=
  Schematic._data_version self = None
  /\ Schematic._block_entities self = []
  /\ Schematic._biome_palette self = Palette.init
  /\ Schematic.name self = "My Schematic"
  /\ Schematic.author self = "SchemPy"
  /\ Schematic.date self = now
  /\ Schematic.required_mods self = []
  /\ exists blocks,
       Palette._index_to_block (Schematic._block_palette self)
       = {| Block.id := MINECRAFT_AIR; Block.properties := None |} :: blocks.

Ltac invert_binds :=
  repeat match goal with
         | H : bind _ _ = Ok _ |- _ =>
             let a := fresh "a" in
             let Ha := fresh "Ha" in
             apply bind_Ok in H as (a & Ha & H)
         end.

Section Loading.
Context {consts : constants} {rt : runtime}.

Lemma to_unsigned_short_Ok (value value' : Z) :
  utils.to_unsigned_short value = Ok value' ->
  value' = value /\ 0 <= value <= 65535.
Proof.
  unfold utils.to_unsigned_short.
  destruct (Z.leb_spec 0 value), (Z.leb_spec value 65535); cbn;
    intros [= <-]. lia.
Qed.

Lemma init_Ok (width height length : Z) (self : Schematic.t) :
  Schematic.init width height length = Ok self ->
  self = fresh_schematic width height length.
Proof.
  unfold Schematic.init. intros Hinit.
  apply bind_Ok in Hinit as (w & Hw & Hinit).
  apply bind_Ok in Hinit as (h & Hh & Hinit).
  apply bind_Ok in Hinit as (l & Hl & Hinit).
  apply to_unsigned_short_Ok in Hw as [-> Hw], Hh as [-> Hh], Hl as [-> Hl].
  pose proof (init_in_range width height length Hw Hh Hl) as Hfresh.
  unfold Schematic.init in Hfresh.
  rewrite !to_unsigned_short_in_range in Hfresh by assumption.
  cbn [bind] in Hfresh. congruence.
Qed.

Lemma except_KeyError_Ok {A : Type} (body : result A) (a : A) :
  Schematic.except_KeyError body = Ok a -> body = Ok a.
Proof. destruct body as [a' | [] |]; cbn; congruence. Qed.

Lemma required_fields_Ok (data : nbt.compound) (self : Schematic.t) :
  Schematic.required_fields data = Ok self ->
  exists width height length offset data_version,
    self = Schematic.set_data_version
             (Schematic.set_offset (fresh_schematic width height length) offset)
             data_version.
Proof.
  unfold Schematic.required_fields. intros Hreq.
  apply except_KeyError_Ok in Hreq. invert_binds.
  injection Hreq as <-.
  match goal with H : Schematic.init _ _ _ = Ok _ |- _ =>
    apply init_Ok in H as -> end.
  now repeat eexists.
Qed.

Lemma required_fields_as_constructed (data : nbt.compound)
  (self : Schematic.t) :
  Schematic.required_fields data = Ok self -> as_constructed self.
Proof.
  intros Hreq.
  apply required_fields_Ok in Hreq as (w & h & l & o & d & ->).
  unfold as_constructed. cbn. repeat (split; [reflexivity |]).
  now exists [].
Qed.

Lemma optional_metadata_as_constructed (data : nbt.compound)
  (self changed : Schematic.t) :
  Schematic.optional_metadata data self = Ok changed ->
  as_constructed self -> as_constructed changed.
Proof.
  unfold Schematic.optional_metadata.
  destruct (nbt.mem data "Metadata"); intros Hstep; [| congruence].
  invert_binds. injection Hstep as <-. exact (fun H => H).
Qed.

Lemma set_palette_as_constructed (self : Schematic.t)
  (palette : list (string * Z)) (block_palette : Palette.t) :
  Palette.set_palette (Schematic._block_palette self) palette
  = Ok block_palette ->
  as_constructed self ->
  as_constructed (Schematic.set__block_palette self block_palette).
Proof.
  intros Hset (? & ? & ? & ? & ? & ? & ? & blocks & Hblocks).
  apply set_palette_appends in Hset as (added & Hadded & _).
  unfold as_constructed. cbn [Schematic.set__block_palette
    Schematic._data_version
    Schematic._block_entities Schematic._biome_palette Schematic.name
    Schematic.author Schematic.date Schematic.required_mods
    Schematic._block_palette].
  repeat (split; [assumption |]).
  exists (blocks ++ added). now rewrite Hadded, Hblocks.
Qed.

Lemma parse_file_v2_as_constructed (file : nbt.compound)
  (loaded : Schematic.t) :
  Schematic._parse_file_v2 file = Ok loaded -> as_constructed loaded.
Proof.
  unfold Schematic._parse_file_v2, SpongeV2. intros Hparse.
  apply bind_Ok in Hparse as (s0 & Hreq & Hparse).
  apply required_fields_as_constructed in Hreq.
  apply bind_Ok in Hparse as (s1 & Hmeta & Hparse).
  apply (optional_metadata_as_constructed _ _ _ Hmeta) in Hreq.
  clear Hmeta.
  apply bind_Ok in Hparse as (s2 & Hpalette & Hparse).
  assert (as_constructed s2) as Hs2.
  { destruct (nbt.mem file "Palette"); [| congruence].
    invert_binds. injection Hpalette as <-.
    eapply set_palette_as_constructed; eassumption. }
  clear Hpalette Hreq.
  apply bind_Ok in Hparse as (s3 & Hdata & Hparse).
  assert (as_constructed s3) as Hs3.
  { destruct (nbt.mem file "BlockData"); [| congruence].
    invert_binds. injection Hdata as <-. exact Hs2. }
  clear Hdata Hs2.
  destruct (nbt.mem file "BiomeData"); [| congruence].
  invert_binds. injection Hparse as <-. exact Hs3.
Qed.

Lemma parse_file_v3_as_constructed (file : nbt.compound)
  (loaded : Schematic.t) :
  Schematic._parse_file_v3 file = Ok loaded -> as_constructed loaded.
Proof.
  unfold Schematic._parse_file_v3, SpongeV3. intros Hparse.
  apply bind_Ok in Hparse as (data & _ & Hparse).
  apply bind_Ok in Hparse as (s0 & Hreq & Hparse).
  apply required_fields_as_constructed in Hreq.
  apply bind_Ok in Hparse as (s1 & Hmeta & Hparse).
  apply (optional_metadata_as_constructed _ _ _ Hmeta) in Hreq.
  clear Hmeta.
  apply bind_Ok in Hparse as (s2 & Hblocks & Hparse).
  assert (as_constructed s2) as Hs2.
  { destruct (nbt.mem data "Blocks"); [| congruence].
    invert_binds. injection Hblocks as <-.
    eapply set_palette_as_constructed; eassumption. }
  clear Hblocks Hreq.
  apply bind_Ok in Hparse as (s3 & Hbiomes & Hparse).
  assert (as_constructed s3) as Hs3.
  { destruct (nbt.mem data "Biomes"); [| congruence].
    invert_binds. injection Hbiomes as <-.
    eapply set_palette_as_constructed; eassumption. }
  clear Hbiomes Hs2.
  destruct (nbt.mem data "Entities"); [| congruence].
  invert_binds. injection Hparse as <-. exact Hs3.
Qed.

(** A load that returns went through one of the two parsers. *)
Lemma parse_file_Ok (file : nbt.compound) (loaded : Schematic.t) :
  Schematic._parse_file file = Ok loaded ->
  Schematic._parse_file_v2 file = Ok loaded
  \/ Schematic._parse_file_v3 file = Ok loaded.
Proof.
  unfold Schematic._parse_file, Schematic._parse_file_v1. intros Hparse.
  apply bind_Ok in Hparse as ([version |] & _ & Hparse); [| discriminate].
  apply bind_Ok in Hparse as ([|] & _ & Hparse); [discriminate |].
  apply bind_Ok in Hparse as ([|] & _ & Hparse); [now left |].
  apply bind_Ok in Hparse as ([|] & _ & Hparse); [now right | discriminate].
Qed.

End Loading.

(** X17.  Whatever the file holds, a schematic that [from_file] returns
    has no block entities, an empty biome palette, and the name, author,
    date and required mods of the constructor: the parsers never read
    BlockEntities, a biome palette or the Metadata's own keys back into
    these attributes.  Its block palette still starts with the air block
    the constructor put in, before anything from the file. *)
Theorem loading_keeps_constructor_defaults {consts : constants} {rt : runtime}
  (file_path : Path) (fs : filesystem) (loaded : Schematic.t) :
  Schematic.from_file file_path fs = Ok loaded ->
  Schematic._block_entities loaded = []
  /\ Schematic._biome_palette loaded = Palette.init
  /\ Schematic.name loaded = "My Schematic"
  /\ Schematic.author loaded = "SchemPy"
  /\ Schematic.date loaded = now
  /\ Schematic.required_mods loaded = []
  /\ exists blocks,
       Palette._index_to_block (Schematic._block_palette loaded)
       = {| Block.id := MINECRAFT_AIR; Block.properties := None |} :: blocks.
Proof.
  unfold Schematic.from_file.
  destruct (nbtlib_load fs file_path) as [file |]; [| discriminate].
  destruct (negb _); [discriminate |].
  intros Hparse. apply parse_file_Ok in Hparse as [Hparse | Hparse].
  - exact (proj2 (parse_file_v2_as_constructed _ _ Hparse)).
  - exact (proj2 (parse_file_v3_as_constructed _ _ Hparse)).
Qed.

(** A version-3 file with a name in its Metadata and a block entity
    under Blocks. *)
Definition castle_files : filesystem :=
  {| directories := ["/tmp"];
     files :=
       [(sample_path,
         [("Schematic",
           nbt.Compound
             (("Version", nbt.Int 3)
              :: required_only 1 1 1 3700 [0; 0; 0]
              ++ [("Metadata",
                   nbt.Compound [("Name", nbt.String "castle");
                                 ("Author", nbt.String "mason")]);
                  ("Blocks",
                   nbt.Compound
                     [("Palette",
                       nbt.Compound [("minecraft:stone", nbt.Int 0)]);
                      ("Data", nbt.ByteArray [0]);
                      ("BlockEntities",
                       nbt.List
                         [nbt.Compound
                            [("Pos", nbt.IntArray [0; 0; 0]);
                             ("Id", nbt.String "minecraft:chest");
                             ("Data", nbt.Compound [])]])])]))])] |}.

Lemma loading_keeps_constructor_defaults_witness :
  exists loaded,
    Schematic.from_file (consts := sample_constants) (rt := sample_runtime)
      sample_path castle_files = Ok loaded
    /\ Schematic._block_entities loaded = []
    /\ Schematic.name loaded = "My Schematic".
Proof.
  pose proof (loading_keeps_constructor_defaults (consts := sample_constants)
                (rt := sample_runtime) sample_path castle_files) as Hkeeps.
  destruct (Schematic.from_file sample_path castle_files)
    as [loaded | e |] eqn:Hload;
    [| vm_compute in Hload; discriminate Hload ..].
  exists loaded. split; [reflexivity |].
  destruct (Hkeeps loaded eq_refl) as (Hentities & _ & Hname & _).
  split; assumption.
Defined.

(** X18.  The dispatch of [_parse_file] on a top-level Version, which
    wins over any Version under Schematic: 1 is refused with
    [NotImplementedError], 2 goes to the version-2 parser, and any other
    number but 3, like a Version that is a string, is refused with
    [ValueError]. *)
Theorem parse_file_dispatch {consts : constants} {rt : runtime}
  (file : nbt.compound) (version : nbt.tag) :
  nbt.get file "Version" = Some version ->
  (nbt.as_int version = Some 1 ->
   Schematic._parse_file file
   = Raise (NotImplementedError "Version 1 schematics are not supported."))
  /\ (nbt.as_int version = Some 2 ->
      Schematic._parse_file file = Schematic._parse_file_v2 file)
  /\ (forall number,
        nbt.as_int version = Some number ->
        number <> 1 -> number <> 2 -> number <> 3 ->
        Schematic._parse_file file
        = Raise (ValueError "Invalid schematic version."))
  /\ (forall text,
        version = nbt.String text ->
        Schematic._parse_file file
        = Raise (ValueError "Invalid schematic version.")).
Proof.
  intros Hversion. unfold Schematic._parse_file, Schematic.find_version.
  rewrite Hversion. cbn [bind].
  assert (forall number, nbt.as_int version = Some number ->
          forall k, nbt.eq_int version k = Ok (number =? k)) as Heq.
  { intros number Hnumber k.
    destruct version; try discriminate; now injection Hnumber as ->. }
  split; [| split; [| split]].
  - intros Hnumber. now rewrite (Heq _ Hnumber).
  - intros Hnumber. now rewrite !(Heq _ Hnumber).
  - intros number Hnumber H1 H2 H3. rewrite !(Heq _ Hnumber). cbn [bind].
    apply Z.eqb_neq in H1, H2, H3. now rewrite H1, H2, H3.
  - intros text ->. reflexivity.
Qed.

Lemma parse_file_dispatch_witness :
  let file := [("Version", nbt.Int 4);
               ("Schematic", nbt.Compound [("Version", nbt.Int 3)])] in
  Schematic._parse_file (consts := sample_constants) (rt := sample_runtime) file
  = Raise (ValueError "Invalid schematic version.").
Proof.
  intros file.
  destruct (parse_file_dispatch (consts := sample_constants)
              (rt := sample_runtime) file (nbt.Int 4) eq_refl)
    as (_ & _ & Hother & _).
  apply (Hother 4 eq_refl); discriminate.
Defined.

(** The fields the shared [try] block reads, and trees whose fields, as
    far as they are present, hold what the layouts give them: integers
    for the dimensions and the data version, integers for the offset. *)
Definition required_keys : list string :=
  ["Width"; "Height"; "Length"; "Offset"; "DataVersion"].

Definition well_typed (data : nbt.compound) : Prop :=
  (forall key v,
     In key ["Width"; "Height"; "Length"; "DataVersion"] ->
     nbt.get data key = Some v -> exists n, int_of v = Ok n)
  /\ (forall v, nbt.get data "Offset" = Some v -> exists ns, ints_of v = Ok ns).

Section RequiredFields.
Context {consts : constants} {rt : runtime}.

Lemma dimension_cases (data : nbt.compound) (key : string) :
  In key ["Width"; "Height"; "Length"; "DataVersion"] ->
  well_typed data ->
  (nbt.get data key = None
   /\ Schematic.dimension data key = Raise (KeyError key))
  \/ (exists n, nbt.get data key <> None
                /\ Schematic.dimension data key = Ok n /\ 0 <= n <= 65535).
Proof.
  intros Hkey [Hints _]. unfold Schematic.dimension, nbt.getitem.
  destruct (nbt.get data key) as [v |] eqn:Hget; [right | left; now split].
  cbn [bind]. destruct (Hints key v Hkey Hget) as (n & ->). cbn [bind].
  exists (utils.from_unsigned_short n). split; [discriminate |].
  split; [reflexivity |].
  rewrite from_unsigned_short_mod.
  pose proof (Z.mod_pos_bound n 65536). lia.
Qed.

Lemma required_fields_missing (data : nbt.compound) :
  well_typed data ->
  (exists key, In key required_keys /\ nbt.get data key = None) ->
  Schematic.required_fields data
  = Raise (ValueError "Invalid schematic file.").
Proof.
  intros Htyped (key & Hkey & Hmissing).
  unfold Schematic.required_fields.
  destruct (dimension_cases data "Width" ltac:(cbn; tauto) Htyped)
    as [[_ ->] | (w & Hw & -> & Hwr)]; [reflexivity |].
  destruct (dimension_cases data "Height" ltac:(cbn; tauto) Htyped)
    as [[_ ->] | (h & Hh & -> & Hhr)]; [reflexivity |].
  destruct (dimension_cases data "Length" ltac:(cbn; tauto) Htyped)
    as [[_ ->] | (l & Hl & -> & Hlr)]; [reflexivity |].
  cbn [bind]. rewrite init_in_range by assumption. cbn [bind].
  unfold nbt.getitem.
  destruct (nbt.get data "Offset") as [offset |] eqn:Hoffset;
    [| reflexivity].
  cbn [bind]. destruct (proj2 Htyped offset Hoffset) as (ns & ->).
  cbn [bind].
  destruct (nbt.get data "DataVersion") as [version |] eqn:Hversion;
    [| reflexivity].
  exfalso. cbn [required_keys In] in Hkey.
  destruct Hkey as [<- | [<- | [<- | [<- | [<- | []]]]]]; congruence.
Qed.

End RequiredFields.

(** X19.  A tree that lacks one of Width, Height, Length, Offset and
    DataVersion, its other fields being of the layouts' kinds, is
    refused by both parsers with [ValueError]: the [KeyError] of the
    missing field never gets out, and no stored dimension, whatever its
    value, makes the constructor fail first. *)
Theorem missing_required_field {consts : constants} {rt : runtime}
  (data : nbt.compound) :
  well_typed data ->
  (exists key, In key required_keys /\ nbt.get data key = None) ->
  Schematic._parse_file_v2 data
  = Raise (ValueError "Invalid schematic file.")
  /\ Schematic._parse_file_v3 [("Schematic", nbt.Compound data)]
     = Raise (ValueError "Invalid schematic file.").
Proof.
  intros Htyped Hmissing.
  pose proof (required_fields_missing data Htyped Hmissing) as Hreq.
  split.
  - unfold Schematic._parse_file_v2, SpongeV2. now rewrite Hreq.
  - unfold Schematic._parse_file_v3, SpongeV3.
    change (nbt.getitem [("Schematic", nbt.Compound data)] "Schematic")
      with (Ok (A := nbt.tag) (nbt.Compound data)).
    cbn [bind fields_of]. now rewrite Hreq.
Qed.

Lemma missing_required_field_witness :
  let data := [("Width", nbt.Short (-1)); ("Height", nbt.Short 70000);
               ("Length", nbt.Short 2); ("DataVersion", nbt.Int 3700)] in
  Schematic._parse_file_v2 (consts := sample_constants) (rt := sample_runtime)
    data
  = Raise (ValueError "Invalid schematic file.").
Proof.
  intros data.
  apply (missing_required_field (consts := sample_constants)
           (rt := sample_runtime) data).
  - split.
    + intros key v Hkey Hget. cbn in Hkey.
      destruct Hkey as [<- | [<- | [<- | [<- | []]]]];
        injection Hget as <-; eexists; reflexivity.
    + intros v Hget. discriminate Hget.
  - exists "Offset". split; [cbn; tauto | reflexivity].
Defined.

(** ** The saver classes *)

(** X20.  Whatever the version, the saver that the factory hands out
    holds the schematic it was given and writes nothing: for version 3
    its [save] returns with the files as they were, for every other
    version, known or not, it raises [NotImplementedError]. *)
Theorem factory_savers_write_nothing (schematic : Schematic.t) (version : Z)
  (file_path : Path) (fs : filesystem) :
  let saver := serializer.SchematicSaverFactory.get_saver schematic version in
  serializer.schematic saver = schematic
  /\ (version = 3 -> serializer.save saver file_path fs = Ok fs)
  /\ (version <> 3 ->
      exists msg,
        serializer.save saver file_path fs = Raise (NotImplementedError msg))
  /\ (forall written,
        serializer.save saver file_path fs = Ok written ->
        version = 3 /\ written = fs).
Proof.
  intros saver. split; [reflexivity |].
  unfold saver, serializer.SchematicSaverFactory.get_saver, serializer.save.
  cbn [dict_get serializer.class_of].
  destruct (Z.eqb_spec 1 version) as [<- | H1];
    [repeat split; try discriminate; eexists; reflexivity |].
  destruct (Z.eqb_spec 2 version) as [<- | H2];
    [repeat split; try discriminate; eexists; reflexivity |].
  destruct (Z.eqb_spec 3 version) as [<- | H3].
  - repeat split; try congruence.
  - repeat split; try discriminate; try congruence. eexists. reflexivity.
Qed.

(** ** Saving under version 2, for every schematic the class can make *)

(** The schematics that the constructor, the accessors, assignments to
    the public attributes and [from_file] can produce. *)
Inductive built {consts : constants} {rt : runtime} : Schematic.t -> Prop :=
| built_init (width height length : Z) (self : Schematic.t) :
    Schematic.init width height length = Ok self -> built self
| built_set_block (self changed : Schematic.t) (x y z : Z) (block : Block.t) :
    built self -> Schematic.set_block self x y z block = Ok changed ->
    built changed
| built_add_block_entity (self changed : Schematic.t)
    (block_entity : BlockEntity.t) :
    built self ->
    Schematic.add_block_entity self block_entity = Ok changed ->
    built changed
| built_set_offset (self : Schematic.t) (value : list Z) :
    built self -> built (Schematic.set_offset self value)
| built_set_data_version (self : Schematic.t) (value : Z) :
    built self -> built (Schematic.set_data_version self value)
| built_set_metadata (self : Schematic.t) (value : nbt.compound) :
    built self -> built (Schematic.set_metadata self value)
| built_from_file (file_path : Path) (fs : filesystem) (loaded : Schematic.t) :
    Schematic.from_file file_path fs = Ok loaded -> built loaded.

Lemma built_has_no_data_version {consts : constants} {rt : runtime}
  (self : Schematic.t) :
  built self -> Schematic._data_version self = None.
Proof.
  induction 1 as [width height length self Hinit
                 | self changed x y z block _ IH Hset
                 | self changed block_entity _ IH Hadd
                 | self value _ IH | self value _ IH | self value _ IH
                 | file_path fs loaded Hload];
    try exact IH.
  - apply init_Ok in Hinit as ->. reflexivity.
  - rewrite <- IH. apply (accessors_keep_data_version self changed).
    left. now exists x, y, z, block.
  - rewrite <- IH. apply (accessors_keep_data_version self changed).
    right. now exists block_entity.
  - unfold Schematic.from_file in Hload.
    destruct (nbtlib_load fs file_path) as [file |]; [| discriminate].
    destruct (negb _); [discriminate |].
    apply parse_file_Ok in Hload as [Hparse | Hparse].
    + exact (proj1 (parse_file_v2_as_constructed _ _ Hparse)).
    + exact (proj1 (parse_file_v3_as_constructed _ _ Hparse)).
Qed.

(** X21.  No schematic that the class itself can produce is saved under
    version 2: [_save_to_file_v2] reads [self._data_version], which
    neither the constructor nor an accessor nor a parser assigns, so the
    builder raises [AttributeError], and so does [save_to_file] once the
    directory and the extension are accepted. *)
Theorem save_v2_always_raises {consts : constants} {rt : runtime}
  (self : Schematic.t) :
  built self ->
  Schematic._save_to_file_v2 self = Raise (AttributeError "_data_version")
  /\ forall file_path fs,
       parent_exists fs file_path = true -> suffix file_path = ".schem" ->
       Schematic.save_to_file self file_path 2 fs
       = Raise (AttributeError "_data_version").
Proof.
  intros Hbuilt.
  pose proof (save_v2_needs_data_version self
                (built_has_no_data_version self Hbuilt)) as Hraise.
  split; [exact Hraise |].
  intros file_path fs Hparent Hsuffix. unfold Schematic.save_to_file.
  rewrite Hparent, Hsuffix. cbn [negb String.eqb Ascii.eqb Bool.eqb Z.eqb].
  cbn. now rewrite Hraise.
Qed.

Lemma save_v2_always_raises_witness :
  exists self changed,
    Schematic.init (consts := sample_constants) (rt := sample_runtime) 2 2 2
    = Ok self
    /\ Schematic.set_block self 0 0 0 stone = Ok changed
    /\ Schematic.save_to_file (rt := sample_runtime) changed sample_path 2
         sample_files
       = Raise (AttributeError "_data_version").
Proof.
  set (self := fresh_schematic (consts := sample_constants)
                 (rt := sample_runtime) 2 2 2).
  assert (Schematic.init (consts := sample_constants) (rt := sample_runtime)
            2 2 2 = Ok self) as Hinit by (apply init_in_range; lia).
  assert (well_formed self) as Hwf
    by (apply fresh_schematic_well_formed; lia).
  assert (in_bounds self 0 0 0) as Hbounds by (cbv; intuition congruence).
  destruct (set_block_cell self 0 0 0 stone Hwf I Hbounds
              ltac:(cbn; lia) ltac:(cbn; lia))
    as (index & block_palette & _ & _ & Hset & _).
  eexists self, _. split; [exact Hinit |]. split; [exact Hset |].
  refine (proj2 (save_v2_always_raises (consts := sample_constants)
                   (rt := sample_runtime) _ _) sample_path sample_files
            eq_refl eq_refl).
  eapply built_set_block; [| exact Hset].
  eapply built_init. exact Hinit.
Defined.

(** ** Loading a palette: where the entries end up *)

Section PalettePositions.

Lemma set_palette_places (palette : list (string * Z)) :
  forall self loaded,
  Palette.set_palette self palette = Ok loaded ->
  len (Palette._index_to_block loaded)
  = len (Palette._index_to_block self) + len palette
  /\ forall k block_str index,
       nth_error palette k = Some (block_str, index) ->
       exists block,
         Palette.parse_block block_str = Ok block
         /\ Palette.get_block loaded
              (len (Palette._index_to_block self) + Z.of_nat k)
            = Ok block.
Proof.
  induction palette as [| [block_str index] palette IH]; intros self loaded;
    cbn [Palette.set_palette].
  - intros [= <-]. split; [unfold len; cbn; lia |].
    intros [| k] ? ? [=].
  - intros Hset. apply bind_Ok in Hset as (block & Hblock & Hset).
    pose proof (set_palette_appends _ _ _ Hset) as (added & Hadded & _).
    apply IH in Hset as [Hlen Hplaces].
    cbn [Palette._index_to_block] in Hadded, Hlen, Hplaces.
    assert (len (Palette._index_to_block self ++ [block])
            = len (Palette._index_to_block self) + 1) as Hone.
    { unfold len. rewrite length_app. cbn [List.length]. lia. }
    split.
    { rewrite Hlen, Hone. unfold len. cbn [List.length]. lia. }
    intros [| k] block_str' index'; cbn [nth_error].
    + intros [= <- <-]. exists block. split; [assumption |].
      unfold Palette.get_block. rewrite Hadded, <- app_assoc.
      apply list_getitem_nth_error; [unfold len; lia |].
      cbn [Z.of_nat]. rewrite Z.add_0_r. unfold len. rewrite Nat2Z.id.
      rewrite nth_error_app2, Nat.sub_diag by lia. reflexivity.
    + intros Hentry. destruct (Hplaces k _ _ Hentry) as (block' & Hparse & Hget).
      exists block'. split; [assumption |].
      rewrite Hone in Hget.
      replace (len (Palette._index_to_block self) + Z.of_nat (S k))
        with (len (Palette._index_to_block self) + 1 + Z.of_nat k) by lia.
      exact Hget.
Qed.


End PalettePositions.

(** X22.  [set_palette] puts the block of its k-th entry at position
    [len(_index_to_block) + k] of the sequence, counted from the length
    the sequence had before the call, whatever index the entry carries:
    afterwards [get_block] there gives the block parsed from the entry's
    string, and the sequence is longer by the number of entries. *)
Theorem set_palette_positions (self loaded : Palette.t)
  (palette : list (string * Z)) :
  Palette.set_palette self palette = Ok loaded ->
  len (Palette._index_to_block loaded)
  = len (Palette._index_to_block self) + len palette
  /\ forall k block_str index,
       nth_error palette k = Some (block_str, index) ->
       exists block,
         Palette.parse_block block_str = Ok block
         /\ Palette.get_block loaded
              (len (Palette._index_to_block self) + Z.of_nat k)
            = Ok block.
Proof. apply set_palette_places. Qed.

Lemma set_palette_positions_witness :
  exists loaded,
    Palette.set_palette Palette.init
      [("minecraft:dirt", 7); ("minecraft:stone", 0)] = Ok loaded
    /\ Palette.get_block loaded 1 = Ok stone.
Proof.
  eexists. split; [reflexivity |].
  destruct (set_palette_positions Palette.init _
              [("minecraft:dirt", 7); ("minecraft:stone", 0)] eq_refl)
    as [_ Hplaces].
  destruct (Hplaces 1%nat "minecraft:stone" 0 eq_refl)
    as (block & Hparse & Hget).
  injection Hparse as <-. exact Hget.
Defined.

(** ** Saving under version 2, given the attributes it reads *)




(** ** Saving under version 3 and parsing the tree *)

Section RoundTrip.
Context {consts : constants} {rt : runtime}.

Lemma palette_of_int_fields (palette : list (string * Z)) :
  palette_of (nbt.Compound (int_fields palette)) = Ok palette.
Proof.
  unfold palette_of. cbn [fields_of bind].
  induction palette as [| [key index] palette IH]; [reflexivity |].
  cbn [int_fields map palette_of_fields int_of nbt.as_int bind].
  fold (int_fields palette). now rewrite IH.
Qed.



End RoundTrip.





(** ** The palette as it is saved *)

Section SavedPalette.

(** The loop behind [get_palette]'s dict comprehension. *)
Definition collect (entries : list (Block.t * Z)) (palette : list (string * Z))
  : list (string * Z) :=
  fold_left (fun palette '(block, index) =>
               dict_set String.eqb palette (Block.str block) index)
            entries palette.

Lemma dict_set_length {V : Type} (d : list (string * V)) (key : string) (v : V) :
  (List.length (dict_set String.eqb d key v) <= S (List.length d))%nat.
Proof.
  induction d as [| [k v'] d IH]; cbn [dict_set List.length]; [lia |].
  destruct (String.eqb k key); cbn [List.length]; lia.
Qed.

Lemma collect_length (entries : list (Block.t * Z)) :
  forall palette,
  (List.length (collect entries palette)
   <= List.length palette + List.length entries)%nat.
Proof.
  induction entries as [| [block index] entries IH]; intros palette;
    cbn [collect fold_left List.length]; [lia |].
  fold (collect entries (dict_set String.eqb palette (Block.str block) index)).
  specialize (IH (dict_set String.eqb palette (Block.str block) index)).
  pose proof (dict_set_length palette (Block.str block) index). lia.
Qed.

Lemma collect_get (entries : list (Block.t * Z)) (block_str : string)
  (index : Z) :
  forall palette,
  dict_get String.eqb (collect entries palette) block_str = Some index ->
  dict_get String.eqb palette block_str = Some index
  \/ exists block, In (block, index) entries /\ Block.str block = block_str.
Proof.
  induction entries as [| [block index'] entries IH]; intros palette;
    cbn [collect fold_left]; [now left |].
  fold (collect entries (dict_set String.eqb palette (Block.str block) index')).
  intros Hget. apply IH in Hget as [Hget | (block' & Hin & Hstr)].
  - rewrite dict_get_set in Hget.
    destruct (String.eqb_spec (Block.str block) block_str) as [Hstr | _];
      [| now left].
    injection Hget as ->. right. exists block. split; [now left | assumption].
  - right. exists block'. split; [now right | assumption].
Qed.

Lemma collect_distinct (entries : list (Block.t * Z)) :
  forall palette,
  NoDup (map fst palette
         ++ map (fun entry => Block.str (fst entry)) entries) ->
  collect entries palette
  = palette ++ map (fun entry => (Block.str (fst entry), snd entry)) entries.
Proof.
  induction entries as [| [block index] entries IH]; intros palette Hdistinct;
    cbn [collect fold_left map fst snd]; [now rewrite app_nil_r |].
  fold (collect entries (dict_set String.eqb palette (Block.str block) index)).
  cbn [map fst] in Hdistinct.
  assert (~ In (Block.str block) (map fst palette)) as Hfresh.
  { apply NoDup_remove_2 in Hdistinct. intros Hin. apply Hdistinct.
    apply in_or_app. now left. }
  rewrite (dict_set_absent String.eqb) by now apply dict_get_absent.
  rewrite IH.
  - now rewrite <- app_assoc.
  - rewrite map_app, <- app_assoc. exact Hdistinct.
Qed.

End SavedPalette.

(** X25.  What [get_palette] hands to the savers.  Each of its entries
    is the canonical string of a block of the palette with that block's
    index, and there are at most as many entries as blocks; when the
    blocks have pairwise different canonical strings, it lists every
    block, in the palette's order.  Two blocks with the same string,
    though, share one entry: a block without properties and a block with
    the empty dict are different keys for [get_id], which gives them two
    indices, and [get_palette] keeps the second index only. *)
Theorem get_palette_entries (self : Palette.t) :
  (forall block_str index,
     dict_get String.eqb (Palette.get_palette self) block_str = Some index ->
     exists block,
       In (block, index) (Palette._block_to_index self)
       /\ Block.str block = block_str)
  /\ len (Palette.get_palette self) <= len (Palette._block_to_index self)
  /\ (NoDup (map (fun entry => Block.str (fst entry))
                 (Palette._block_to_index self)) ->
      Palette.get_palette self
      = map (fun entry => (Block.str (fst entry), snd entry))
            (Palette._block_to_index self))
  /\ (forall id,
        let bare := {| Block.id := id; Block.properties := None |} in
        let empty := {| Block.id := id; Block.properties := Some [] |} in
        exists first second,
          Palette.get_id Palette.init bare = Ok (0, first)
          /\ Palette.get_id first empty = Ok (1, second)
          /\ Palette._index_to_block second = [bare; empty]
          /\ Palette.get_palette second = [(id, 1)]).
Proof.
  change (Palette.get_palette self)
    with (collect (Palette._block_to_index self) []).
  split; [| split; [| split]].
  - intros block_str index Hget.
    apply collect_get in Hget as [[=] | Hblock]. exact Hblock.
  - pose proof (collect_length (Palette._block_to_index self) []) as Hlen.
    unfold len. cbn [List.length] in Hlen. lia.
  - intros Hdistinct. now rewrite collect_distinct.
  - intros id bare empty.
    assert (Block.eqb bare bare = true) as Hbare
      by (unfold Block.eqb; cbn; now rewrite String.eqb_refl).
    assert (Block.eqb empty empty = true) as Hempty
      by (unfold Block.eqb; cbn; now rewrite String.eqb_refl).
    assert (Block.eqb bare empty = false) as Hdiffer
      by (unfold Block.eqb; cbn; now rewrite String.eqb_refl).
    exists {| Palette._block_to_index := [(bare, 0)];
              Palette._index_to_block := [bare] |},
           {| Palette._block_to_index := [(bare, 0); (empty, 1)];
              Palette._index_to_block := [bare; empty] |}.
    split.
    { unfold Palette.get_id, dict_mem.
      cbn [Palette.init Palette._block_to_index Palette._index_to_block
           dict_get dict_set negb app len List.length Z.of_nat].
      now rewrite Hbare. }
    split.
    { unfold Palette.get_id, dict_mem.
      cbn [Palette._block_to_index Palette._index_to_block dict_get].
      rewrite Hdiffer.
      cbn [negb Palette._block_to_index Palette._index_to_block dict_get
           dict_set app len List.length Z.of_nat Pos.of_succ_nat].
      rewrite Hdiffer. cbn [dict_get]. now rewrite Hdiffer, Hempty. }
    split; [reflexivity |].
    unfold Palette.get_palette.
    cbn [Palette._block_to_index fold_left dict_set].
    change (Block.str bare) with id. change (Block.str empty) with id.
    cbn [dict_set]. now rewrite String.eqb_refl.
Qed.

(** ** Blocks as dict keys: equality and hash *)

Section ItemOrder.

Lemma ascii_compare_refl (c : ascii) : Ascii.compare c c = Eq.
Proof. unfold Ascii.compare. apply N.compare_refl. Qed.

Lemma ascii_compare_trans (a b c : ascii) :
  Ascii.compare a b = Lt -> Ascii.compare b c = Lt -> Ascii.compare a c = Lt.
Proof.
  unfold Ascii.compare. rewrite !N.compare_lt_iff. apply N.lt_trans.
Qed.

Lemma string_compare_refl (s : string) : String.compare s s = Eq.
Proof.
  induction s as [| c s IH]; [reflexivity |].
  cbn [String.compare]. now rewrite ascii_compare_refl.
Qed.

Lemma string_compare_trans (a : string) :
  forall b c,
  String.compare a b = Lt -> String.compare b c = Lt ->
  String.compare a c = Lt.
Proof.
  induction a as [| x a IH]; intros [| y b] [| z c]; cbn [String.compare];
    try congruence.
  destruct (Ascii.compare x y) eqn:Hxy; try discriminate;
    destruct (Ascii.compare y z) eqn:Hyz; try discriminate; intros Hab Hbc.
  - apply Ascii.compare_eq_iff in Hxy as ->, Hyz as ->.
    rewrite ascii_compare_refl. now apply (IH b c).
  - apply Ascii.compare_eq_iff in Hxy as ->. now rewrite Hyz.
  - apply Ascii.compare_eq_iff in Hyz as <-. now rewrite Hxy.
  - now rewrite (ascii_compare_trans x y z).
Qed.

Lemma string_leb_trans (a b c : string) :
  String.leb a b = true -> String.leb b c = true -> String.leb a c = true.
Proof.
  unfold String.leb.
  destruct (String.compare a b) eqn:Hab; try discriminate;
    destruct (String.compare b c) eqn:Hbc; try discriminate; intros _ _.
  - apply String.compare_eq_iff in Hab as ->, Hbc as ->.
    now rewrite string_compare_refl.
  - apply String.compare_eq_iff in Hab as ->. now rewrite Hbc.
  - apply String.compare_eq_iff in Hbc as <-. now rewrite Hab.
  - now rewrite (string_compare_trans a b c).
Qed.

Lemma item_leb_total (a b : string * string) :
  item_leb a b = true \/ item_leb b a = true.
Proof.
  unfold item_leb. rewrite (String.compare_antisym (fst a) (fst b)).
  destruct (String.compare (fst b) (fst a)); cbn [CompOpp];
    [apply String.leb_total | now right | now left].
Qed.

Lemma item_leb_antisym (a b : string * string) :
  item_leb a b = true -> item_leb b a = true -> a = b.
Proof.
  unfold item_leb. rewrite (String.compare_antisym (fst a) (fst b)).
  destruct (String.compare (fst b) (fst a)) eqn:Hkeys; cbn [CompOpp];
    try discriminate.
  apply String.compare_eq_iff in Hkeys. intros Hab Hba.
  destruct a as [k v], b as [k' v']. cbn [fst snd] in *.
  now rewrite Hkeys, (String.leb_antisym v v').
Qed.

Lemma item_leb_trans (a b c : string * string) :
  item_leb a b = true -> item_leb b c = true -> item_leb a c = true.
Proof.
  unfold item_leb.
  destruct (String.compare (fst a) (fst b)) eqn:Hab; try discriminate;
    destruct (String.compare (fst b) (fst c)) eqn:Hbc; try discriminate.
  - apply String.compare_eq_iff in Hab, Hbc. rewrite Hab, Hbc.
    rewrite string_compare_refl. apply string_leb_trans.
  - apply String.compare_eq_iff in Hab. now rewrite Hab, Hbc.
  - apply String.compare_eq_iff in Hbc. now rewrite <- Hbc, Hab.
  - now rewrite (string_compare_trans _ _ _ Hab Hbc).
Qed.

(** The order in which two items are inserted does not matter. *)
Lemma insert_item_comm (a b : string * string)
  (items : list (string * string)) :
  insert_item a (insert_item b items) = insert_item b (insert_item a items).
Proof.
  induction items as [| c items IH]; cbn [insert_item].
  - destruct (item_leb a b) eqn:Hab, (item_leb b a) eqn:Hba;
      cbn [insert_item]; rewrite ?Hab, ?Hba; try reflexivity.
    + now rewrite (item_leb_antisym a b).
    + destruct (item_leb_total a b); congruence.
  - destruct (item_leb a c) eqn:Hac, (item_leb b c) eqn:Hbc;
      cbn [insert_item]; rewrite ?Hac, ?Hbc.
    + destruct (item_leb a b) eqn:Hab, (item_leb b a) eqn:Hba;
        try reflexivity.
      * now rewrite (item_leb_antisym a b).
      * destruct (item_leb_total a b); congruence.
    + destruct (item_leb b a) eqn:Hba; [| reflexivity].
      rewrite (item_leb_trans b a c) in Hbc by assumption. discriminate.
    + destruct (item_leb a b) eqn:Hab; [| reflexivity].
      rewrite (item_leb_trans a b c) in Hac by assumption. discriminate.
    + now rewrite IH.
Qed.

Lemma sorted_Permutation (items items' : list (string * string)) :
  Permutation items items' -> sorted items = sorted items'.
Proof.
  unfold sorted.
  induction 1 as [| a l l' _ IH | a b l | l l' l'' _ IH _ IH'];
    cbn [fold_right]; try congruence.
  apply insert_item_comm.
Qed.

Lemma dict_items_distinct (d : list (string * string)) :
  NoDup (map fst d) -> NoDup d.
Proof. apply NoDup_map_inv. Qed.

(** Two dicts are equal when they hold the same items, in any order. *)
Lemma str_dict_eqb_Permutation (d1 d2 : list (string * string)) :
  NoDup (map fst d1) -> NoDup (map fst d2) ->
  str_dict_eqb d1 d2 = true <-> Permutation d1 d2.
Proof.
  intros Hd1 Hd2. unfold str_dict_eqb. rewrite andb_true_iff, Nat.eqb_eq.
  rewrite forallb_forall. split.
  - intros [Hlen Hitems].
    apply NoDup_Permutation_bis; [now apply dict_items_distinct | lia |].
    intros [k v] Hin. specialize (Hitems _ Hin). cbn in Hitems.
    destruct (dict_get String.eqb d2 k) as [v' |] eqn:Hget; [| discriminate].
    apply String.eqb_eq in Hitems as ->.
    apply dict_get_In in Hget as (k' & Hin' & Hk).
    now apply String.eqb_eq in Hk as ->.
  - intros Hperm. split; [now apply Permutation_length |].
    intros [k v] Hin.
    rewrite (dict_get_own_entry d2 k v Hd2)
      by (eapply Permutation_in; eassumption).
    apply String.eqb_refl.
Qed.

End ItemOrder.

(** X26.  Blocks as dict keys.  For blocks whose properties are dicts,
    [__eq__] holds exactly when the ids are equal and the properties are
    both absent or hold the same items, in whatever order they were
    inserted; it is symmetric; and blocks that are equal have equal
    hashes, as a dict needs of its keys. *)
Theorem block_equality_and_hash (a b : Block.t) :
  distinct_keys a -> distinct_keys b ->
  (Block.eqb a b = true
   <-> Block.id a = Block.id b
       /\ match Block.properties a, Block.properties b with
          | None, None => True
          | Some d1, Some d2 => Permutation d1 d2
          | _, _ => False
          end)
  /\ Block.eqb a b = Block.eqb b a
  /\ (Block.eqb a b = true ->
      forall hash, Block.__hash__ hash a = Block.__hash__ hash b).
Proof.
  intros Ha Hb.
  assert (forall a b, distinct_keys a -> distinct_keys b ->
          (Block.eqb a b = true
           <-> Block.id a = Block.id b
               /\ match Block.properties a, Block.properties b with
                  | None, None => True
                  | Some d1, Some d2 => Permutation d1 d2
                  | _, _ => False
                  end)) as Hiff.
  { clear. intros [id [d1 |]] [id' [d2 |]]; unfold distinct_keys, Block.eqb;
      cbn [Block.id Block.properties]; intros H1 H2;
      rewrite andb_true_iff, String.eqb_eq;
      rewrite ?str_dict_eqb_Permutation by assumption;
      intuition congruence. }
  split; [now apply Hiff |].
  split.
  - destruct (Block.eqb a b) eqn:Hab, (Block.eqb b a) eqn:Hba;
      try reflexivity.
    + apply Hiff in Hab as [Hid Hitems]; try assumption.
      rewrite <- Hba. symmetry. apply Hiff; try assumption.
      split; [congruence |].
      destruct (Block.properties a), (Block.properties b);
        try contradiction; [now apply Permutation_sym | exact I].
    + apply Hiff in Hba as [Hid Hitems]; try assumption.
      rewrite <- Hab. apply Hiff; try assumption.
      split; [congruence |].
      destruct (Block.properties a), (Block.properties b);
        try contradiction; [now apply Permutation_sym | exact I].
  - intros Hab hash. apply Hiff in Hab as [Hid Hitems]; try assumption.
    unfold Block.__hash__. rewrite Hid. f_equal. f_equal.
    destruct (Block.properties a) as [d1 |], (Block.properties b) as [d2 |];
      try contradiction; [| reflexivity].
    pose proof (sorted_Permutation _ _ Hitems) as Hsorted.
    destruct d1 as [| item1 d1], d2 as [| item2 d2]; try reflexivity.
    + apply Permutation_nil in Hitems. discriminate.
    + apply Permutation_sym, Permutation_nil in Hitems. discriminate.
    + exact Hsorted.
Qed.

Lemma block_equality_and_hash_witness :
  let a := {| Block.id := "minecraft:oak_stairs";
              Block.properties := Some [("facing", "east"); ("half", "top")] |} in
  let b := {| Block.id := "minecraft:oak_stairs";
              Block.properties := Some [("half", "top"); ("facing", "east")] |} in
  Block.eqb a b = true
  /\ forall hash, Block.__hash__ hash a = Block.__hash__ hash b.
Proof.
  intros a b.
  assert (distinct_keys a) as Ha
    by (repeat constructor; cbn; intuition discriminate).
  assert (distinct_keys b) as Hb
    by (repeat constructor; cbn; intuition discriminate).
  destruct (block_equality_and_hash a b Ha Hb) as (_ & _ & Hhash).
  split; [reflexivity |]. apply Hhash. reflexivity.
Defined.

(** X27.  A version-3 file's biome palette goes into the block palette:
    when [_parse_file_v3] returns on a tree with a Biomes compound, the
    blocks parsed from the names of its Palette are the last entries of
    the loaded block palette's sequence, one per name and in the file's
    order, and the loaded biome palette is empty. *)
Theorem biomes_load_into_block_palette {consts : constants} {rt : runtime}
  (file data biomes : nbt.compound) (palette : list (string * Z))
  (loaded : Schematic.t) :
  nbt.get file "Schematic" = Some (nbt.Compound data) ->
  nbt.get data "Biomes" = Some (nbt.Compound biomes) ->
  nbt.get biomes "Palette" = Some (nbt.Compound (int_fields palette)) ->
  Schematic._parse_file_v3 file = Ok loaded ->
  Schematic._biome_palette loaded = Palette.init
  /\ exists before,
       1 <= before
       /\ len (Palette._index_to_block (Schematic._block_palette loaded))
          = before + len palette
       /\ forall k name index,
            nth_error palette k = Some (name, index) ->
            exists block,
              Palette.parse_block name = Ok block
              /\ Palette.get_block (Schematic._block_palette loaded)
                   (before + Z.of_nat k)
                 = Ok block.
Proof.
  intros Hroot Hbiomes Hpalette Hparse.
  split; [exact (proj1 (proj2 (proj2 (parse_file_v3_as_constructed _ _ Hparse)))) |].
  unfold Schematic._parse_file_v3, SpongeV3, nbt.getitem in Hparse.
  unfold nbt.mem, dict_mem in Hparse. unfold nbt.get in *.
  rewrite Hroot in Hparse. cbn [bind fields_of] in Hparse.
  apply bind_Ok in Hparse as (s0 & Hreq & Hparse).
  apply required_fields_as_constructed in Hreq.
  apply bind_Ok in Hparse as (s1 & Hmeta & Hparse).
  apply (optional_metadata_as_constructed _ _ _ Hmeta) in Hreq.
  clear Hmeta.
  apply bind_Ok in Hparse as (s2 & Hblocks & Hparse).
  assert (as_constructed s2) as Hs2.
  { destruct (dict_get String.eqb data "Blocks"); [| congruence].
    invert_binds. injection Hblocks as <-.
    eapply set_palette_as_constructed; eassumption. }
  clear Hblocks Hreq.
  rewrite Hbiomes in Hparse. cbn [bind fields_of] in Hparse.
  rewrite Hpalette in Hparse. cbn [bind] in Hparse.
  rewrite palette_of_int_fields in Hparse. cbn [bind] in Hparse.
  apply bind_Ok in Hparse as (s3 & Hstep & Hparse).
  apply bind_Ok in Hstep as (block_palette & Hset & Hstep).
  assert (Schematic._block_palette loaded = block_palette) as ->.
  { invert_binds. injection Hstep as <-.
    destruct (dict_get String.eqb data "Entities"); [| now injection Hparse as <-].
    invert_binds. now injection Hparse as <-. }
  destruct (set_palette_places _ _ _ Hset) as [Hlen Hplaces].
  exists (len (Palette._index_to_block (Schematic._block_palette s2))).
  split; [| split; assumption].
  destruct Hs2 as (_ & _ & _ & _ & _ & _ & _ & blocks & ->).
  unfold len. cbn [List.length]. lia.
Qed.

(** A version-3 tree with one block and one biome. *)
Definition meadow_biomes : nbt.compound :=
  [("Palette", nbt.Compound (int_fields [("minecraft:plains", 0)]));
   ("Data", nbt.ByteArray [0])].

Definition meadow_root : nbt.compound :=
  required_only 1 1 1 3700 [0; 0; 0]
  ++ [("Blocks",
       nbt.Compound
         [("Palette", nbt.Compound (int_fields [("minecraft:stone", 0)]));
          ("Data", nbt.ByteArray [0])]);
      ("Biomes", nbt.Compound meadow_biomes)].

Definition meadow : nbt.compound :=
  [("Schematic", nbt.Compound meadow_root)].

Lemma biomes_load_into_block_palette_witness :
  exists loaded,
    Schematic._parse_file_v3 (consts := sample_constants)
      (rt := sample_runtime) meadow = Ok loaded
    /\ Schematic._biome_palette loaded = Palette.init
    /\ Palette.get_block (Schematic._block_palette loaded) 2
       = Ok (plain "minecraft:plains").
Proof.
  pose proof (biomes_load_into_block_palette (consts := sample_constants)
                (rt := sample_runtime) meadow meadow_root meadow_biomes
                [("minecraft:plains", 0)])
    as Hbiomes.
  destruct (Schematic._parse_file_v3 meadow) as [loaded | e |] eqn:Hload;
    [| vm_compute in Hload; discriminate Hload ..].
  exists loaded. split; [reflexivity |].
  destruct (Hbiomes loaded eq_refl eq_refl eq_refl eq_refl)
    as (Hempty & before & _ & Hlen & Hplaces).
  split; [exact Hempty |].
  destruct (Hplaces O "minecraft:plains" 0 eq_refl)
    as (block & Hblock & Hget).
  injection Hblock as <-.
  assert (before = 2) as Hbefore.
  { vm_compute in Hload. injection Hload as <-.
    unfold len in Hlen. cbn in Hlen. lia. }
  now rewrite Hbefore in Hget.
Defined.
